(** * vsfsck: a shallow embedding of the VSFS consistency checker (src/vsfsck.c)

    The C program keeps its state in globals ([superblock], [inode_bitmap],
    [data_bitmap], [inodes], [block_referenced], [block_referenced_by],
    [errors_found], [errors_fixed]) and the open image [fs_image].  Here the
    globals become one record [state] that every routine takes and returns;
    the printed diagnostics are collected in [output] and the writes issued
    on the image in [writes].

    Integers: every on-disk field is a [uint32_t] (the magic a [uint16_t]),
    kept as a [Z] in its unsigned range.  Where the C code converts such a
    value to [int] (loop counters initialised from [data_block_start], the
    [int block_num] parameter of [mark_block_referenced]) the conversion is
    written out with [to_int32].

    The image: [image b j] is the [j]-th 32-bit word of block [b], which is
    what the code reads when it loads an indirect block into
    [uint32_t indirect_entries[1024]].  Writes of modified indirect blocks
    update [image]; the writes of the superblock, the bitmaps and the inode
    table are recorded in [writes], their contents being the in-memory
    records the model already carries.

    Array bounds: the C code indexes [block_referenced], [block_referenced_by]
    and [reference_counts] with [int] values that can be negative (a pointer
    of [2^31] or more turned into [int block_num]; a loop counter started at
    [(int)data_block_start]), stores up to [INODE_COUNT] claims per block in
    [block_references], and reads the block of any nonzero indirect pointer,
    also past the end of the image.  The model's maps are total and its
    claim lists unbounded, so out of those bounds it computes something the
    C program does not (it crashes or overwrites other variables).  The
    predicate [in_bounds] below says that a run stays inside them; the
    theorems that depend on it assume it. *)

From Stdlib Require Import ZArith List Bool Lia.
Import ListNotations.
Open Scope Z_scope.

(** ** Constants (the [#define]s) *)

Definition BLOCK_SIZE : Z := 4096.
Definition TOTAL_BLOCKS : Z := 64.
Definition INODE_SIZE : Z := 256.
Definition INODE_COUNT : Z := 80.
Definition MAGIC_NUMBER : Z := 0xD34D.

(** Number of [uint32_t] entries of one block: [BLOCK_SIZE / sizeof(uint32_t)]. *)
Definition ENTRIES_PER_BLOCK : Z := BLOCK_SIZE / 4.

(** ** Machine-level helpers *)

(** Conversion of a [uint32_t] value to [int] (two's complement). *)
Definition to_int32 (v : Z) : Z := if v <? 2 ^ 31 then v else v - 2 ^ 32.

(** The integers [a, a+1, ..., b-1]: the iterations of [for (i = a; i < b; i++)]. *)
Definition zrange (a b : Z) : list Z :=
  map (fun k => a + Z.of_nat k) (seq 0 (Z.to_nat (b - a))).

(** Array read [l[i]]. *)
Definition znth {A} (d : A) (l : list A) (i : Z) : A := nth (Z.to_nat i) l d.

(** Array write [l[n] = x]. *)
Fixpoint replace_nth {A} (n : nat) (x : A) (l : list A) : list A :=
  match l, n with
  | [], _ => []
  | _ :: t, O => x :: t
  | h :: t, S n' => h :: replace_nth n' x t
  end.

Definition zreplace {A} (i : Z) (x : A) (l : list A) : list A :=
  replace_nth (Z.to_nat i) x l.

(** ** Bitmaps: [uint8_t bitmap[BLOCK_SIZE]], bit [i] is bit [i % 8] of byte [i / 8]. *)

Definition get_bit (bitmap : list Z) (bit_index : Z) : Z :=
  let byte_index := bit_index / 8 in
  let bit_offset := bit_index mod 8 in
  Z.land (Z.shiftr (znth 0 bitmap byte_index) bit_offset) 1.

Definition set_bit (bitmap : list Z) (bit_index : Z) : list Z :=
  let byte_index := bit_index / 8 in
  let bit_offset := bit_index mod 8 in
  zreplace byte_index
    (Z.lor (znth 0 bitmap byte_index) (Z.shiftl 1 bit_offset)) bitmap.

Definition clear_bit (bitmap : list Z) (bit_index : Z) : list Z :=
  let byte_index := bit_index / 8 in
  let bit_offset := bit_index mod 8 in
  zreplace byte_index
    (Z.land (znth 0 bitmap byte_index) (Z.lnot (Z.shiftl 1 bit_offset))) bitmap.

(** ** On-disk records *)

Record superblock_t := mkSuperblock {
  magic : Z;
  block_size : Z;
  total_blocks : Z;
  inode_bitmap_block : Z;
  data_bitmap_block : Z;
  inode_table_start : Z;
  data_block_start : Z;
  inode_size : Z;
  inode_count : Z
}.

Record inode_t := mkInode {
  mode : Z; uid : Z; gid : Z; size : Z;
  atime : Z; ctime : Z; mtime : Z; dtime : Z;
  nlink : Z; blocks : Z;
  direct_blocks : list Z;          (* 12 entries *)
  indirect_block : Z;
  double_indirect : Z;
  triple_indirect : Z
}.

Definition set_direct_block (ino : inode_t) (j : Z) (v : Z) : inode_t :=
  {| mode := mode ino; uid := uid ino; gid := gid ino; size := size ino;
     atime := atime ino; ctime := ctime ino; mtime := mtime ino;
     dtime := dtime ino; nlink := nlink ino; blocks := blocks ino;
     direct_blocks := zreplace j v (direct_blocks ino);
     indirect_block := indirect_block ino;
     double_indirect := double_indirect ino;
     triple_indirect := triple_indirect ino |}.

Definition set_indirect_block (ino : inode_t) (v : Z) : inode_t :=
  {| mode := mode ino; uid := uid ino; gid := gid ino; size := size ino;
     atime := atime ino; ctime := ctime ino; mtime := mtime ino;
     dtime := dtime ino; nlink := nlink ino; blocks := blocks ino;
     direct_blocks := direct_blocks ino;
     indirect_block := v;
     double_indirect := double_indirect ino;
     triple_indirect := triple_indirect ino |}.

(** A zeroed inode slot. *)
Definition empty_inode : inode_t :=
  mkInode 0 0 0 0 0 0 0 0 0 0 (repeat 0 12) 0 0 0.

(** ** What the program prints and writes *)

Inductive message :=
  (* main *)
  | MUsage
  | MOpenError
  | MChecking
  | MSummary (oks : list bool)
  | MTotalErrors (n : Z)
  | MAttempting
  | MErrorsFixed (n : Z)
  | MRechecking
  | MRecheckSummary (oks : list bool)
  | MOriginalRemaining (original remaining : Z)
  | MAllFixed
  | MSomeRemain
  | MNoErrors
  (* check_superblock *)
  | EMagic (v : Z)
  | EBlockSize (v : Z)
  | ETotalBlocks (v : Z)
  | EInodeBitmapBlock (v : Z)
  | EDataBitmapBlock (v : Z)
  | EInodeTableStart (v : Z)
  | EDataBlockStart (v : Z)
  | EInodeSize (v : Z)
  | EInodeCount (v : Z)
  (* check_inode_bitmap_consistency *)
  | EInodeMarkedInvalid (i : Z)
  | EInodeValidUnmarked (i : Z)
  (* check_data_bitmap_consistency *)
  | EBlockMarkedUnreferenced (b : Z)
  | EBlockReferencedUnmarked (b : Z) (by_inode : Z)
  (* check_duplicate_blocks *)
  | EDuplicate (b : Z) (claimants : list Z)
  (* check_bad_blocks *)
  | EBadDirect (i j v : Z)
  | EBadIndirect (i v : Z)
  | EBadIndirectEntry (i j v : Z).

(** A write on the image, with the byte offset given to [fseek]. *)
Inductive write_op :=
  | WIndirect (offset : Z)
  | WSuperblock (offset : Z)
  | WInodeBitmap (offset : Z)
  | WDataBitmap (offset : Z)
  | WInode (i : Z) (offset : Z).

(** ** The program state (the globals of vsfsck.c) *)

Record state := mkState {
  superblock : superblock_t;
  inode_bitmap : list Z;
  data_bitmap : list Z;
  inodes : list inode_t;
  image : Z -> Z -> Z;
  block_referenced : Z -> bool;
  block_referenced_by : Z -> Z;
  errors_found : Z;
  errors_fixed : Z;
  output : list message;
  writes : list write_op
}.

Definition set_superblock (s : state) (b : superblock_t) : state :=
  mkState b (inode_bitmap s) (data_bitmap s) (inodes s) (image s)
    (block_referenced s) (block_referenced_by s) (errors_found s)
    (errors_fixed s) (output s) (writes s).

Definition set_inode_bitmap (s : state) (bm : list Z) : state :=
  mkState (superblock s) bm (data_bitmap s) (inodes s) (image s)
    (block_referenced s) (block_referenced_by s) (errors_found s)
    (errors_fixed s) (output s) (writes s).

Definition set_data_bitmap (s : state) (bm : list Z) : state :=
  mkState (superblock s) (inode_bitmap s) bm (inodes s) (image s)
    (block_referenced s) (block_referenced_by s) (errors_found s)
    (errors_fixed s) (output s) (writes s).

Definition set_inodes (s : state) (l : list inode_t) : state :=
  mkState (superblock s) (inode_bitmap s) (data_bitmap s) l (image s)
    (block_referenced s) (block_referenced_by s) (errors_found s)
    (errors_fixed s) (output s) (writes s).

Definition set_image (s : state) (img : Z -> Z -> Z) : state :=
  mkState (superblock s) (inode_bitmap s) (data_bitmap s) (inodes s) img
    (block_referenced s) (block_referenced_by s) (errors_found s)
    (errors_fixed s) (output s) (writes s).

Definition set_refs (s : state) (r : Z -> bool) (rb : Z -> Z) : state :=
  mkState (superblock s) (inode_bitmap s) (data_bitmap s) (inodes s) (image s)
    r rb (errors_found s) (errors_fixed s) (output s) (writes s).

Definition set_counters (s : state) (found fixed : Z) : state :=
  mkState (superblock s) (inode_bitmap s) (data_bitmap s) (inodes s) (image s)
    (block_referenced s) (block_referenced_by s) found fixed
    (output s) (writes s).

(** [printf] of a line. *)
Definition emit (m : message) (s : state) : state :=
  mkState (superblock s) (inode_bitmap s) (data_bitmap s) (inodes s) (image s)
    (block_referenced s) (block_referenced_by s) (errors_found s)
    (errors_fixed s) (output s ++ [m]) (writes s).

(** [printf] of a diagnostic followed by [errors_found++]. *)
Definition report (m : message) (s : state) : state :=
  mkState (superblock s) (inode_bitmap s) (data_bitmap s) (inodes s) (image s)
    (block_referenced s) (block_referenced_by s) (errors_found s + 1)
    (errors_fixed s) (output s ++ [m]) (writes s).

(** [errors_fixed++]. *)
Definition count_fixed (s : state) : state :=
  set_counters s (errors_found s) (errors_fixed s + 1).

(** [fseek] + [fwrite]. *)
Definition log_write (w : write_op) (s : state) : state :=
  mkState (superblock s) (inode_bitmap s) (data_bitmap s) (inodes s) (image s)
    (block_referenced s) (block_referenced_by s) (errors_found s)
    (errors_fixed s) (output s) (writes s ++ [w]).

Definition inode_at (s : state) (i : Z) : inode_t := znth empty_inode (inodes s) i.

Definition set_inode (s : state) (i : Z) (ino : inode_t) : state :=
  set_inodes s (zreplace i ino (inodes s)).

(** ** Image I/O for indirect blocks *)

(** [inodes[i].indirect_block * BLOCK_SIZE]: a [uint32_t] product, so it wraps. *)
Definition block_offset (blk : Z) : Z := (blk * BLOCK_SIZE) mod 2 ^ 32.

(** [fseek(fs_image, blk * BLOCK_SIZE, SEEK_SET); fread(indirect_entries, BLOCK_SIZE, 1, fs_image)]. *)
Definition read_block (img : Z -> Z -> Z) (blk : Z) : list Z :=
  map (img (block_offset blk / BLOCK_SIZE)) (zrange 0 ENTRIES_PER_BLOCK).

(** [fseek(fs_image, blk * BLOCK_SIZE, SEEK_SET); fwrite(entries, BLOCK_SIZE, 1, fs_image)]. *)
Definition write_block (img : Z -> Z -> Z) (blk : Z) (entries : list Z) : Z -> Z -> Z :=
  fun b => if b =? block_offset blk / BLOCK_SIZE then znth 0 entries else img b.

(** ** check_superblock *)

(** One [if (field != expected) { printf(...); consistent = false; errors_found++; }]. *)
Definition sb_test (mismatch : bool) (m : message) (acc : bool * state) : bool * state :=
  if mismatch then (false, report m (snd acc)) else acc.

Definition check_superblock (s : state) : bool * state :=
  let sbk := superblock s in
  let acc := (true, s) in
  let acc := sb_test (negb (magic sbk =? MAGIC_NUMBER)) (EMagic (magic sbk)) acc in
  let acc := sb_test (negb (block_size sbk =? BLOCK_SIZE)) (EBlockSize (block_size sbk)) acc in
  let acc := sb_test (negb (total_blocks sbk =? TOTAL_BLOCKS)) (ETotalBlocks (total_blocks sbk)) acc in
  let acc := sb_test (negb (inode_bitmap_block sbk =? 1)) (EInodeBitmapBlock (inode_bitmap_block sbk)) acc in
  let acc := sb_test (negb (data_bitmap_block sbk =? 2)) (EDataBitmapBlock (data_bitmap_block sbk)) acc in
  let acc := sb_test (negb (inode_table_start sbk =? 3)) (EInodeTableStart (inode_table_start sbk)) acc in
  let acc := sb_test (negb (data_block_start sbk =? 8)) (EDataBlockStart (data_block_start sbk)) acc in
  let acc := sb_test (negb (inode_size sbk =? INODE_SIZE)) (EInodeSize (inode_size sbk)) acc in
  let acc := sb_test (negb (inode_count sbk =? INODE_COUNT) && negb (inode_count sbk =? 0))
               (EInodeCount (inode_count sbk)) acc in
  acc.

(** ** is_valid_inode *)

Definition is_valid_inode (ino : inode_t) : bool :=
  (0 <? nlink ino) && (dtime ino =? 0).

(** ** check_inode_bitmap_consistency *)

Definition inode_bitmap_step (acc : bool * state) (i : Z) : bool * state :=
  let '(consistent, s) := acc in
  let bit_value := get_bit (inode_bitmap s) i in
  let valid := is_valid_inode (inode_at s i) in
  if negb (bit_value =? 0) && negb valid then (false, report (EInodeMarkedInvalid i) s)
  else if (bit_value =? 0) && valid then (false, report (EInodeValidUnmarked i) s)
  else (consistent, s).

Definition check_inode_bitmap_consistency (s : state) : bool * state :=
  fold_left inode_bitmap_step (zrange 0 INODE_COUNT) (true, s).

(** ** mark_block_referenced *)

(** The argument is the [uint32_t] pointer [v]; the C parameter is
    [int block_num = v].  [block_num < superblock.data_block_start] compares as
    unsigned (that is, [v]); [block_num >= TOTAL_BLOCKS] compares as [int].
    A pointer [v >= data_block_start] with a negative [int] value passes both
    tests, and the C code then indexes [block_referenced[block_num]] below the
    array; the total maps here record it at that negative index instead.
    [mark_in_bounds] excludes that case. *)
Definition mark_block_referenced (s : state) (v : Z) (inode_num : Z) : state :=
  let block_num := to_int32 v in
  if (v <? data_block_start (superblock s)) || (TOTAL_BLOCKS <=? block_num) then s
  else if block_referenced s block_num then s
  else set_refs s
         (fun b => if b =? block_num then true else block_referenced s b)
         (fun b => if b =? block_num then inode_num else block_referenced_by s b).

(** ** check_data_bitmap_consistency *)

Definition mark_nonzero (i : Z) (s : state) (v : Z) : state :=
  if negb (v =? 0) then mark_block_referenced s v i else s.

Definition mark_inode_blocks (s : state) (i : Z) : state :=
  let ino := inode_at s i in
  if is_valid_inode ino then
    let s := fold_left (fun s j => mark_nonzero i s (znth 0 (direct_blocks ino) j))
               (zrange 0 12) s in
    if negb (indirect_block ino =? 0) then
      let s := mark_block_referenced s (indirect_block ino) i in
      let indirect_entries := read_block (image s) (indirect_block ino) in
      fold_left (mark_nonzero i) indirect_entries s
    else s
  else s.

Definition data_bitmap_step (acc : bool * state) (i : Z) : bool * state :=
  let '(consistent, s) := acc in
  let bit_value := get_bit (data_bitmap s) (i - to_int32 (data_block_start (superblock s))) in
  if negb (bit_value =? 0) && negb (block_referenced s i) then
    (false, report (EBlockMarkedUnreferenced i) s)
  else if (bit_value =? 0) && block_referenced s i then
    (false, report (EBlockReferencedUnmarked i (block_referenced_by s i)) s)
  else (consistent, s).

(** The bit loop starts at [int i = superblock.data_block_start]; a start
    whose [int] value is negative reads [block_referenced[i]] below the array
    in C.  The indirect block is read with [fseek]/[fread] at
    [indirect_block * BLOCK_SIZE] whatever its number; past the end of the
    image the C buffer keeps its previous (uninitialised) contents, while
    [read_block] returns the words of [image]. *)
Definition check_data_bitmap_consistency (s : state) : bool * state :=
  let s := set_refs s (fun _ => false) (fun _ => -1) in
  let s := fold_left mark_inode_blocks (zrange 0 INODE_COUNT) s in
  fold_left data_bitmap_step
    (zrange (to_int32 (data_block_start (superblock s))) TOTAL_BLOCKS) (true, s).

(** ** check_duplicate_blocks *)

(** The local matrix [block_references[b][0 .. reference_counts[b]-1]] is kept
    as the list [refs b] of claimant inode indices, in the order they were
    recorded.  The C matrix has room for [INODE_COUNT] claims per block;
    a block with more claims than that overruns its row (and the rows after
    it), which the list does not reproduce.  [claims_in_bounds] excludes that
    case. *)
Definition add_ref (refs : Z -> list Z) (b i : Z) : Z -> list Z :=
  fun x => if x =? b then refs b ++ [i] else refs x.

Definition dup_record (i : Z) (refs : Z -> list Z) (block_num : Z) : Z -> list Z :=
  if negb (block_num =? 0) && (block_num <? TOTAL_BLOCKS) then add_ref refs block_num i
  else refs.

Definition dup_inode_refs (s : state) (refs : Z -> list Z) (i : Z) : Z -> list Z :=
  let ino := inode_at s i in
  if is_valid_inode ino then
    let refs := fold_left (fun r j => dup_record i r (znth 0 (direct_blocks ino) j))
                  (zrange 0 12) refs in
    if negb (indirect_block ino =? 0) && (indirect_block ino <? TOTAL_BLOCKS) then
      let refs := add_ref refs (indirect_block ino) i in
      fold_left (dup_record i) (read_block (image s) (indirect_block ino)) refs
    else refs
  else refs.

Definition duplicate_refs (s : state) : Z -> list Z :=
  fold_left (dup_inode_refs s) (zrange 0 INODE_COUNT) (fun _ => []).

Definition dup_report_step (refs : Z -> list Z) (acc : bool * state) (i : Z) : bool * state :=
  let '(no_duplicates, s) := acc in
  if 1 <? Z.of_nat (length (refs i)) then (false, report (EDuplicate i (refs i)) s)
  else (no_duplicates, s).

(** The report loop starts at [int i = superblock.data_block_start], as in
    [check_data_bitmap_consistency]. *)
Definition check_duplicate_blocks (s : state) : bool * state :=
  let refs := duplicate_refs s in
  fold_left (dup_report_step refs)
    (zrange (to_int32 (data_block_start (superblock s))) TOTAL_BLOCKS) (true, s).

(** ** check_bad_blocks *)

(** [block_num < superblock.data_block_start || block_num >= TOTAL_BLOCKS] on [uint32_t]. *)
Definition out_of_range (s : state) (block_num : Z) : bool :=
  (block_num <? data_block_start (superblock s)) || (TOTAL_BLOCKS <=? block_num).

Definition bad_direct_step (i : Z) (ino : inode_t) (acc : bool * state) (j : Z) : bool * state :=
  let '(no_bad_blocks, s) := acc in
  let block_num := znth 0 (direct_blocks ino) j in
  if negb (block_num =? 0) && out_of_range s block_num then
    (false, report (EBadDirect i j block_num) s)
  else (no_bad_blocks, s).

Definition bad_entry_step (i : Z) (entries : list Z) (acc : bool * state) (j : Z) : bool * state :=
  let '(no_bad_blocks, s) := acc in
  let block_num := znth 0 entries j in
  if negb (block_num =? 0) && out_of_range s block_num then
    (false, report (EBadIndirectEntry i j block_num) s)
  else (no_bad_blocks, s).

Definition bad_inode_step (acc : bool * state) (i : Z) : bool * state :=
  let ino := inode_at (snd acc) i in
  if is_valid_inode ino then
    let '(no_bad_blocks, s) := fold_left (bad_direct_step i ino) (zrange 0 12) acc in
    if negb (indirect_block ino =? 0) then
      if out_of_range s (indirect_block ino) then
        (false, report (EBadIndirect i (indirect_block ino)) s)
      else
        let indirect_entries := read_block (image s) (indirect_block ino) in
        fold_left (bad_entry_step i indirect_entries) (zrange 0 ENTRIES_PER_BLOCK)
          (no_bad_blocks, s)
    else (no_bad_blocks, s)
  else acc.

Definition check_bad_blocks (s : state) : bool * state :=
  fold_left bad_inode_step (zrange 0 INODE_COUNT) (true, s).

(** ** fix_errors *)

(** Superblock field assignments [superblock.f = c]. *)
Definition sb_magic (b : superblock_t) v := mkSuperblock v (block_size b) (total_blocks b)
  (inode_bitmap_block b) (data_bitmap_block b) (inode_table_start b) (data_block_start b)
  (inode_size b) (inode_count b).
Definition sb_block_size (b : superblock_t) v := mkSuperblock (magic b) v (total_blocks b)
  (inode_bitmap_block b) (data_bitmap_block b) (inode_table_start b) (data_block_start b)
  (inode_size b) (inode_count b).
Definition sb_total_blocks (b : superblock_t) v := mkSuperblock (magic b) (block_size b) v
  (inode_bitmap_block b) (data_bitmap_block b) (inode_table_start b) (data_block_start b)
  (inode_size b) (inode_count b).
Definition sb_inode_bitmap_block (b : superblock_t) v := mkSuperblock (magic b) (block_size b)
  (total_blocks b) v (data_bitmap_block b) (inode_table_start b) (data_block_start b)
  (inode_size b) (inode_count b).
Definition sb_data_bitmap_block (b : superblock_t) v := mkSuperblock (magic b) (block_size b)
  (total_blocks b) (inode_bitmap_block b) v (inode_table_start b) (data_block_start b)
  (inode_size b) (inode_count b).
Definition sb_inode_table_start (b : superblock_t) v := mkSuperblock (magic b) (block_size b)
  (total_blocks b) (inode_bitmap_block b) (data_bitmap_block b) v (data_block_start b)
  (inode_size b) (inode_count b).
Definition sb_data_block_start (b : superblock_t) v := mkSuperblock (magic b) (block_size b)
  (total_blocks b) (inode_bitmap_block b) (data_bitmap_block b) (inode_table_start b) v
  (inode_size b) (inode_count b).
Definition sb_inode_size (b : superblock_t) v := mkSuperblock (magic b) (block_size b)
  (total_blocks b) (inode_bitmap_block b) (data_bitmap_block b) (inode_table_start b)
  (data_block_start b) v (inode_count b).
Definition sb_inode_count (b : superblock_t) v := mkSuperblock (magic b) (block_size b)
  (total_blocks b) (inode_bitmap_block b) (data_bitmap_block b) (inode_table_start b)
  (data_block_start b) (inode_size b) v.

(** [if (superblock.f != c) { superblock.f = c; errors_fixed++; }] *)
Definition fix_field (get : superblock_t -> Z) (put : superblock_t -> Z -> superblock_t)
    (c : Z) (s : state) : state :=
  if negb (get (superblock s) =? c) then count_fixed (set_superblock s (put (superblock s) c))
  else s.

Definition fix_superblock (s : state) : state :=
  let s := fix_field magic sb_magic MAGIC_NUMBER s in
  let s := fix_field block_size sb_block_size BLOCK_SIZE s in
  let s := fix_field total_blocks sb_total_blocks TOTAL_BLOCKS s in
  let s := fix_field inode_bitmap_block sb_inode_bitmap_block 1 s in
  let s := fix_field data_bitmap_block sb_data_bitmap_block 2 s in
  let s := fix_field inode_table_start sb_inode_table_start 3 s in
  let s := fix_field data_block_start sb_data_block_start 8 s in
  let s := fix_field inode_size sb_inode_size INODE_SIZE s in
  let s := fix_field inode_count sb_inode_count INODE_COUNT s in
  s.

Definition fix_inode_bitmap_step (s : state) (i : Z) : state :=
  let valid := is_valid_inode (inode_at s i) in
  let bit_value := get_bit (inode_bitmap s) i in
  if negb (bit_value =? 0) && negb valid then
    count_fixed (set_inode_bitmap s (clear_bit (inode_bitmap s) i))
  else if (bit_value =? 0) && valid then
    count_fixed (set_inode_bitmap s (set_bit (inode_bitmap s) i))
  else s.

(** Uses [block_referenced] as the last call of
    [check_data_bitmap_consistency] left it. *)
Definition fix_data_bitmap_step (s : state) (i : Z) : state :=
  let bit_index := i - to_int32 (data_block_start (superblock s)) in
  let bit_value := get_bit (data_bitmap s) bit_index in
  if negb (bit_value =? 0) && negb (block_referenced s i) then
    count_fixed (set_data_bitmap s (clear_bit (data_bitmap s) bit_index))
  else if (bit_value =? 0) && block_referenced s i then
    count_fixed (set_data_bitmap s (set_bit (data_bitmap s) bit_index))
  else s.

Definition fix_direct_step (i : Z) (s : state) (j : Z) : state :=
  let block_num := znth 0 (direct_blocks (inode_at s i)) j in
  if negb (block_num =? 0) && out_of_range s block_num then
    count_fixed (set_inode s i (set_direct_block (inode_at s i) j 0))
  else s.

Definition fix_entry_step (acc : list Z * bool * state) (j : Z) : list Z * bool * state :=
  let '(entries, indirect_modified, s) := acc in
  let block_num := znth 0 entries j in
  if negb (block_num =? 0) && out_of_range s block_num then
    (zreplace j 0 entries, true, count_fixed s)
  else acc.

Definition fix_indirect (s : state) (i : Z) : state :=
  let ind := indirect_block (inode_at s i) in
  if negb (ind =? 0) then
    if out_of_range s ind then
      count_fixed (set_inode s i (set_indirect_block (inode_at s i) 0))
    else
      let indirect_entries := read_block (image s) ind in
      let '(entries, indirect_modified, s) :=
        fold_left fix_entry_step (zrange 0 ENTRIES_PER_BLOCK) (indirect_entries, false, s) in
      if indirect_modified then
        log_write (WIndirect (block_offset ind)) (set_image s (write_block (image s) ind entries))
      else s
  else s.

Definition fix_bad_step (s : state) (i : Z) : state :=
  if is_valid_inode (inode_at s i) then
    let s := fold_left (fix_direct_step i) (zrange 0 12) s in
    fix_indirect s i
  else s.

Definition write_superblock (s : state) : state := log_write (WSuperblock 0) s.

Definition write_bitmaps (s : state) : state :=
  let s := log_write (WInodeBitmap (block_offset (inode_bitmap_block (superblock s)))) s in
  log_write (WDataBitmap (block_offset (data_bitmap_block (superblock s)))) s.

Definition inode_offset (s : state) (i : Z) : Z :=
  (inode_table_start (superblock s) * BLOCK_SIZE + i * INODE_SIZE) mod 2 ^ 32.

Definition write_inodes (s : state) : state :=
  fold_left (fun s i => log_write (WInode i (inode_offset s i)) s) (zrange 0 INODE_COUNT) s.

Definition fix_errors (s : state) : state :=
  let s := fix_superblock s in
  let s := fold_left fix_inode_bitmap_step (zrange 0 INODE_COUNT) s in
  let s := fold_left fix_data_bitmap_step
             (zrange (to_int32 (data_block_start (superblock s))) TOTAL_BLOCKS) s in
  let s := fold_left fix_bad_step (zrange 0 INODE_COUNT) s in
  write_inodes (write_bitmaps (write_superblock s)).

(** ** main *)

Definition run_checks (s : state) : list bool * state :=
  let '(sb_consistent, s) := check_superblock s in
  let '(inode_bitmap_consistent, s) := check_inode_bitmap_consistency s in
  let '(data_bitmap_consistent, s) := check_data_bitmap_consistency s in
  let '(no_duplicate_blocks, s) := check_duplicate_blocks s in
  let '(no_bad_blocks, s) := check_bad_blocks s in
  ([sb_consistent; inode_bitmap_consistent; data_bitmap_consistent;
    no_duplicate_blocks; no_bad_blocks], s).

(** The body of [main] after the image has been opened and loaded. *)
Definition check_and_repair (s : state) : state :=
  let s := emit MChecking s in
  let '(oks, s) := run_checks s in
  let s := emit (MTotalErrors (errors_found s)) (emit (MSummary oks) s) in
  if 0 <? errors_found s then
    let s := emit MAttempting s in
    let s := fix_errors s in
    let s := emit (MErrorsFixed (errors_fixed s)) s in
    let original_errors := errors_found s in
    let s := set_counters s 0 0 in
    let s := emit MRechecking s in
    let '(oks2, s) := run_checks s in
    let s := emit (MOriginalRemaining original_errors (errors_found s))
               (emit (MRecheckSummary oks2) s) in
    if errors_found s =? 0 then emit MAllFixed s else emit MSomeRemain s
  else emit MNoErrors s.

(** What [read_superblock], [read_bitmaps] and [read_inodes] load from an
    image that [fopen] opened (the byte layout is not modelled). *)
Record loaded_image := mkLoaded {
  ld_superblock : superblock_t;
  ld_inode_bitmap : list Z;
  ld_data_bitmap : list Z;
  ld_inodes : list inode_t;
  ld_image : Z -> Z -> Z
}.

Definition initial_state (ld : loaded_image) : state :=
  mkState (ld_superblock ld) (ld_inode_bitmap ld) (ld_data_bitmap ld) (ld_inodes ld)
    (ld_image ld) (fun _ => false) (fun _ => -1) 0 0 [] [].

(** [main(argc, argv)]: [fs_image] is [None] when [fopen] fails.  Returns
    the exit code and the printed lines. *)
Definition main (argc : Z) (fs_image : option loaded_image) : Z * list message :=
  if negb (argc =? 2) then (1, [MUsage])
  else match fs_image with
       | None => (1, [MOpenError])
       | Some ld => (0, output (check_and_repair (initial_state ld)))
       end.

(** ** Reading of the spec, for comparison with the code *)

(** The superblock findings the spec asks for: one per mismatching field, in
    field order, none for an inode count of [0]. *)
Definition spec_superblock_findings (b : superblock_t) : list message :=
  (if magic b =? 0xD34D then [] else [EMagic (magic b)]) ++
  (if block_size b =? 4096 then [] else [EBlockSize (block_size b)]) ++
  (if total_blocks b =? 64 then [] else [ETotalBlocks (total_blocks b)]) ++
  (if inode_bitmap_block b =? 1 then [] else [EInodeBitmapBlock (inode_bitmap_block b)]) ++
  (if data_bitmap_block b =? 2 then [] else [EDataBitmapBlock (data_bitmap_block b)]) ++
  (if inode_table_start b =? 3 then [] else [EInodeTableStart (inode_table_start b)]) ++
  (if data_block_start b =? 8 then [] else [EDataBlockStart (data_block_start b)]) ++
  (if inode_size b =? 256 then [] else [EInodeSize (inode_size b)]) ++
  (if (inode_count b =? 80) || (inode_count b =? 0) then [] else [EInodeCount (inode_count b)]).

(** The inode-bitmap finding of slot [i]: none when the bit agrees with the
    validity of the inode record, otherwise the one that names the disagreement. *)
Definition spec_inode_slot_finding (s : state) (i : Z) : list message :=
  let marked := negb (get_bit (inode_bitmap s) i =? 0) in
  let valid := is_valid_inode (inode_at s i) in
  if Bool.eqb marked valid then []
  else if marked then [EInodeMarkedInvalid i] else [EInodeValidUnmarked i].

Definition inode_slot_mismatch (s : state) (i : Z) : bool :=
  negb (Bool.eqb (negb (get_bit (inode_bitmap s) i =? 0)) (is_valid_inode (inode_at s i))).

(** Pointers that [check_duplicate_blocks] records for one inode, one per
    occurrence: the nonzero direct pointers below [TOTAL_BLOCKS], and when the
    single-indirect pointer is nonzero and below [TOTAL_BLOCKS], that pointer
    and the nonzero entries below [TOTAL_BLOCKS] of the block it names. *)
Definition recorded (v : Z) : bool := negb (v =? 0) && (v <? TOTAL_BLOCKS).

Definition claim_walk (img : Z -> Z -> Z) (ino : inode_t) : list Z :=
  filter recorded (map (znth 0 (direct_blocks ino)) (zrange 0 12)) ++
  (if recorded (indirect_block ino)
   then indirect_block ino :: filter recorded (read_block img (indirect_block ino))
   else []).

(** The claimants of block [b]: each valid inode, in index order, once per
    pointer occurrence of [b] in its walk. *)
Definition claimants (s : state) (b : Z) : list Z :=
  flat_map (fun i =>
              let ino := inode_at s i in
              if is_valid_inode ino
              then repeat i (count_occ Z.eq_dec (claim_walk (image s) ino) b)
              else [])
    (zrange 0 INODE_COUNT).

(** The duplicate findings of the data region [data_block_start, TOTAL_BLOCKS). *)
Definition spec_duplicate_findings (s : state) : list message :=
  flat_map (fun b => if 1 <? Z.of_nat (length (claimants s b))
                     then [EDuplicate b (claimants s b)] else [])
    (zrange (to_int32 (data_block_start (superblock s))) TOTAL_BLOCKS).

(** One validate-then-repair cycle, as [main] runs it before its re-check. *)
Definition repair_cycle (s : state) : state := fix_errors (snd (run_checks s)).

(** [errors_found = 0; errors_fixed = 0;] as [main] does before the re-check. *)
Definition reset_counters (s : state) : state := set_counters s 0 0.

(** ** Concrete images used by the witnesses and counterexamples *)

Definition good_superblock : superblock_t :=
  mkSuperblock MAGIC_NUMBER BLOCK_SIZE TOTAL_BLOCKS 1 2 3 8 INODE_SIZE INODE_COUNT.

Definition zero_bitmap : list Z := repeat 0 4096.

(** A bitmap block whose byte [k] is [v], all other bytes zero. *)
Definition bitmap_with (k : nat) (v : Z) : list Z := replace_nth k v zero_bitmap.

(** A regular, valid inode (one link, not deleted) with the given direct
    pointers (padded with zeros) and single-indirect pointer. *)
Definition file_inode (direct : list Z) (ind : Z) : inode_t :=
  mkInode 0 0 0 0 0 0 0 0 1 1 (direct ++ repeat 0 (12 - length direct)) ind 0 0.

Definition inode_table (l : list inode_t) : list inode_t :=
  l ++ repeat empty_inode (80 - length l).

Definition zero_image : Z -> Z -> Z := fun _ _ => 0.

(** Inode 0 is valid with [direct_blocks[0] = 64]; data-bitmap bit 56 is set. *)
Definition img_block64 : loaded_image :=
  mkLoaded good_superblock (bitmap_with 0 1) (bitmap_with 7 1)
    (inode_table [file_inode [64] 0]) zero_image.

(** The superblock says the data region starts at 9; inode 0 is valid with
    [direct_blocks[0] = 8]; data-bitmap bit 0 is set. *)
Definition img_start9 : loaded_image :=
  mkLoaded (sb_data_block_start good_superblock 9) (bitmap_with 0 1) (bitmap_with 0 1)
    (inode_table [file_inode [8] 0]) zero_image.

(** Inode 0 is valid and its first two direct pointers both name block 10. *)
Definition img_twice10 : loaded_image :=
  mkLoaded good_superblock (bitmap_with 0 1) (bitmap_with 0 4)
    (inode_table [file_inode [10; 10] 0]) zero_image.

(** Inode 0 is valid with single-indirect block 8, whose entry 0 is 100. *)
Definition img_bad_entry : loaded_image :=
  mkLoaded good_superblock (bitmap_with 0 1) (bitmap_with 0 1)
    (inode_table [file_inode [] 8])
    (fun b j => if (b =? 8) && (j =? 0) then 100 else 0).

(** The superblock says the data region starts at 20; inodes 0 and 1 are
    valid and both have [direct_blocks[0] = 10]. *)
Definition img_shared10 : loaded_image :=
  mkLoaded (sb_data_block_start good_superblock 20) (bitmap_with 0 3) zero_bitmap
    (inode_table [file_inode [10] 0; file_inode [10] 0]) zero_image.

(** The superblock's inode count is 0; inode 0 is marked in the inode bitmap
    but free. *)
Definition img_count0 : loaded_image :=
  mkLoaded (sb_inode_count good_superblock 0) (bitmap_with 0 1) zero_bitmap
    (inode_table []) zero_image.

(** Inode 0 is a regular file whose only block is 8; inode-bitmap bit 0 and
    data-bitmap bit 0 are set: a consistent image. *)
Definition img_one_file : loaded_image :=
  mkLoaded good_superblock (bitmap_with 0 1) (bitmap_with 0 1)
    (inode_table [file_inode [8] 0]) zero_image.

(** ** Relations used by the proofs *)

(** Several diagnostics in a row. *)
Definition reports (ms : list message) (s : state) : state :=
  fold_left (fun s m => report m s) ms s.

(** What a validator may change: it appends to the output, raises the error
    count and rebuilds the reference map; nothing else. *)
Definition checked (s s' : state) : Prop :=
  superblock s' = superblock s /\ inode_bitmap s' = inode_bitmap s /\
  data_bitmap s' = data_bitmap s /\ inodes s' = inodes s /\ image s' = image s /\
  errors_fixed s' = errors_fixed s /\ writes s' = writes s /\
  (exists l, output s' = output s ++ l) /\ errors_found s <= errors_found s'.

(** The number of superblock fields [fix_errors] resets. *)
Definition sb_fix_count (b : superblock_t) : Z :=
  (if magic b =? MAGIC_NUMBER then 0 else 1) + (if block_size b =? BLOCK_SIZE then 0 else 1) +
  (if total_blocks b =? TOTAL_BLOCKS then 0 else 1) + (if inode_bitmap_block b =? 1 then 0 else 1) +
  (if data_bitmap_block b =? 2 then 0 else 1) + (if inode_table_start b =? 3 then 0 else 1) +
  (if data_block_start b =? 8 then 0 else 1) + (if inode_size b =? INODE_SIZE then 0 else 1) +
  (if inode_count b =? INODE_COUNT then 0 else 1).

Definition indirect_write (w : write_op) : bool :=
  match w with WIndirect _ => true | _ => false end.

(** What every loop of [fix_errors] keeps: the superblock, the reference map,
    the error count and the output; it may raise the fixed count and write
    indirect blocks. *)
Definition fix_frame (s s' : state) : Prop :=
  superblock s' = superblock s /\ block_referenced s' = block_referenced s /\
  block_referenced_by s' = block_referenced_by s /\ errors_found s' = errors_found s /\
  output s' = output s /\ errors_fixed s <= errors_fixed s' /\
  exists ws, writes s' = writes s ++ ws /\ forallb indirect_write ws = true.

(** A block pointer [fix_errors] leaves alone: 0 or inside the image from
    the first data block on. *)
Definition block_ok (v : Z) : Prop := v = 0 \/ 8 <= v < TOTAL_BLOCKS.

(** Every pointer of an inode, the entries of its single-indirect block
    included, is left alone by [fix_errors]. *)
Definition inode_clean (img : Z -> Z -> Z) (ino : inode_t) : Prop :=
  (forall j, 0 <= j < 12 -> block_ok (znth 0 (direct_blocks ino) j)) /\
  block_ok (indirect_block ino) /\
  (indirect_block ino <> 0 -> forall j, 0 <= j < ENTRIES_PER_BLOCK ->
     block_ok (img (block_offset (indirect_block ino) / BLOCK_SIZE) j)).

(** The superblock has the expected values and every valid inode is clean. *)
Definition repaired (s : state) : Prop :=
  superblock s = good_superblock /\
  forall i, 0 <= i < INODE_COUNT -> is_valid_inode (inode_at s i) = true ->
    inode_clean (image s) (inode_at s i).

(** Inode-bitmap bit [i] is set exactly when inode [i] is valid. *)
Definition bitmap_matches (s : state) : Prop :=
  forall i, 0 <= i < INODE_COUNT ->
    get_bit (inode_bitmap s) i = Z.b2z (is_valid_inode (inode_at s i)).

(** What a validator loop has done since state [s0]: it printed the lines
    [l], counted one error per line, and its result flag is still [true]
    exactly when it printed nothing. *)
Definition tally (s0 : state) (acc : bool * state) : Prop :=
  exists l, output (snd acc) = output s0 ++ l /\
    errors_found (snd acc) = errors_found s0 + Z.of_nat (length l) /\
    (fst acc = true <-> l = []).

(** Inode [b] is inode [a] with some block pointers set to 0: every other
    field is equal, each direct pointer is kept or zeroed, and so is the
    single-indirect pointer. *)
Definition pointer_repair (a b : inode_t) : Prop :=
  mode b = mode a /\ uid b = uid a /\ gid b = gid a /\ size b = size a /\
  atime b = atime a /\ ctime b = ctime a /\ mtime b = mtime a /\ dtime b = dtime a /\
  nlink b = nlink a /\ blocks b = blocks a /\
  double_indirect b = double_indirect a /\ triple_indirect b = triple_indirect a /\
  length (direct_blocks b) = length (direct_blocks a) /\
  (forall j, znth 0 (direct_blocks b) j = znth 0 (direct_blocks a) j \/
             znth 0 (direct_blocks b) j = 0) /\
  (indirect_block b = indirect_block a \/ indirect_block b = 0).

(** The reference map of [s] was built from the inodes of [s0]: a marked
    block is below [TOTAL_BLOCKS] and names a valid inode of [s0]; an unmarked
    block has owner [-1]. *)
Definition refs_owned (s0 s : state) : Prop :=
  inodes s = inodes s0 /\
  forall b, (block_referenced s b = true ->
               b < TOTAL_BLOCKS /\ 0 <= block_referenced_by s b < INODE_COUNT /\
               is_valid_inode (inode_at s0 (block_referenced_by s b)) = true) /\
            (block_referenced s b = false -> block_referenced_by s b = -1).

(** The single-indirect block of inode [i] is one the bad-block fix cleans
    and writes back: the inode is valid, its indirect pointer lies in
    [8, 64), and the block holds an entry that is neither 0 nor in [8, 64). *)
Definition indirect_dirty (s : state) (i : Z) : Prop :=
  is_valid_inode (inode_at s i) = true /\
  8 <= indirect_block (inode_at s i) < TOTAL_BLOCKS /\
  exists v, In v (read_block (image s) (indirect_block (inode_at s i))) /\ ~ block_ok v.

(** What the bad-block loop of [fix_errors], started from [s] after the
    superblock fix, has done after the inodes [0 .. n-1]: the inodes from [n]
    on are untouched, the writes issued so far are indirect-block writes of
    dirty inodes, one for each dirty inode below [n], and each block is
    unchanged or written and clean. *)
Definition bad_fold_inv (s : state) (n : Z) (t : state) : Prop :=
  superblock t = good_superblock /\
  (forall k, n <= k < INODE_COUNT -> inode_at t k = inode_at s k) /\
  exists ws, writes t = writes s ++ ws /\
    (forall w, In w ws -> exists i, 0 <= i < INODE_COUNT /\ indirect_dirty s i /\
       w = WIndirect (block_offset (indirect_block (inode_at s i)))) /\
    (forall i, 0 <= i < n -> indirect_dirty s i ->
       In (WIndirect (block_offset (indirect_block (inode_at s i)))) ws) /\
    (forall b, image t b = image s b \/
       (In (WIndirect (block_offset b)) ws /\
        forall j, 0 <= j < ENTRIES_PER_BLOCK -> block_ok (image t b j))).

(** ** The bounds of the C arrays *)

(** [mark_block_referenced(v, i)] stays inside [block_referenced] and
    [block_referenced_by]: either [v] is rejected by the unsigned test
    against [data_block_start], or its [int] value is not negative (the
    signed test rejects 64 and more). *)
Definition mark_in_bounds (s : state) (v : Z) : bool :=
  (v <? data_block_start (superblock s)) || (0 <=? to_int32 v).

(** Every call of [mark_block_referenced] made for inode [ino] by
    [check_data_bitmap_consistency] stays in bounds, and a nonzero indirect
    pointer names a block of the image ([fread] then fills the buffer). *)
Definition inode_in_bounds (s : state) (ino : inode_t) : bool :=
  forallb (fun j => mark_in_bounds s (znth 0 (direct_blocks ino) j)) (zrange 0 12) &&
  ((indirect_block ino =? 0) ||
   (mark_in_bounds s (indirect_block ino) && (indirect_block ino <? TOTAL_BLOCKS) &&
    forallb (mark_in_bounds s) (read_block (image s) (indirect_block ino)))).

(** [check_data_bitmap_consistency] stays in bounds: its bit loop starts at a
    nonnegative index and the walk of every valid inode does. *)
Definition marks_in_bounds (s : state) : bool :=
  (0 <=? to_int32 (data_block_start (superblock s))) &&
  forallb (fun i => negb (is_valid_inode (inode_at s i)) || inode_in_bounds s (inode_at s i))
    (zrange 0 INODE_COUNT).

(** [check_duplicate_blocks] stays in bounds: its report loop starts at a
    nonnegative index and no block gets more than [INODE_COUNT] claims, the
    width of a row of [block_references]. *)
Definition claims_in_bounds (s : state) : bool :=
  (0 <=? to_int32 (data_block_start (superblock s))) &&
  forallb (fun b => Z.of_nat (length (duplicate_refs s b)) <=? INODE_COUNT) (zrange 0 TOTAL_BLOCKS).

(** The validators run on [s] stay inside the C arrays. *)
Definition in_bounds (s : state) : bool := marks_in_bounds s && claims_in_bounds s.

(** * Proofs *)

(** ** C6: superblock validator *)

Lemma sb_tests_fold (l : list (bool * message)) (acc : bool * state) :
  let r := fold_left (fun (acc : bool * state) (cm : bool * message) => sb_test (fst cm) (snd cm) acc) l acc in
  output (snd r) = output (snd acc) ++ flat_map (fun cm : bool * message => if fst cm then [snd cm] else []) l /\
  errors_found (snd r) = errors_found (snd acc) +
    Z.of_nat (length (flat_map (fun cm : bool * message => if fst cm then [snd cm] else []) l)) /\
  fst r = fst acc && Nat.eqb (length (flat_map (fun cm : bool * message => if fst cm then [snd cm] else []) l)) 0.
Proof.
  revert acc; induction l as [|[c m] l IH]; intros [ok s0]; simpl.
  - rewrite app_nil_r, andb_true_r. split; [reflexivity|]. split; [lia|reflexivity].
  - destruct (IH (sb_test c m (ok, s0))) as (H1 & H2 & H3). simpl in H1, H2, H3.
    rewrite H1, H2, H3. destruct c; simpl.
    + rewrite <- app_assoc, andb_false_r. split; [reflexivity|]. split; [lia|reflexivity].
    + split; [reflexivity|]. split; [lia|reflexivity].
Qed.

(** What [check_superblock] prints, counts and returns. *)
Lemma check_superblock_spec (s : state) :
  output (snd (check_superblock s)) = output s ++ spec_superblock_findings (superblock s) /\
  errors_found (snd (check_superblock s)) =
    errors_found s + Z.of_nat (length (spec_superblock_findings (superblock s))) /\
  fst (check_superblock s) = Nat.eqb (length (spec_superblock_findings (superblock s))) 0 /\
  (inode_count (superblock s) = 0 ->
     forall v, ~ In (EInodeCount v) (spec_superblock_findings (superblock s))).
Proof.
  destruct (superblock s) as [m bs tb ib db it ds isz ic] eqn:Hb.
  assert (Hfold : check_superblock s =
    fold_left (fun (acc : bool * state) (cm : bool * message) => sb_test (fst cm) (snd cm) acc)
      [(negb (m =? 0xD34D), EMagic m); (negb (bs =? 4096), EBlockSize bs);
       (negb (tb =? 64), ETotalBlocks tb); (negb (ib =? 1), EInodeBitmapBlock ib);
       (negb (db =? 2), EDataBitmapBlock db); (negb (it =? 3), EInodeTableStart it);
       (negb (ds =? 8), EDataBlockStart ds); (negb (isz =? 256), EInodeSize isz);
       (negb (ic =? 80) && negb (ic =? 0), EInodeCount ic)] (true, s)).
  { unfold check_superblock. rewrite Hb. reflexivity. }
  assert (Hspec : spec_superblock_findings (mkSuperblock m bs tb ib db it ds isz ic) =
    flat_map (fun cm : bool * message => if fst cm then [snd cm] else [])
      [(negb (m =? 0xD34D), EMagic m); (negb (bs =? 4096), EBlockSize bs);
       (negb (tb =? 64), ETotalBlocks tb); (negb (ib =? 1), EInodeBitmapBlock ib);
       (negb (db =? 2), EDataBitmapBlock db); (negb (it =? 3), EInodeTableStart it);
       (negb (ds =? 8), EDataBlockStart ds); (negb (isz =? 256), EInodeSize isz);
       (negb (ic =? 80) && negb (ic =? 0), EInodeCount ic)]).
  { clear Hfold. unfold spec_superblock_findings; simpl. rewrite <- negb_orb.
    destruct (m =? 0xD34D), (bs =? 4096), (tb =? 64), (ib =? 1), (db =? 2),
      (it =? 3), (ds =? 8), (isz =? 256), ((ic =? 80) || (ic =? 0));
      simpl; reflexivity. }
  rewrite Hfold, Hspec.
  destruct (sb_tests_fold
    [(negb (m =? 0xD34D), EMagic m); (negb (bs =? 4096), EBlockSize bs);
     (negb (tb =? 64), ETotalBlocks tb); (negb (ib =? 1), EInodeBitmapBlock ib);
     (negb (db =? 2), EDataBitmapBlock db); (negb (it =? 3), EInodeTableStart it);
     (negb (ds =? 8), EDataBlockStart ds); (negb (isz =? 256), EInodeSize isz);
     (negb (ic =? 80) && negb (ic =? 0), EInodeCount ic)] (true, s)) as (H1 & H2 & H3).
  split; [exact H1|]. split; [exact H2|]. split; [exact H3|].
  intros Hic v. simpl in Hic. subst ic. rewrite <- Hspec.
  unfold spec_superblock_findings. simpl. rewrite app_nil_r, !in_app_iff.
  destruct (m =? 0xD34D), (bs =? 4096), (tb =? 64), (ib =? 1), (db =? 2),
    (it =? 3), (ds =? 8), (isz =? 256); simpl; intuition discriminate.
Qed.

(** C6: [check_superblock] compares the nine fields with the supported
    geometry, reports every mismatching field in field order without stopping
    at the first, counts one error per reported field, and reports nothing
    for an inode count of 0. *)
Theorem check_superblock_reports_each_field (s : state) :
  output (snd (check_superblock s)) = output s ++ spec_superblock_findings (superblock s) /\
  errors_found (snd (check_superblock s)) =
    errors_found s + Z.of_nat (length (spec_superblock_findings (superblock s))) /\
  fst (check_superblock s) = Nat.eqb (length (spec_superblock_findings (superblock s))) 0 /\
  (inode_count (superblock s) = 0 ->
     forall v, ~ In (EInodeCount v) (spec_superblock_findings (superblock s))).
Proof. apply check_superblock_spec. Qed.

(** ** Ranges, lists and bits *)

Lemma zrange_nil (a b : Z) : b <= a -> zrange a b = [].
Proof. intros H. unfold zrange. replace (Z.to_nat (b - a)) with O by lia. reflexivity. Qed.

Lemma map_seq_shift (f : nat -> Z) (s m : nat) :
  map f (seq s m) = map (fun k => f (s + k)%nat) (seq 0 m).
Proof.
  revert f s; induction m as [|m IH]; intros f s; [reflexivity|].
  simpl. rewrite Nat.add_0_r. f_equal.
  rewrite IH, (IH _ 1%nat). apply map_ext. intros k. f_equal. lia.
Qed.

Lemma zrange_cons (a b : Z) : a < b -> zrange a b = a :: zrange (a + 1) b.
Proof.
  intros H. unfold zrange.
  replace (Z.to_nat (b - a)) with (S (Z.to_nat (b - (a + 1)))) by lia.
  simpl. f_equal; [lia|].
  rewrite map_seq_shift. apply map_ext. intros k. lia.
Qed.

Lemma zrange_app (a b c : Z) : a <= b <= c -> zrange a c = zrange a b ++ zrange b c.
Proof.
  intros H. unfold zrange.
  replace (Z.to_nat (c - a)) with (Z.to_nat (b - a) + Z.to_nat (c - b))%nat by lia.
  rewrite seq_app, map_app. f_equal.
  rewrite map_seq_shift. apply map_ext. intros k. lia.
Qed.

Lemma in_zrange (i a b : Z) : In i (zrange a b) <-> a <= i < b.
Proof.
  unfold zrange. rewrite in_map_iff. split.
  - intros (k & <- & Hk). apply in_seq in Hk. lia.
  - intros H. exists (Z.to_nat (i - a)). split; [lia|]. apply in_seq. lia.
Qed.

Lemma replace_nth_length {A} (n : nat) (x : A) (l : list A) :
  length (replace_nth n x l) = length l.
Proof.
  revert n; induction l as [|h t IH]; intros [|n]; simpl; auto.
Qed.

Lemma nth_replace_nth_same {A} (n : nat) (x d : A) (l : list A) :
  (n < length l)%nat -> nth n (replace_nth n x l) d = x.
Proof.
  revert n; induction l as [|h t IH]; intros [|n] H; simpl in *; try lia; auto.
  apply IH. lia.
Qed.

Lemma nth_replace_nth_other {A} (n m : nat) (x d : A) (l : list A) :
  n <> m -> nth m (replace_nth n x l) d = nth m l d.
Proof.
  revert n m; induction l as [|h t IH]; intros [|n] [|m] H; simpl; auto; try lia.
Qed.

Lemma znth_zreplace_same {A} (i : Z) (x d : A) (l : list A) :
  0 <= i -> (Z.to_nat i < length l)%nat -> znth d (zreplace i x l) i = x.
Proof. intros. unfold znth, zreplace. apply nth_replace_nth_same. lia. Qed.

Lemma znth_zreplace_other {A} (i k : Z) (x d : A) (l : list A) :
  0 <= i -> 0 <= k -> i <> k -> znth d (zreplace i x l) k = znth d l k.
Proof. intros. unfold znth, zreplace. apply nth_replace_nth_other. lia. Qed.

Lemma zreplace_length {A} (i : Z) (x : A) (l : list A) :
  length (zreplace i x l) = length l.
Proof. apply replace_nth_length. Qed.

Lemma land_shiftr_1 (x n : Z) : 0 <= n -> Z.land (Z.shiftr x n) 1 = Z.b2z (Z.testbit x n).
Proof.
  intros Hn.
  replace (Z.testbit x n) with (Z.testbit (Z.shiftr x n) 0)
    by (rewrite Z.shiftr_spec by lia; f_equal; lia).
  generalize (Z.shiftr x n) as y; intro y.
  change 1 with (Z.ones 1) at 1. rewrite Z.land_ones by lia.
  rewrite Z.bit0_odd, Zmod_odd. destruct (Z.odd y); reflexivity.
Qed.

Lemma get_bit_testbit (bm : list Z) (k : Z) :
  0 <= k -> get_bit bm k = Z.b2z (Z.testbit (znth 0 bm (k / 8)) (k mod 8)).
Proof. intros. unfold get_bit. apply land_shiftr_1. apply Z.mod_pos_bound. lia. Qed.

Lemma get_bit_set_bit (bm : list Z) (k m : Z) :
  0 <= k -> 0 <= m -> (Z.to_nat (k / 8) < length bm)%nat ->
  get_bit (set_bit bm k) m = if k =? m then 1 else get_bit bm m.
Proof.
  intros Hk Hm Hlen. rewrite !get_bit_testbit by lia. unfold set_bit.
  assert (Hk8 : 0 <= k / 8) by (apply Z.div_pos; lia).
  assert (Hm8 : 0 <= m / 8) by (apply Z.div_pos; lia).
  assert (Hkm : 0 <= k mod 8 < 8) by (apply Z.mod_pos_bound; lia).
  assert (Hmm : 0 <= m mod 8 < 8) by (apply Z.mod_pos_bound; lia).
  destruct (Z.eq_dec (k / 8) (m / 8)) as [Hq|Hq].
  - rewrite <- Hq, znth_zreplace_same by lia.
    rewrite Z.lor_spec, Z.shiftl_1_l, Z.pow2_bits_eqb by lia.
    destruct (Z.eqb_spec k m) as [->|Hne].
    + rewrite Z.eqb_refl, orb_true_r. reflexivity.
    + replace (k mod 8 =? m mod 8) with false.
      * rewrite orb_false_r. rewrite Hq. reflexivity.
      * symmetry. apply Z.eqb_neq. intros He.
        apply Hne. rewrite (Z.div_mod k 8), (Z.div_mod m 8) by lia. lia.
  - rewrite znth_zreplace_other by lia.
    destruct (Z.eqb_spec k m) as [->|]; [contradiction|reflexivity].
Qed.

Lemma get_bit_clear_bit (bm : list Z) (k m : Z) :
  0 <= k -> 0 <= m -> (Z.to_nat (k / 8) < length bm)%nat ->
  get_bit (clear_bit bm k) m = if k =? m then 0 else get_bit bm m.
Proof.
  intros Hk Hm Hlen. rewrite !get_bit_testbit by lia. unfold clear_bit.
  assert (Hk8 : 0 <= k / 8) by (apply Z.div_pos; lia).
  assert (Hm8 : 0 <= m / 8) by (apply Z.div_pos; lia).
  assert (Hkm : 0 <= k mod 8 < 8) by (apply Z.mod_pos_bound; lia).
  assert (Hmm : 0 <= m mod 8 < 8) by (apply Z.mod_pos_bound; lia).
  destruct (Z.eq_dec (k / 8) (m / 8)) as [Hq|Hq].
  - rewrite <- Hq, znth_zreplace_same by lia.
    rewrite Z.land_spec, Z.lnot_spec, Z.shiftl_1_l, Z.pow2_bits_eqb by lia.
    destruct (Z.eqb_spec k m) as [->|Hne].
    + rewrite Z.eqb_refl, andb_false_r. reflexivity.
    + replace (k mod 8 =? m mod 8) with false.
      * rewrite andb_true_r. rewrite Hq. reflexivity.
      * symmetry. apply Z.eqb_neq. intros He.
        apply Hne. rewrite (Z.div_mod k 8), (Z.div_mod m 8) by lia. lia.
  - rewrite znth_zreplace_other by lia.
    destruct (Z.eqb_spec k m) as [->|]; [contradiction|reflexivity].
Qed.

Lemma set_bit_length (bm : list Z) (k : Z) : length (set_bit bm k) = length bm.
Proof. apply zreplace_length. Qed.

Lemma clear_bit_length (bm : list Z) (k : Z) : length (clear_bit bm k) = length bm.
Proof. apply zreplace_length. Qed.

(** ** Validators only append diagnostics *)

Lemma reports_fields (ms : list message) (s : state) :
  superblock (reports ms s) = superblock s /\ inode_bitmap (reports ms s) = inode_bitmap s /\
  data_bitmap (reports ms s) = data_bitmap s /\ inodes (reports ms s) = inodes s /\
  image (reports ms s) = image s /\
  block_referenced (reports ms s) = block_referenced s /\
  block_referenced_by (reports ms s) = block_referenced_by s /\
  errors_fixed (reports ms s) = errors_fixed s /\ writes (reports ms s) = writes s /\
  output (reports ms s) = output s ++ ms /\
  errors_found (reports ms s) = errors_found s + Z.of_nat (length ms).
Proof.
  unfold reports. revert s; induction ms as [|m ms IH]; intros s; simpl.
  - rewrite app_nil_r. repeat split; lia.
  - destruct (IH (report m s)) as (H1 & H2 & H3 & H4 & H5 & H6 & H7 & H8 & H9 & H10 & H11).
    rewrite H1, H2, H3, H4, H5, H6, H7, H8, H9, H10, H11. simpl.
    rewrite <- app_assoc. repeat split; lia.
Qed.

Lemma reports_app (ms1 ms2 : list message) (s : state) :
  reports (ms1 ++ ms2) s = reports ms2 (reports ms1 s).
Proof. unfold reports. apply fold_left_app. Qed.

(** A validator loop whose every iteration prints the findings [f x] and
    counts them, while the data it reads stays as it was ([P]). *)
Lemma fold_reports {A} (step : bool * state -> A -> bool * state)
    (f : A -> list message) (P : state -> Prop) (l : list A) :
  (forall ms s, P s -> P (reports ms s)) ->
  (forall ok s x, In x l -> P s ->
     step (ok, s) x = (ok && Nat.eqb (length (f x)) 0, reports (f x) s)) ->
  forall ok s, P s ->
  fold_left step l (ok, s) = (ok && Nat.eqb (length (flat_map f l)) 0, reports (flat_map f l) s).
Proof.
  intros HP Hstep. induction l as [|x l IH]; intros ok s Hs; simpl.
  - rewrite andb_true_r. reflexivity.
  - rewrite Hstep by (simpl; auto).
    rewrite IH by (intros; try apply Hstep; simpl; auto).
    rewrite reports_app, length_app, <- andb_assoc. f_equal. f_equal.
    destruct (length (f x)), (length (flat_map f l)); reflexivity.
Qed.

(** ** C7: inode-bitmap validator *)

(** C7: for every slot of [0, 80), [check_inode_bitmap_consistency]
    compares the bitmap bit with the validity computed from the inode record
    ([is_valid_inode] reads only the record: [nlink > 0] and [dtime == 0]),
    prints exactly one finding when they disagree ("marked but invalid" when
    the bit is set, "valid but not marked" when it is clear) and none when they
    agree, and counts one error per finding. *)
Theorem check_inode_bitmap_one_finding_per_mismatch (s : state) :
  output (snd (check_inode_bitmap_consistency s)) =
    output s ++ flat_map (spec_inode_slot_finding s) (zrange 0 INODE_COUNT) /\
  errors_found (snd (check_inode_bitmap_consistency s)) =
    errors_found s + Z.of_nat (length (filter (inode_slot_mismatch s) (zrange 0 INODE_COUNT))) /\
  fst (check_inode_bitmap_consistency s) =
    forallb (fun i => negb (inode_slot_mismatch s i)) (zrange 0 INODE_COUNT) /\
  (forall i, length (spec_inode_slot_finding s i) = if inode_slot_mismatch s i then 1%nat else 0%nat) /\
  (forall ino, is_valid_inode ino = (0 <? nlink ino) && (dtime ino =? 0)).
Proof.
  assert (Hlen : forall i, length (spec_inode_slot_finding s i) =
                   if inode_slot_mismatch s i then 1%nat else 0%nat).
  { intros i. unfold spec_inode_slot_finding, inode_slot_mismatch.
    destruct (negb (get_bit (inode_bitmap s) i =? 0)), (is_valid_inode (inode_at s i));
      reflexivity. }
  assert (Hcount : forall l : list Z,
    length (flat_map (spec_inode_slot_finding s) l) = length (filter (inode_slot_mismatch s) l) /\
    Nat.eqb (length (flat_map (spec_inode_slot_finding s) l)) 0 =
      forallb (fun i => negb (inode_slot_mismatch s i)) l).
  { induction l as [|x l [IH1 IH2]]; [split; reflexivity|]. simpl.
    rewrite length_app, Hlen.
    destruct (inode_slot_mismatch s x); simpl.
    - split; [rewrite IH1; reflexivity | reflexivity].
    - split; [exact IH1 | exact IH2]. }
  unfold check_inode_bitmap_consistency.
  rewrite (fold_reports inode_bitmap_step (spec_inode_slot_finding s)
             (fun s' => inode_bitmap s' = inode_bitmap s /\ inodes s' = inodes s)).
  - cbn [fst snd]. destruct (reports_fields (flat_map (spec_inode_slot_finding s) (zrange 0 INODE_COUNT)) s)
      as (_ & _ & _ & _ & _ & _ & _ & _ & _ & Ho & He).
    destruct (Hcount (zrange 0 INODE_COUNT)) as [Hc1 Hc2].
    rewrite Ho, He, andb_true_l, Hc2, Hc1. repeat split; auto.
  - intros ms s' [H1 H2]. destruct (reports_fields ms s') as (_ & Hb & _ & Hi & _).
    rewrite Hb, Hi. auto.
  - intros ok s' i _ [H1 H2]. unfold inode_bitmap_step, spec_inode_slot_finding.
    unfold inode_at. rewrite H1, H2. fold (inode_at s i).
    destruct (get_bit (inode_bitmap s) i =? 0), (is_valid_inode (inode_at s i));
      simpl; rewrite ?andb_false_r, ?andb_true_r; reflexivity.
  - auto.
Qed.

(** ** C4: duplicate-block validator *)

Lemma fold_dup_record (i : Z) (vs : list Z) (r : Z -> list Z) (b : Z) :
  fold_left (dup_record i) vs r b =
    r b ++ repeat i (count_occ Z.eq_dec (filter recorded vs) b).
Proof.
  revert r; induction vs as [|v vs IH]; intros r; simpl.
  - rewrite app_nil_r. reflexivity.
  - rewrite IH. unfold dup_record, recorded.
    destruct (negb (v =? 0) && (v <? TOTAL_BLOCKS)); simpl.
    + unfold add_ref. destruct (Z.eq_dec v b) as [->|Hne].
      * rewrite Z.eqb_refl, <- app_assoc. reflexivity.
      * replace (b =? v) with false by (symmetry; apply Z.eqb_neq; congruence).
        reflexivity.
    + reflexivity.
Qed.

Lemma fold_left_map_index {A B C} (f : A -> B -> A) (g : C -> B) (l : list C) (a : A) :
  fold_left (fun x y => f x (g y)) l a = fold_left f (map g l) a.
Proof. revert a; induction l; simpl; auto. Qed.

Lemma dup_inode_refs_spec (s : state) (r : Z -> list Z) (i b : Z) :
  dup_inode_refs s r i b =
    r b ++ (if is_valid_inode (inode_at s i)
            then repeat i (count_occ Z.eq_dec (claim_walk (image s) (inode_at s i)) b)
            else []).
Proof.
  unfold dup_inode_refs, claim_walk.
  destruct (is_valid_inode (inode_at s i)); [|rewrite app_nil_r; reflexivity].
  set (ino := inode_at s i).
  rewrite (fold_left_map_index (dup_record i) (znth 0 (direct_blocks ino))).
  change (negb (indirect_block ino =? 0) && (indirect_block ino <? TOTAL_BLOCKS))
    with (recorded (indirect_block ino)).
  generalize (map (znth 0 (direct_blocks ino)) (zrange 0 12)) as ds.
  generalize (read_block (image s) (indirect_block ino)) as es.
  generalize (indirect_block ino) as ind.
  intros ind es ds.
  rewrite count_occ_app, repeat_app.
  destruct (recorded ind).
  - rewrite fold_dup_record. unfold add_ref. cbn [count_occ].
    destruct (Z.eq_dec ind b) as [<-|Hne].
    + rewrite Z.eqb_refl, fold_dup_record, <- !app_assoc. reflexivity.
    + replace (b =? ind) with false by (symmetry; apply Z.eqb_neq; congruence).
      rewrite fold_dup_record, <- !app_assoc. reflexivity.
  - rewrite fold_dup_record. cbn [count_occ repeat]. rewrite !app_nil_r. reflexivity.
Qed.

Lemma duplicate_refs_claimants (s : state) (b : Z) :
  duplicate_refs s b = claimants s b.
Proof.
  unfold duplicate_refs, claimants.
  assert (Hgen : forall (l : list Z) (r : Z -> list Z),
    fold_left (dup_inode_refs s) l r b =
      r b ++ flat_map (fun i => let ino := inode_at s i in
                        if is_valid_inode ino
                        then repeat i (count_occ Z.eq_dec (claim_walk (image s) ino) b)
                        else []) l).
  { induction l as [|i l IH]; intros r; simpl.
    - rewrite app_nil_r. reflexivity.
    - rewrite IH, dup_inode_refs_spec, <- app_assoc. reflexivity. }
  rewrite Hgen. reflexivity.
Qed.

Lemma check_duplicate_blocks_spec (s : state) :
  output (snd (check_duplicate_blocks s)) = output s ++ spec_duplicate_findings s /\
  errors_found (snd (check_duplicate_blocks s)) =
    errors_found s + Z.of_nat (length (spec_duplicate_findings s)) /\
  fst (check_duplicate_blocks s) = Nat.eqb (length (spec_duplicate_findings s)) 0.
Proof.
  unfold check_duplicate_blocks, spec_duplicate_findings.
  rewrite (fold_reports (dup_report_step (duplicate_refs s))
             (fun b => if 1 <? Z.of_nat (length (claimants s b))
                       then [EDuplicate b (claimants s b)] else [])
             (fun _ => True)); auto.
  - cbn [fst snd].
    destruct (reports_fields (flat_map (fun b => if 1 <? Z.of_nat (length (claimants s b))
                       then [EDuplicate b (claimants s b)] else [])
       (zrange (to_int32 (data_block_start (superblock s))) TOTAL_BLOCKS)) s)
      as (_ & _ & _ & _ & _ & _ & _ & _ & _ & Ho & He).
    rewrite Ho, He, andb_true_l. auto.
  - intros ok s' b _ _. unfold dup_report_step.
    rewrite duplicate_refs_claimants.
    destruct (1 <? Z.of_nat (length (claimants s b))); simpl;
      rewrite ?andb_false_r, ?andb_true_r; reflexivity.
Qed.

(** C4 (as the code does it): [check_duplicate_blocks] records one claim per
    pointer occurrence of each valid inode (nonzero direct pointers below 64;
    when the single-indirect pointer is nonzero and below 64, that pointer and
    the nonzero entries below 64 of its block) and reports, in block order,
    every block of [data_block_start, 64) that has more than one claim,
    listing the claimant inode index once per claim; it counts one error per
    reported block.  A block claimed twice by the same inode is reported.
    This holds when the C matrix holds every claim and the report loop starts
    at a nonnegative index ([claims_in_bounds]). *)
Theorem check_duplicate_blocks_reports_multiclaimed (s : state) :
  claims_in_bounds s = true ->
  output (snd (check_duplicate_blocks s)) = output s ++ spec_duplicate_findings s /\
  errors_found (snd (check_duplicate_blocks s)) =
    errors_found s + Z.of_nat (length (spec_duplicate_findings s)) /\
  fst (check_duplicate_blocks s) = Nat.eqb (length (spec_duplicate_findings s)) 0.
Proof. intros _. apply check_duplicate_blocks_spec. Qed.

(** C4 (counterexample): inode 0 is the only valid inode and names block 10 in
    two direct slots; the validator reports block 10 as referenced by multiple
    inodes, with claimant list [0; 0]. *)
Lemma duplicate_same_inode_twice :
  forallb (fun i => negb (is_valid_inode (inode_at (initial_state img_twice10) i)))
    (zrange 1 INODE_COUNT) = true /\
  output (snd (check_duplicate_blocks (initial_state img_twice10))) = [EDuplicate 10 [0; 0]].
Proof. split; vm_compute; reflexivity. Qed.

(** ** The repair engine: what each loop of [fix_errors] changes *)

Lemma fold_inv {A B} (f : A -> B -> A) (P : A -> Prop) (l : list B) (a : A) :
  (forall a x, In x l -> P a -> P (f a x)) -> P a -> P (fold_left f l a).
Proof.
  revert a; induction l as [|x l IH]; intros a Hf Ha; simpl; auto.
  apply IH; [intros; apply Hf; simpl; auto | apply Hf; simpl; auto].
Qed.

Lemma fold_left_cons {A B} (f : A -> B -> A) (x : B) (l : list B) (a : A) :
  fold_left f (x :: l) a = fold_left f l (f a x).
Proof. reflexivity. Qed.

Lemma fix_frame_refl (s : state) : fix_frame s s.
Proof. repeat split; try lia. exists []. rewrite app_nil_r. auto. Qed.

Lemma fix_frame_trans (s1 s2 s3 : state) : fix_frame s1 s2 -> fix_frame s2 s3 -> fix_frame s1 s3.
Proof.
  intros (A1 & B1 & C1 & D1 & E1 & F1 & ws1 & G1 & H1)
         (A2 & B2 & C2 & D2 & E2 & F2 & ws2 & G2 & H2).
  repeat split; try congruence; try lia.
  exists (ws1 ++ ws2). rewrite G2, G1, app_assoc. split; [reflexivity|].
  rewrite forallb_app, H1, H2. reflexivity.
Qed.

Ltac destruct_ifs :=
  repeat match goal with |- context [if ?c then _ else _] => destruct c end.

Ltac frame_tac :=
  unfold fix_frame; cbn [superblock inode_bitmap data_bitmap inodes image block_referenced
    block_referenced_by errors_found errors_fixed output writes count_fixed set_counters
    set_inode set_inodes set_inode_bitmap set_data_bitmap set_image log_write];
  repeat split; try reflexivity; try lia;
  try (exists []; rewrite app_nil_r; split; reflexivity).

Lemma fix_field_eq (get : superblock_t -> Z) (put : superblock_t -> Z -> superblock_t)
    (c : Z) (s : state) :
  (forall b, put b (get b) = b) ->
  fix_field get put c s =
    mkState (put (superblock s) c) (inode_bitmap s) (data_bitmap s) (inodes s) (image s)
      (block_referenced s) (block_referenced_by s) (errors_found s)
      (errors_fixed s + if get (superblock s) =? c then 0 else 1) (output s) (writes s).
Proof.
  intros Hput. unfold fix_field.
  destruct (Z.eqb_spec (get (superblock s)) c) as [<-|Hne]; cbn.
  - rewrite Hput, Z.add_0_r. destruct s; reflexivity.
  - reflexivity.
Qed.

Lemma fix_superblock_eq (s : state) :
  fix_superblock s =
    mkState good_superblock (inode_bitmap s) (data_bitmap s) (inodes s) (image s)
      (block_referenced s) (block_referenced_by s) (errors_found s)
      (errors_fixed s + sb_fix_count (superblock s)) (output s) (writes s).
Proof.
  unfold fix_superblock. cbv zeta.
  repeat (rewrite fix_field_eq; [cbn [superblock inode_bitmap data_bitmap inodes image
    block_referenced block_referenced_by errors_found errors_fixed output writes]
    | intros []; reflexivity]).
  unfold sb_fix_count. destruct (superblock s) as [m bs tb ib db it ds isz ic]. cbn.
  f_equal. lia.
Qed.

Lemma sb_fix_count_zero (b : superblock_t) :
  inode_count b = 0 -> sb_fix_count b = Z.of_nat (length (spec_superblock_findings b)) + 1.
Proof.
  destruct b as [m bs tb ib db it ds isz ic]; cbn; intros ->.
  unfold sb_fix_count, spec_superblock_findings, MAGIC_NUMBER, BLOCK_SIZE, TOTAL_BLOCKS,
    INODE_SIZE, INODE_COUNT; cbn.
  destruct (m =? 54093), (bs =? 4096), (tb =? 64), (ib =? 1), (db =? 2),
    (it =? 3), (ds =? 8), (isz =? 256); reflexivity.
Qed.

Lemma fix_inode_bitmap_step_frame (s : state) (i : Z) :
  fix_frame s (fix_inode_bitmap_step s i) /\
  data_bitmap (fix_inode_bitmap_step s i) = data_bitmap s /\
  inodes (fix_inode_bitmap_step s i) = inodes s /\ image (fix_inode_bitmap_step s i) = image s.
Proof. unfold fix_inode_bitmap_step. destruct_ifs; frame_tac. Qed.

Lemma fix_data_bitmap_step_frame (s : state) (i : Z) :
  fix_frame s (fix_data_bitmap_step s i) /\
  inode_bitmap (fix_data_bitmap_step s i) = inode_bitmap s /\
  inodes (fix_data_bitmap_step s i) = inodes s /\ image (fix_data_bitmap_step s i) = image s.
Proof. unfold fix_data_bitmap_step. destruct_ifs; frame_tac. Qed.

Lemma fix_direct_step_frame (i : Z) (s : state) (j : Z) :
  fix_frame s (fix_direct_step i s j) /\
  inode_bitmap (fix_direct_step i s j) = inode_bitmap s /\
  data_bitmap (fix_direct_step i s j) = data_bitmap s /\
  image (fix_direct_step i s j) = image s.
Proof. unfold fix_direct_step. destruct_ifs; frame_tac. Qed.

(** The entry loop of the indirect-block fix only counts, zeroes bad entries
    and leaves every other entry as it was. *)
Lemma fix_entries_fold (l : list Z) (es : list Z) (m : bool) (s : state) :
  let r := fold_left fix_entry_step l (es, m, s) in
  snd r = set_counters s (errors_found s) (errors_fixed (snd r)) /\
  errors_fixed s <= errors_fixed (snd r) /\
  length (fst (fst r)) = length es /\
  (forall k, znth 0 (fst (fst r)) k = znth 0 es k \/ znth 0 (fst (fst r)) k = 0) /\
  (forall j, In j l -> 0 <= j ->
     negb (znth 0 (fst (fst r)) j =? 0) && out_of_range s (znth 0 (fst (fst r)) j) = false) /\
  (forallb (fun j => negb (negb (znth 0 es j =? 0) && out_of_range s (znth 0 es j))) l = true ->
     r = (es, m, s)).
Proof.
  revert es m s; induction l as [|a l IH]; intros es m s; cbn [fold_left].
  - cbn. destruct s; repeat split; try lia; auto; intros; contradiction.
  - change (fix_entry_step (es, m, s) a) with
      (if negb (znth 0 es a =? 0) && out_of_range s (znth 0 es a)
       then (zreplace a 0 es, true, count_fixed s) else (es, m, s)).
    destruct (negb (znth 0 es a =? 0) && out_of_range s (znth 0 es a)) eqn:Hbad;
      cbv beta iota.
    + destruct (IH (zreplace a 0 es) true (count_fixed s)) as (H1 & H2 & H3 & H4 & H5 & _).
      set (r := fold_left fix_entry_step l (zreplace a 0 es, true, count_fixed s)) in *.
      assert (Hor : forall v, out_of_range (count_fixed s) v = out_of_range s v) by reflexivity.
      setoid_rewrite Hor in H5.
      split; [rewrite H1; reflexivity|]. split; [cbn in H2; lia|].
      split; [rewrite H3, zreplace_length; reflexivity|].
      split.
      { intros k. destruct (H4 k) as [Hk|Hk]; [|auto].
        rewrite Hk. unfold znth, zreplace.
        destruct (Nat.eq_dec (Z.to_nat a) (Z.to_nat k)) as [Heq|Hne].
        - right. rewrite <- Heq.
          destruct (Nat.lt_ge_cases (Z.to_nat a) (length es)).
          + apply nth_replace_nth_same. auto.
          + rewrite nth_overflow; [reflexivity|]. rewrite replace_nth_length. auto.
        - left. apply nth_replace_nth_other. auto. }
      split.
      { intros j [<-|Hj] Hj0; [|apply H5; auto].
        destruct (H4 a) as [Hk|Hk]; rewrite Hk; [|reflexivity].
        unfold znth, zreplace.
        destruct (Nat.lt_ge_cases (Z.to_nat a) (length es)).
        - rewrite nth_replace_nth_same by auto. reflexivity.
        - rewrite nth_overflow; [reflexivity|]. rewrite replace_nth_length. auto. }
      cbn [forallb]. rewrite Hbad. discriminate.
    + destruct (IH es m s) as (H1 & H2 & H3 & H4 & H5 & H6).
      repeat split; auto.
      * intros j [<-|Hj] Hj0; [|apply H5; auto].
        destruct (H4 a) as [Hk|Hk]; rewrite Hk; [exact Hbad|reflexivity].
      * cbn [forallb]. rewrite Hbad. cbn. exact H6.
Qed.

Lemma fix_indirect_frame (s : state) (i : Z) :
  fix_frame s (fix_indirect s i) /\
  inode_bitmap (fix_indirect s i) = inode_bitmap s /\
  data_bitmap (fix_indirect s i) = data_bitmap s.
Proof.
  unfold fix_indirect.
  destruct (negb (indirect_block (inode_at s i) =? 0)); [|split; [apply fix_frame_refl|auto]].
  destruct (out_of_range s (indirect_block (inode_at s i))); [frame_tac|].
  generalize (read_block (image s) (indirect_block (inode_at s i))) as es. intros es.
  generalize (indirect_block (inode_at s i)) as ind. intros ind.
  destruct (fix_entries_fold (zrange 0 ENTRIES_PER_BLOCK) es false s) as (H1 & H2 & _).
  destruct (fold_left fix_entry_step (zrange 0 ENTRIES_PER_BLOCK) (es, false, s))
    as [[es' m'] s'].
  cbn [fst snd] in H1, H2. rewrite H1 in *. cbn [errors_fixed set_counters] in H2.
  destruct m'.
  - frame_tac. exists [WIndirect (block_offset ind)]. split; reflexivity.
  - frame_tac.
Qed.

Lemma fix_bad_step_frame (s : state) (i : Z) :
  fix_frame s (fix_bad_step s i) /\
  inode_bitmap (fix_bad_step s i) = inode_bitmap s /\
  data_bitmap (fix_bad_step s i) = data_bitmap s.
Proof.
  unfold fix_bad_step. destruct (is_valid_inode (inode_at s i)); [|split; [apply fix_frame_refl|auto]].
  pose proof (fold_inv (fix_direct_step i)
    (fun s' => fix_frame s s' /\ inode_bitmap s' = inode_bitmap s /\ data_bitmap s' = data_bitmap s)
    (zrange 0 12) s) as Hd.
  destruct Hd as (Hf & Hi & Hdb).
  - intros s' j _ (Hf & Hi & Hdb).
    destruct (fix_direct_step_frame i s' j) as (Hf' & Hi' & Hdb' & _).
    split; [eapply fix_frame_trans; eauto|]. split; congruence.
  - split; [apply fix_frame_refl|auto].
  - destruct (fix_indirect_frame (fold_left (fix_direct_step i) (zrange 0 12) s) i)
      as (Hf' & Hi' & Hdb').
    split; [eapply fix_frame_trans; eauto|]. split; congruence.
Qed.

(** [fix_errors] up to the final writes. *)
Lemma fix_loops_frame (s : state) :
  let s1 := fix_superblock s in
  let s2 := fold_left fix_inode_bitmap_step (zrange 0 INODE_COUNT) s1 in
  let s3 := fold_left fix_data_bitmap_step
              (zrange (to_int32 (data_block_start (superblock s2))) TOTAL_BLOCKS) s2 in
  let s4 := fold_left fix_bad_step (zrange 0 INODE_COUNT) s3 in
  fix_frame s1 s2 /\ data_bitmap s2 = data_bitmap s1 /\ inodes s2 = inodes s1 /\
  image s2 = image s1 /\
  fix_frame s2 s3 /\ inode_bitmap s3 = inode_bitmap s2 /\ inodes s3 = inodes s2 /\
  image s3 = image s2 /\
  fix_frame s3 s4 /\ inode_bitmap s4 = inode_bitmap s3 /\ data_bitmap s4 = data_bitmap s3.
Proof.
  intros s1 s2 s3 s4.
  assert (H2 : fix_frame s1 s2 /\ data_bitmap s2 = data_bitmap s1 /\ inodes s2 = inodes s1 /\
               image s2 = image s1).
  { apply (fold_inv fix_inode_bitmap_step (fun s' => fix_frame s1 s' /\ data_bitmap s' = data_bitmap s1 /\
             inodes s' = inodes s1 /\ image s' = image s1)); [|split; [apply fix_frame_refl|auto]].
    intros s' i _ (Hf & Hd & Hn & Hm).
    destruct (fix_inode_bitmap_step_frame s' i) as (Hf' & Hd' & Hn' & Hm').
    split; [eapply fix_frame_trans; eauto|]. repeat split; congruence. }
  assert (H3 : fix_frame s2 s3 /\ inode_bitmap s3 = inode_bitmap s2 /\ inodes s3 = inodes s2 /\
               image s3 = image s2).
  { apply (fold_inv fix_data_bitmap_step (fun s' => fix_frame s2 s' /\ inode_bitmap s' = inode_bitmap s2 /\
             inodes s' = inodes s2 /\ image s' = image s2)); [|split; [apply fix_frame_refl|auto]].
    intros s' i _ (Hf & Hd & Hn & Hm).
    destruct (fix_data_bitmap_step_frame s' i) as (Hf' & Hd' & Hn' & Hm').
    split; [eapply fix_frame_trans; eauto|]. repeat split; congruence. }
  assert (H4 : fix_frame s3 s4 /\ inode_bitmap s4 = inode_bitmap s3 /\
               data_bitmap s4 = data_bitmap s3).
  { apply (fold_inv fix_bad_step (fun s' => fix_frame s3 s' /\ inode_bitmap s' = inode_bitmap s3 /\
             data_bitmap s' = data_bitmap s3)); [|split; [apply fix_frame_refl|auto]].
    intros s' i _ (Hf & Hd & Hn).
    destruct (fix_bad_step_frame s' i) as (Hf' & Hd' & Hn').
    split; [eapply fix_frame_trans; eauto|]. repeat split; congruence. }
  tauto.
Qed.

Lemma write_inodes_fold (l : list Z) (s : state) :
  let s' := fold_left (fun s i => log_write (WInode i (inode_offset s i)) s) l s in
  writes s' = writes s ++ map (fun i => WInode i (inode_offset s i)) l /\
  superblock s' = superblock s /\ inode_bitmap s' = inode_bitmap s /\
  data_bitmap s' = data_bitmap s /\ inodes s' = inodes s /\ image s' = image s /\
  block_referenced s' = block_referenced s /\ block_referenced_by s' = block_referenced_by s /\
  errors_found s' = errors_found s /\ errors_fixed s' = errors_fixed s /\ output s' = output s.
Proof.
  revert s; induction l as [|i l IH]; intros s; cbn [fold_left map].
  - rewrite app_nil_r. repeat split.
  - destruct (IH (log_write (WInode i (inode_offset s i)) s))
      as (H1 & H2 & H3 & H4 & H5 & H6 & H7 & H8 & H9 & H10 & H11).
    rewrite H1, H2, H3, H4, H5, H6, H7, H8, H9, H10, H11. cbn.
    rewrite <- app_assoc. repeat split.
Qed.

(** [fix_errors] ends with the three write functions, which only log. *)
Lemma fix_errors_tail (s : state) :
  let s' := write_inodes (write_bitmaps (write_superblock s)) in
  writes s' = writes s ++ [WSuperblock 0;
    WInodeBitmap (block_offset (inode_bitmap_block (superblock s)));
    WDataBitmap (block_offset (data_bitmap_block (superblock s)))] ++
    map (fun i => WInode i (inode_offset s i)) (zrange 0 INODE_COUNT) /\
  superblock s' = superblock s /\ inode_bitmap s' = inode_bitmap s /\
  data_bitmap s' = data_bitmap s /\ inodes s' = inodes s /\ image s' = image s /\
  block_referenced s' = block_referenced s /\ block_referenced_by s' = block_referenced_by s /\
  errors_found s' = errors_found s /\ errors_fixed s' = errors_fixed s /\ output s' = output s.
Proof.
  unfold write_inodes.
  destruct (write_inodes_fold (zrange 0 INODE_COUNT) (write_bitmaps (write_superblock s)))
    as (H1 & H2 & H3 & H4 & H5 & H6 & H7 & H8 & H9 & H10 & H11).
  cbv zeta. rewrite H1, H2, H3, H4, H5, H6, H7, H8, H9, H10, H11.
  cbn -[map zrange inode_offset block_offset]. rewrite <- app_assoc. cbn -[map zrange inode_offset block_offset].
  repeat split. rewrite <- !app_assoc. reflexivity.
Qed.


(** What [fix_errors] as a whole keeps and sets. *)
Lemma fix_errors_frame (s : state) :
  superblock (fix_errors s) = good_superblock /\ output (fix_errors s) = output s /\
  errors_found (fix_errors s) = errors_found s /\
  block_referenced (fix_errors s) = block_referenced s /\
  errors_fixed (fix_superblock s) <= errors_fixed (fix_errors s).
Proof.
  pose proof (fix_loops_frame s) as H. cbv zeta in H.
  unfold fix_errors. cbv zeta.
  set (s1 := fix_superblock s) in *.
  set (s2 := fold_left fix_inode_bitmap_step (zrange 0 INODE_COUNT) s1) in *.
  set (s3 := fold_left fix_data_bitmap_step
               (zrange (to_int32 (data_block_start (superblock s2))) TOTAL_BLOCKS) s2) in *.
  set (s4 := fold_left fix_bad_step (zrange 0 INODE_COUNT) s3) in *.
  destruct H as (F1 & _ & _ & _ & F2 & _ & _ & _ & F3 & _ & _).
  destruct (fix_frame_trans _ _ _ (fix_frame_trans _ _ _ F1 F2) F3)
    as (Hsb & Hr & _ & He & Ho & Hf & _).
  destruct (fix_errors_tail s4) as (_ & Ht1 & _ & _ & _ & _ & Ht2 & _ & Ht3 & Ht4 & Ht5).
  cbv zeta in Ht1, Ht2, Ht3, Ht4, Ht5.
  rewrite Ht1, Ht2, Ht3, Ht4, Ht5, Hsb, Hr, He, Ho.
  split; [unfold s1; rewrite fix_superblock_eq; reflexivity|].
  split; [unfold s1; rewrite fix_superblock_eq; reflexivity|].
  split; [unfold s1; rewrite fix_superblock_eq; reflexivity|].
  split; [unfold s1; rewrite fix_superblock_eq; reflexivity|].
  exact Hf.
Qed.

(** ** C10: an inode count of 0 *)

(** C10: when the superblock's inode count is 0, [check_superblock] prints
    no finding for it (and counts none), but [fix_errors] still sets it to 80
    and counts that as a fix: its superblock step counts one fix more than
    there were superblock findings, and the whole repair at least as many. *)
Theorem inode_count_zero_reset_and_counted (s : state) (Hic : inode_count (superblock s) = 0) :
  (exists l, output (snd (check_superblock s)) = output s ++ l /\
     forall v, ~ In (EInodeCount v) l) /\
  errors_found (snd (check_superblock s)) =
    errors_found s + Z.of_nat (length (spec_superblock_findings (superblock s))) /\
  inode_count (superblock (fix_errors s)) = INODE_COUNT /\
  errors_fixed (fix_superblock s) =
    errors_fixed s + (errors_found (snd (check_superblock s)) - errors_found s) + 1 /\
  errors_fixed s + (errors_found (snd (check_superblock s)) - errors_found s) + 1 <=
    errors_fixed (fix_errors s).
Proof.
  destruct (check_superblock_spec s) as (Ho & He & _ & Hnone).
  destruct (fix_errors_frame s) as (Hsb & _ & _ & _ & Hfx).
  assert (Hc : errors_fixed (fix_superblock s) =
                 errors_fixed s + Z.of_nat (length (spec_superblock_findings (superblock s))) + 1).
  { rewrite fix_superblock_eq. cbn [errors_fixed]. rewrite sb_fix_count_zero by exact Hic. lia. }
  split; [exists (spec_superblock_findings (superblock s)); split; [exact Ho | apply Hnone, Hic]|].
  split; [exact He|].
  split; [rewrite Hsb; reflexivity|].
  rewrite He. split; lia.
Qed.

(** C10 (witness): the superblock of [img_count0] has inode count 0 and the
    only finding is the free inode 0 marked in the bitmap; the run reports
    one error found and two fixed. *)
Lemma inode_count_zero_reset_and_counted_witness :
  let s := snd (run_checks (initial_state img_count0)) in
  inode_count (superblock s) = 0 /\
  ((exists l, output (snd (check_superblock s)) = output s ++ l /\
     forall v, ~ In (EInodeCount v) l) /\
  errors_found (snd (check_superblock s)) =
    errors_found s + Z.of_nat (length (spec_superblock_findings (superblock s))) /\
  inode_count (superblock (fix_errors s)) = INODE_COUNT /\
  errors_fixed (fix_superblock s) =
    errors_fixed s + (errors_found (snd (check_superblock s)) - errors_found s) + 1 /\
  errors_fixed s + (errors_found (snd (check_superblock s)) - errors_found s) + 1 <=
    errors_fixed (fix_errors s)) /\
  output (check_and_repair (initial_state img_count0)) =
    [MChecking; EInodeMarkedInvalid 0; MSummary [true; false; true; true; true];
     MTotalErrors 1; MAttempting; MErrorsFixed 2; MRechecking;
     MRecheckSummary [true; true; true; true; true]; MOriginalRemaining 1 0; MAllFixed].
Proof.
  intros s.
  assert (H : inode_count (superblock s) = 0) by (vm_compute; reflexivity).
  split; [exact H|]. split.
  - apply (inode_count_zero_reset_and_counted s H).
  - vm_compute. reflexivity.
Defined.

(** ** C2: the data-bitmap fix and the reference map *)

Lemma get_bit_01 (bm : list Z) (k : Z) : 0 <= k -> get_bit bm k = 0 \/ get_bit bm k = 1.
Proof.
  intros Hk. rewrite get_bit_testbit by exact Hk.
  destruct (Z.testbit (znth 0 bm (k / 8)) (k mod 8)); auto.
Qed.

Lemma fix_data_bitmap_step_bit (s : state) (i m : Z) :
  to_int32 (data_block_start (superblock s)) = 8 -> 8 <= i < 64 -> 0 <= m ->
  (7 <= length (data_bitmap s))%nat ->
  get_bit (data_bitmap (fix_data_bitmap_step s i)) m =
    (if m =? i - 8 then Z.b2z (block_referenced s i) else get_bit (data_bitmap s) m) /\
  length (data_bitmap (fix_data_bitmap_step s i)) = length (data_bitmap s).
Proof.
  intros Hd Hi Hm Hlen. unfold fix_data_bitmap_step. rewrite Hd.
  assert (Hq : (Z.to_nat ((i - 8) / 8) < length (data_bitmap s))%nat).
  { assert (0 <= (i - 8) / 8 < 7) by (split; [apply Z.div_pos | apply Z.div_lt_upper_bound]; lia).
    lia. }
  destruct (get_bit_01 (data_bitmap s) (i - 8)) as [Hb|Hb]; [lia| |];
    rewrite Hb; destruct (block_referenced s i); cbn.
  - rewrite get_bit_set_bit by lia. rewrite Z.eqb_sym, set_bit_length. auto.
  - destruct (Z.eqb_spec m (i - 8)) as [->|]; [rewrite Hb|]; auto.
  - destruct (Z.eqb_spec m (i - 8)) as [->|]; [rewrite Hb|]; auto.
  - rewrite get_bit_clear_bit by lia. rewrite Z.eqb_sym, clear_bit_length. auto.
Qed.

Lemma fix_data_bitmap_loop_bits (n : nat) (s : state) (a m : Z) :
  n = Z.to_nat (64 - a) ->
  to_int32 (data_block_start (superblock s)) = 8 -> 8 <= a -> 0 <= m ->
  (7 <= length (data_bitmap s))%nat ->
  get_bit (data_bitmap (fold_left fix_data_bitmap_step (zrange a TOTAL_BLOCKS) s)) m =
    if (a - 8 <=? m) && (m <? 56) then Z.b2z (block_referenced s (m + 8))
    else get_bit (data_bitmap s) m.
Proof.
  revert s a; induction n as [|n IH]; intros s a Hn Hd Ha Hm Hlen.
  - rewrite zrange_nil by (unfold TOTAL_BLOCKS; lia). cbn [fold_left].
    replace ((a - 8 <=? m) && (m <? 56)) with false by (symmetry; apply andb_false_iff;
      destruct (Z.leb_spec (a - 8) m); [right; apply Z.ltb_ge|left]; lia || reflexivity).
    reflexivity.
  - rewrite zrange_cons by (unfold TOTAL_BLOCKS; lia). cbn [fold_left].
    destruct (fix_data_bitmap_step_frame s a) as ((Hsb & Hr & _) & _).
    destruct (fix_data_bitmap_step_bit s a m Hd ltac:(lia) Hm Hlen) as [Hbit Hl].
    rewrite (IH (fix_data_bitmap_step s a) (a + 1)); [|lia|rewrite Hsb; exact Hd|lia|lia|lia].
    rewrite Hr, Hbit.
    destruct (Z.eqb_spec m (a - 8)) as [->|Hne].
    + replace (a + 1 - 8 <=? a - 8) with false by (symmetry; apply Z.leb_gt; lia).
      replace (a - 8 <=? a - 8) with true by (symmetry; apply Z.leb_le; lia).
      replace (a - 8 <? 56) with true by (symmetry; apply Z.ltb_lt; lia).
      cbn. f_equal. f_equal. lia.
    + destruct (Z.leb_spec (a + 1 - 8) m), (Z.leb_spec (a - 8) m); try lia; cbn; auto.
Qed.

(** C2 (as the code does it): after [fix_errors], the data-bitmap bit of
    each block [b] of [8, 64) (bit [b - 8]) is set exactly when [b] is marked
    in [block_referenced] as [fix_errors] found it: the map the last
    [check_data_bitmap_consistency] built, with the superblock's
    [data_block_start] and the pointers of before the repair.  The map is not
    rebuilt after the superblock and bad-pointer fixes. *)
Theorem fix_errors_data_bitmap_follows_stale_map (s : state) :
  (7 <= length (data_bitmap s))%nat ->
  forall b, 8 <= b < 64 ->
  get_bit (data_bitmap (fix_errors s)) (b - 8) = Z.b2z (block_referenced s b).
Proof.
  intros Hlen b Hb.
  pose proof (fix_loops_frame s) as H. cbv zeta in H.
  unfold fix_errors. cbv zeta.
  set (s1 := fix_superblock s) in *.
  set (s2 := fold_left fix_inode_bitmap_step (zrange 0 INODE_COUNT) s1) in *.
  set (s4 := fold_left fix_bad_step (zrange 0 INODE_COUNT)
    (fold_left fix_data_bitmap_step
       (zrange (to_int32 (data_block_start (superblock s2))) TOTAL_BLOCKS) s2)) in *.
  destruct H as ((Hsb2 & Hr2 & _) & Hd2 & _ & _ & _ & _ & _ & _ & _ & _ & Hd4).
  destruct (fix_errors_tail s4) as (_ & _ & _ & Ht & _). cbv zeta in Ht.
  rewrite Ht, Hd4.
  assert (Hs1 : superblock s1 = good_superblock /\ data_bitmap s1 = data_bitmap s /\
                block_referenced s1 = block_referenced s)
    by (unfold s1; rewrite fix_superblock_eq; repeat split).
  destruct Hs1 as (Hs1 & Hd1 & Hr1).
  rewrite Hsb2, Hs1. change (to_int32 (data_block_start good_superblock)) with 8.
  rewrite (fix_data_bitmap_loop_bits (Z.to_nat (64 - 8)) s2 8 (b - 8)); try lia.
  - replace (8 - 8 <=? b - 8) with true by (symmetry; apply Z.leb_le; lia).
    replace (b - 8 <? 56) with true by (symmetry; apply Z.ltb_lt; lia).
    cbn [andb]. rewrite Hr2, Hr1. do 2 f_equal. lia.
  - rewrite Hsb2, Hs1. reflexivity.
  - rewrite Hd2, Hd1. exact Hlen.
Qed.

(** C2 (counterexample): the superblock of [img_start9] puts the data region
    at 9 and inode 0 is valid with [direct_blocks[0] = 8].  After one
    validate-then-repair cycle the region starts at 8, inode 0 still names
    block 8, yet the bit of block 8 (bit 0) is clear: the fix used the map
    built with the old region start, where block 8 was not marked. *)
Lemma stale_map_clears_referenced_block :
  let s := repair_cycle (initial_state img_start9) in
  data_block_start (superblock s) = 8 /\ is_valid_inode (inode_at s 0) = true /\
  znth 0 (direct_blocks (inode_at s 0)) 0 = 8 /\ get_bit (data_bitmap s) (8 - 8) = 0.
Proof. vm_compute. repeat split. Qed.

(** C2 (witness): the checked state of [img_start9], block 8. *)
Lemma fix_errors_data_bitmap_follows_stale_map_witness :
  let s := snd (run_checks (initial_state img_start9)) in
  (7 <= length (data_bitmap s))%nat /\ 8 <= 8 < 64 /\
  get_bit (data_bitmap (fix_errors s)) (8 - 8) = Z.b2z (block_referenced s 8).
Proof.
  intros s.
  assert (H : (7 <= length (data_bitmap s))%nat) by (apply Nat.leb_le; vm_compute; reflexivity).
  split; [exact H|]. split; [lia|].
  apply (fix_errors_data_bitmap_follows_stale_map s H 8). lia.
Defined.

(** ** Validators change nothing but the output, the counts and the map *)

Lemma checked_refl (s : state) : checked s s.
Proof. repeat split; try lia. exists []. rewrite app_nil_r. reflexivity. Qed.

Lemma checked_trans (s1 s2 s3 : state) : checked s1 s2 -> checked s2 s3 -> checked s1 s3.
Proof.
  intros (A1 & B1 & C1 & D1 & E1 & F1 & G1 & (l1 & H1) & I1)
         (A2 & B2 & C2 & D2 & E2 & F2 & G2 & (l2 & H2) & I2).
  repeat split; try congruence; try lia.
  exists (l1 ++ l2). rewrite H2, H1, app_assoc. reflexivity.
Qed.

Lemma report_checked (s0 s : state) (m : message) : checked s0 s -> checked s0 (report m s).
Proof.
  intros (A & B & C & D & E & F & G & (l & H) & I).
  repeat split; cbn; auto; try lia. exists (l ++ [m]). rewrite H, app_assoc. reflexivity.
Qed.

Lemma emit_checked (s0 s : state) (m : message) : checked s0 s -> checked s0 (emit m s).
Proof.
  intros (A & B & C & D & E & F & G & (l & H) & I).
  repeat split; cbn; auto; try lia. exists (l ++ [m]). rewrite H, app_assoc. reflexivity.
Qed.

Lemma set_refs_checked (s0 s : state) r rb : checked s0 s -> checked s0 (set_refs s r rb).
Proof. intros (A & B & C & D & E & F & G & H & I). repeat split; auto. Qed.

(** A validator loop whose every iteration prints a diagnostic or nothing. *)
Lemma fold_checked {A} (step : bool * state -> A -> bool * state) (l : list A)
    (acc : bool * state) (s0 : state) :
  (forall acc x, In x l -> checked s0 (snd acc) -> checked s0 (snd (step acc x))) ->
  checked s0 (snd acc) -> checked s0 (snd (fold_left step l acc)).
Proof.
  intros Hs. apply (fold_inv step (fun acc => checked s0 (snd acc))). auto.
Qed.

Lemma sb_test_checked (s0 : state) c m acc :
  checked s0 (snd acc) -> checked s0 (snd (sb_test c m acc)).
Proof. unfold sb_test. destruct c; [apply report_checked|auto]. Qed.

Lemma check_superblock_checked (s : state) : checked s (snd (check_superblock s)).
Proof.
  unfold check_superblock. cbv zeta.
  repeat apply sb_test_checked. apply checked_refl.
Qed.

Lemma check_inode_bitmap_checked (s : state) : checked s (snd (check_inode_bitmap_consistency s)).
Proof.
  apply fold_checked; [|apply checked_refl].
  intros [ok s'] i _ H. unfold inode_bitmap_step. destruct_ifs; auto; apply report_checked; auto.
Qed.

Lemma mark_nonzero_checked (s0 s : state) i v : checked s0 s -> checked s0 (mark_nonzero i s v).
Proof.
  intros H. unfold mark_nonzero, mark_block_referenced. destruct_ifs; auto; apply set_refs_checked; auto.
Qed.

Lemma mark_inode_blocks_checked (s0 s : state) (i : Z) :
  checked s0 s -> checked s0 (mark_inode_blocks s i).
Proof.
  intros H. unfold mark_inode_blocks. cbv zeta.
  generalize (inode_at s i) as ino. intros ino.
  destruct (is_valid_inode ino); [|exact H].
  assert (H1 : checked s0 (fold_left (fun s j => mark_nonzero i s (znth 0 (direct_blocks ino) j))
                          (zrange 0 12) s)).
  { apply (fold_inv _ (checked s0)); auto. intros; apply mark_nonzero_checked; auto. }
  destruct (negb (indirect_block ino =? 0)); [|exact H1].
  apply (fold_inv _ (checked s0)); [intros; apply mark_nonzero_checked; auto|].
  unfold mark_block_referenced. destruct_ifs; auto; apply set_refs_checked; auto.
Qed.

Lemma check_data_bitmap_checked (s : state) : checked s (snd (check_data_bitmap_consistency s)).
Proof.
  unfold check_data_bitmap_consistency. cbv zeta.
  apply fold_checked.
  - intros [ok s'] i _ H. unfold data_bitmap_step. destruct_ifs; auto; apply report_checked; auto.
  - cbn [snd]. apply (fold_inv _ (checked s)); [intros; apply mark_inode_blocks_checked; auto|].
    apply set_refs_checked, checked_refl.
Qed.

Lemma check_duplicate_checked (s : state) : checked s (snd (check_duplicate_blocks s)).
Proof.
  apply fold_checked; [|apply checked_refl].
  intros [ok s'] i _ H. unfold dup_report_step. destruct_ifs; auto; apply report_checked; auto.
Qed.

Lemma bad_direct_step_checked (s0 : state) i ino acc j :
  checked s0 (snd acc) -> checked s0 (snd (bad_direct_step i ino acc j)).
Proof.
  destruct acc as [ok s]. intros H. unfold bad_direct_step. destruct_ifs; auto; apply report_checked; auto.
Qed.

Lemma bad_entry_step_checked (s0 : state) i es acc j :
  checked s0 (snd acc) -> checked s0 (snd (bad_entry_step i es acc j)).
Proof.
  destruct acc as [ok s]. intros H. unfold bad_entry_step. destruct_ifs; auto; apply report_checked; auto.
Qed.

Lemma bad_inode_step_checked (s0 : state) acc i :
  checked s0 (snd acc) -> checked s0 (snd (bad_inode_step acc i)).
Proof.
  intros H. unfold bad_inode_step. cbv zeta.
  generalize (inode_at (snd acc) i) as ino. intros ino.
  destruct (is_valid_inode ino); [|exact H].
  pose proof (fold_checked (bad_direct_step i ino) (zrange 0 12) acc s0) as H1.
  destruct (fold_left (bad_direct_step i ino) (zrange 0 12) acc) as [nb s'].
  cbn [snd] in H1. specialize (H1 (fun acc j _ H => bad_direct_step_checked s0 i ino acc j H) H).
  destruct (negb (indirect_block ino =? 0)); [|exact H1].
  destruct (out_of_range s' (indirect_block ino)); [apply report_checked; exact H1|].
  generalize (read_block (image s') (indirect_block ino)) as es. intros es.
  apply fold_checked; [|exact H1].
  intros; apply bad_entry_step_checked; auto.
Qed.

Lemma check_bad_blocks_checked (s : state) : checked s (snd (check_bad_blocks s)).
Proof.
  apply fold_checked; [|apply checked_refl]. intros; apply bad_inode_step_checked; auto.
Qed.

Lemma run_checks_checked (s : state) : checked s (snd (run_checks s)).
Proof.
  unfold run_checks.
  pose proof (check_superblock_checked s) as H1.
  destruct (check_superblock s) as [b1 s1]. cbn [snd] in H1.
  pose proof (check_inode_bitmap_checked s1) as H2.
  destruct (check_inode_bitmap_consistency s1) as [b2 s2]. cbn [snd] in H2.
  pose proof (check_data_bitmap_checked s2) as H3.
  destruct (check_data_bitmap_consistency s2) as [b3 s3]. cbn [snd] in H3.
  pose proof (check_duplicate_checked s3) as H4.
  destruct (check_duplicate_blocks s3) as [b4 s4]. cbn [snd] in H4.
  pose proof (check_bad_blocks_checked s4) as H5.
  destruct (check_bad_blocks s4) as [b5 s5]. cbn [snd] in H5.
  cbn [snd]. eauto using checked_trans.
Qed.

Lemma checked_output_in (s1 s2 : state) (m : message) :
  checked s1 s2 -> In m (output s1) -> In m (output s2).
Proof.
  intros (_ & _ & _ & _ & _ & _ & _ & (l & H) & _) Hm. rewrite H. apply in_or_app. auto.
Qed.

Lemma checked_errors (s1 s2 : state) : checked s1 s2 -> errors_found s1 <= errors_found s2.
Proof. intros (_ & _ & _ & _ & _ & _ & _ & _ & H). exact H. Qed.

Lemma checked_inode_at (s1 s2 : state) (i : Z) : checked s1 s2 -> inode_at s2 i = inode_at s1 i.
Proof. intros (_ & _ & _ & H & _). unfold inode_at. rewrite H. reflexivity. Qed.

(** The bad-block validator flags a direct pointer equal to [TOTAL_BLOCKS],
    whatever the region start. *)
Lemma bad_inode_step_finds_64 (acc : bool * state) (i : Z) :
  is_valid_inode (inode_at (snd acc) i) = true ->
  znth 0 (direct_blocks (inode_at (snd acc) i)) 0 = 64 ->
  In (EBadDirect i 0 64) (output (snd (bad_inode_step acc i))) /\
  errors_found (snd acc) < errors_found (snd (bad_inode_step acc i)).
Proof.
  intros Hv Hd. unfold bad_inode_step. cbv zeta.
  generalize dependent (inode_at (snd acc) i). intros ino Hv Hd. rewrite Hv.
  rewrite zrange_cons by lia. change (0 + 1) with 1. cbn [fold_left].
  destruct acc as [ok s1].
  assert (Hstep : bad_direct_step i ino (ok, s1) 0 = (false, report (EBadDirect i 0 64) s1)).
  { unfold bad_direct_step, out_of_range. cbv beta iota zeta. rewrite Hd.
    change (TOTAL_BLOCKS <=? 64) with true. rewrite orb_true_r. reflexivity. }
  rewrite Hstep.
  assert (Hr : In (EBadDirect i 0 64) (output (report (EBadDirect i 0 64) s1)) /\
               errors_found s1 < errors_found (report (EBadDirect i 0 64) s1)).
  { cbn. split; [apply in_or_app; right; left; reflexivity | lia]. }
  pose proof (fold_checked (bad_direct_step i ino) (zrange 1 12)
    (false, report (EBadDirect i 0 64) s1) (report (EBadDirect i 0 64) s1)) as H1.
  destruct (fold_left (bad_direct_step i ino) (zrange 1 12) (false, report (EBadDirect i 0 64) s1))
    as [nb s'].
  cbn [snd] in H1. specialize (H1 (fun acc j _ H => bad_direct_step_checked _ i ino acc j H)
    (checked_refl _)).
  assert (Hfin : forall s'', checked s' s'' ->
            In (EBadDirect i 0 64) (output s'') /\ errors_found s1 < errors_found s'').
  { intros s'' H2. pose proof (checked_trans _ _ _ H1 H2) as H3. split.
    - eapply checked_output_in; [exact H3|]. apply Hr.
    - apply checked_errors in H3. destruct Hr. cbn [snd]. lia. }
  cbn [snd]. apply Hfin.
  destruct (negb (indirect_block ino =? 0)); [|apply checked_refl].
  destruct (out_of_range s' (indirect_block ino)); [apply report_checked, checked_refl|].
  generalize (read_block (image s') (indirect_block ino)) as es. intros es.
  apply fold_checked; [|apply checked_refl].
  intros; apply bad_entry_step_checked; auto.
Qed.

Lemma check_bad_blocks_finds_64 (s : state) (i : Z) :
  0 <= i < INODE_COUNT -> is_valid_inode (inode_at s i) = true ->
  znth 0 (direct_blocks (inode_at s i)) 0 = 64 ->
  In (EBadDirect i 0 64) (output (snd (check_bad_blocks s))) /\
  errors_found s < errors_found (snd (check_bad_blocks s)).
Proof.
  intros Hi Hv Hd. unfold check_bad_blocks.
  rewrite (zrange_app 0 i INODE_COUNT) by lia.
  rewrite (zrange_cons i INODE_COUNT) by lia. rewrite fold_left_app. cbn [fold_left].
  pose proof (fold_checked bad_inode_step (zrange 0 i) (true, s) s
    (fun acc j _ H => bad_inode_step_checked s acc j H) (checked_refl s)) as H1.
  destruct (fold_left bad_inode_step (zrange 0 i) (true, s)) as [ok1 s1].
  cbn [snd] in H1.
  destruct (bad_inode_step_finds_64 (ok1, s1) i) as [Hin Her];
    cbn [snd]; try (rewrite (checked_inode_at _ _ i H1); assumption).
  pose proof (fold_checked bad_inode_step (zrange (i + 1) INODE_COUNT) (bad_inode_step (ok1, s1) i)
    (snd (bad_inode_step (ok1, s1) i))
    (fun acc j _ H => bad_inode_step_checked _ acc j H) (checked_refl _)) as H2.
  split; [eapply checked_output_in; eauto|].
  apply checked_errors in H1. apply checked_errors in H2. cbn [snd] in Her. lia.
Qed.

(** ** C1: a direct pointer equal to [TOTAL_BLOCKS] *)

Lemma replace_nth_overflow {A} (n : nat) (x : A) (l : list A) :
  (length l <= n)%nat -> replace_nth n x l = l.
Proof.
  revert n; induction l as [|h t IH]; intros [|n] H; simpl in *; auto; try lia.
  f_equal. apply IH. lia.
Qed.

Lemma get_bit_set_bit_other (bm : list Z) (k m : Z) :
  0 <= k -> 0 <= m -> k <> m -> get_bit (set_bit bm k) m = get_bit bm m.
Proof.
  intros Hk Hm Hne. destruct (Nat.lt_ge_cases (Z.to_nat (k / 8)) (length bm)).
  - rewrite get_bit_set_bit by auto. destruct (Z.eqb_spec k m); [contradiction|reflexivity].
  - unfold set_bit. cbv zeta. unfold zreplace. rewrite replace_nth_overflow by lia. reflexivity.
Qed.

Lemma get_bit_clear_bit_other (bm : list Z) (k m : Z) :
  0 <= k -> 0 <= m -> k <> m -> get_bit (clear_bit bm k) m = get_bit bm m.
Proof.
  intros Hk Hm Hne. destruct (Nat.lt_ge_cases (Z.to_nat (k / 8)) (length bm)).
  - rewrite get_bit_clear_bit by auto. destruct (Z.eqb_spec k m); [contradiction|reflexivity].
  - unfold clear_bit. cbv zeta. unfold zreplace. rewrite replace_nth_overflow by lia. reflexivity.
Qed.

(** With the region starting at 8, the data-bitmap fix touches bits [0 .. 55] only. *)
Lemma fix_data_bitmap_high_bits (l : list Z) (s : state) (m : Z) :
  to_int32 (data_block_start (superblock s)) = 8 -> (forall i, In i l -> 8 <= i < 64) ->
  56 <= m ->
  get_bit (data_bitmap (fold_left fix_data_bitmap_step l s)) m = get_bit (data_bitmap s) m.
Proof.
  intros Hd Hl Hm.
  apply (fold_inv fix_data_bitmap_step (fun s' => to_int32 (data_block_start (superblock s')) = 8 /\
           get_bit (data_bitmap s') m = get_bit (data_bitmap s) m)); [|auto].
  intros s' i Hi [Hd' Hb']. specialize (Hl i Hi).
  destruct (fix_data_bitmap_step_frame s' i) as ((Hsb & _) & _).
  rewrite Hsb. split; [exact Hd'|]. rewrite <- Hb'.
  unfold fix_data_bitmap_step. rewrite Hd'. destruct_ifs; cbn [data_bitmap count_fixed
    set_counters set_data_bitmap]; auto.
  - apply get_bit_clear_bit_other; lia.
  - apply get_bit_set_bit_other; lia.
Qed.

Lemma valid_inode_in_table (s : state) (i : Z) :
  0 <= i -> is_valid_inode (inode_at s i) = true -> (Z.to_nat i < length (inodes s))%nat.
Proof.
  intros Hi Hv. destruct (Nat.lt_ge_cases (Z.to_nat i) (length (inodes s))) as [H|H]; auto.
  unfold inode_at, znth in Hv. rewrite nth_overflow in Hv by exact H. discriminate.
Qed.

Lemma inode_at_set_inode_other (s : state) (k i : Z) (ino : inode_t) :
  0 <= k -> 0 <= i -> k <> i -> inode_at (set_inode s k ino) i = inode_at s i.
Proof. intros. unfold inode_at, set_inode. cbn. apply znth_zreplace_other; auto. Qed.

Lemma fix_direct_step_inode_other (k : Z) (s : state) (j i : Z) :
  0 <= k -> 0 <= i -> k <> i -> inode_at (fix_direct_step k s j) i = inode_at s i.
Proof.
  intros. unfold fix_direct_step. destruct_ifs; [|reflexivity].
  unfold count_fixed, inode_at. cbn. apply znth_zreplace_other; auto.
Qed.

Lemma fix_indirect_inode_other (s : state) (k i : Z) :
  0 <= k -> 0 <= i -> k <> i -> inode_at (fix_indirect s k) i = inode_at s i.
Proof.
  intros Hk Hi Hne. unfold fix_indirect.
  destruct (negb (indirect_block (inode_at s k) =? 0)); [|reflexivity].
  destruct (out_of_range s (indirect_block (inode_at s k))).
  - unfold count_fixed, inode_at. cbn. apply znth_zreplace_other; auto.
  - generalize (read_block (image s) (indirect_block (inode_at s k))) as es. intros es.
    generalize (indirect_block (inode_at s k)) as ind. intros ind.
    destruct (fix_entries_fold (zrange 0 ENTRIES_PER_BLOCK) es false s) as (H1 & _).
    destruct (fold_left fix_entry_step (zrange 0 ENTRIES_PER_BLOCK) (es, false, s))
      as [[es' m'] s'].
    cbn [fst snd] in H1. rewrite H1. destruct m'; reflexivity.
Qed.

Lemma fix_bad_step_inode_other (s : state) (k i : Z) :
  0 <= k -> 0 <= i -> k <> i -> inode_at (fix_bad_step s k) i = inode_at s i.
Proof.
  intros Hk Hi Hne. unfold fix_bad_step.
  destruct (is_valid_inode (inode_at s k)); [|reflexivity].
  rewrite fix_indirect_inode_other by auto.
  apply (fold_inv (fix_direct_step k) (fun s' => inode_at s' i = inode_at s i)); [|reflexivity].
  intros s' j _ H. rewrite fix_direct_step_inode_other; auto.
Qed.

Lemma znth_zreplace_cases {A} (d : A) (k : Z) (x : A) (l : list A) (i : Z) :
  znth d (zreplace k x l) i = x \/ znth d (zreplace k x l) i = znth d l i.
Proof.
  unfold znth, zreplace.
  destruct (Nat.eq_dec (Z.to_nat k) (Z.to_nat i)) as [Heq|Hne].
  - rewrite <- Heq. destruct (Nat.lt_ge_cases (Z.to_nat k) (length l)).
    + left. apply nth_replace_nth_same. auto.
    + right. rewrite replace_nth_overflow by lia. reflexivity.
  - right. apply nth_replace_nth_other. auto.
Qed.

(** The bad-pointer fix only ever writes zeros: a zero direct slot stays zero. *)
Lemma fix_direct_step_keeps_zero (k : Z) (s : state) (j i j0 : Z) :
  0 <= k -> 0 <= i ->
  znth 0 (direct_blocks (inode_at s i)) j0 = 0 ->
  znth 0 (direct_blocks (inode_at (fix_direct_step k s j) i)) j0 = 0.
Proof.
  intros Hk Hi H. destruct (Z.eq_dec k i) as [<-|Hne]; [|rewrite fix_direct_step_inode_other; auto].
  unfold fix_direct_step. destruct_ifs; [|exact H].
  unfold count_fixed, inode_at at 1. cbn [inodes set_counters set_inode set_inodes].
  destruct (znth_zreplace_cases empty_inode k (set_direct_block (inode_at s k) j 0) (inodes s) k)
    as [E|E]; rewrite E; [|exact H].
  cbn [direct_blocks set_direct_block].
  destruct (znth_zreplace_cases 0 j 0 (direct_blocks (inode_at s k)) j0) as [E'|E']; rewrite E'; auto.
Qed.

Lemma fix_indirect_keeps_direct (s : state) (k i : Z) :
  0 <= k -> 0 <= i ->
  direct_blocks (inode_at (fix_indirect s k) i) = direct_blocks (inode_at s i).
Proof.
  intros Hk Hi. destruct (Z.eq_dec k i) as [<-|Hne]; [|rewrite fix_indirect_inode_other; auto].
  unfold fix_indirect.
  destruct (negb (indirect_block (inode_at s k) =? 0)); [|reflexivity].
  destruct (out_of_range s (indirect_block (inode_at s k))).
  - unfold count_fixed, inode_at at 1. cbn [inodes set_counters set_inode set_inodes].
    destruct (znth_zreplace_cases empty_inode k (set_indirect_block (inode_at s k) 0) (inodes s) k)
      as [E|E]; rewrite E; reflexivity.
  - generalize (read_block (image s) (indirect_block (inode_at s k))) as es. intros es.
    generalize (indirect_block (inode_at s k)) as ind. intros ind.
    destruct (fix_entries_fold (zrange 0 ENTRIES_PER_BLOCK) es false s) as (H1 & _).
    destruct (fold_left fix_entry_step (zrange 0 ENTRIES_PER_BLOCK) (es, false, s))
      as [[es' m'] s'].
    cbn [fst snd] in H1. rewrite H1. destruct m'; reflexivity.
Qed.

Lemma fix_bad_step_keeps_zero (s : state) (k i j0 : Z) :
  0 <= k -> 0 <= i ->
  znth 0 (direct_blocks (inode_at s i)) j0 = 0 ->
  znth 0 (direct_blocks (inode_at (fix_bad_step s k) i)) j0 = 0.
Proof.
  intros Hk Hi H. unfold fix_bad_step.
  destruct (is_valid_inode (inode_at s k)); [|exact H].
  rewrite fix_indirect_keeps_direct by auto.
  apply (fold_inv (fix_direct_step k) (fun s' => znth 0 (direct_blocks (inode_at s' i)) j0 = 0));
    [|exact H].
  intros s' j _ H'. apply fix_direct_step_keeps_zero; auto.
Qed.

(** The step of inode [i] zeroes its direct pointer [64]. *)
Lemma fix_bad_step_zeroes_64 (s : state) (i : Z) :
  0 <= i -> is_valid_inode (inode_at s i) = true ->
  znth 0 (direct_blocks (inode_at s i)) 0 = 64 ->
  znth 0 (direct_blocks (inode_at (fix_bad_step s i) i)) 0 = 0.
Proof.
  intros Hi Hv Hd. unfold fix_bad_step. rewrite Hv.
  rewrite fix_indirect_keeps_direct by auto.
  rewrite zrange_cons by lia. rewrite fold_left_cons.
  apply (fold_inv (fix_direct_step i) (fun s' => znth 0 (direct_blocks (inode_at s' i)) 0 = 0)).
  { intros s' j _ H'. apply fix_direct_step_keeps_zero; auto. }
  pose proof (valid_inode_in_table s i Hi Hv) as Hlen.
  unfold fix_direct_step. rewrite Hd.
  replace (negb (64 =? 0) && out_of_range s 64) with true
    by (unfold out_of_range; change (TOTAL_BLOCKS <=? 64) with true; rewrite orb_true_r; reflexivity).
  unfold count_fixed, inode_at at 1. cbn [inodes set_counters set_inode set_inodes].
  rewrite znth_zreplace_same by auto. cbn [direct_blocks set_direct_block].
  apply znth_zreplace_same; [lia|].
  destruct (direct_blocks (inode_at s i)) as [|d ds] eqn:E; [|cbn; lia].
  unfold znth in Hd. cbn in Hd. discriminate.
Qed.

(** [fix_errors] zeroes a direct pointer [64] of a valid inode. *)
Lemma fix_errors_zeroes_64 (s : state) (i : Z) :
  0 <= i < INODE_COUNT -> is_valid_inode (inode_at s i) = true ->
  znth 0 (direct_blocks (inode_at s i)) 0 = 64 ->
  znth 0 (direct_blocks (inode_at (fix_errors s) i)) 0 = 0.
Proof.
  intros Hi Hv Hd.
  pose proof (fix_loops_frame s) as H. cbv zeta in H.
  unfold fix_errors. cbv zeta.
  set (s1 := fix_superblock s) in *.
  set (s2 := fold_left fix_inode_bitmap_step (zrange 0 INODE_COUNT) s1) in *.
  set (s3 := fold_left fix_data_bitmap_step
               (zrange (to_int32 (data_block_start (superblock s2))) TOTAL_BLOCKS) s2) in *.
  destruct H as (_ & _ & Hn2 & _ & _ & _ & Hn3 & _).
  destruct (fix_errors_tail (fold_left fix_bad_step (zrange 0 INODE_COUNT) s3))
    as (_ & _ & _ & _ & Ht & _). cbv zeta in Ht.
  assert (Hw : forall s' : state, inodes s' = inodes (fold_left fix_bad_step (zrange 0 INODE_COUNT) s3) ->
     inode_at s' i = inode_at (fold_left fix_bad_step (zrange 0 INODE_COUNT) s3) i)
    by (intros s' Hs'; unfold inode_at; rewrite Hs'; reflexivity).
  rewrite (Hw _ Ht). clear Hw.
  assert (E : inode_at s3 i = inode_at s i).
  { unfold inode_at. rewrite Hn3, Hn2. unfold s1. rewrite fix_superblock_eq. reflexivity. }
  rewrite (zrange_app 0 i INODE_COUNT) by lia.
  rewrite (zrange_cons i INODE_COUNT) by lia. rewrite fold_left_app, fold_left_cons.
  apply (fold_inv fix_bad_step (fun s' => znth 0 (direct_blocks (inode_at s' i)) 0 = 0)).
  { intros s' k Hk H'. apply in_zrange in Hk. apply fix_bad_step_keeps_zero; auto; lia. }
  assert (E' : inode_at (fold_left fix_bad_step (zrange 0 i) s3) i = inode_at s i).
  { rewrite <- E. apply (fold_inv fix_bad_step (fun s' => inode_at s' i = inode_at s3 i)); auto.
    intros s' k Hk H'. apply in_zrange in Hk. rewrite fix_bad_step_inode_other; auto; lia. }
  apply fix_bad_step_zeroes_64; [lia| rewrite E'; auto | rewrite E'; auto].
Qed.

(** [fix_errors] leaves the data-bitmap bits from 56 on as they were. *)
Lemma fix_errors_high_bits (s : state) (m : Z) :
  56 <= m -> get_bit (data_bitmap (fix_errors s)) m = get_bit (data_bitmap s) m.
Proof.
  intros Hm.
  pose proof (fix_loops_frame s) as H. cbv zeta in H.
  unfold fix_errors. cbv zeta.
  set (s1 := fix_superblock s) in *.
  set (s2 := fold_left fix_inode_bitmap_step (zrange 0 INODE_COUNT) s1) in *.
  set (s4 := fold_left fix_bad_step (zrange 0 INODE_COUNT)
    (fold_left fix_data_bitmap_step
       (zrange (to_int32 (data_block_start (superblock s2))) TOTAL_BLOCKS) s2)) in *.
  destruct H as ((Hsb2 & _) & Hd2 & _ & _ & _ & _ & _ & _ & _ & _ & Hd4).
  destruct (fix_errors_tail s4) as (_ & _ & _ & Ht & _). cbv zeta in Ht.
  rewrite Ht, Hd4.
  assert (Hs1 : superblock s1 = good_superblock /\ data_bitmap s1 = data_bitmap s)
    by (unfold s1; rewrite fix_superblock_eq; split; reflexivity).
  destruct Hs1 as [Hs1 Hd1].
  rewrite (fix_data_bitmap_high_bits
    (zrange (to_int32 (data_block_start (superblock s2))) TOTAL_BLOCKS) s2 m).
  - rewrite Hd2, Hd1. reflexivity.
  - rewrite Hsb2, Hs1. reflexivity.
  - intros k Hk. rewrite Hsb2, Hs1 in Hk. apply in_zrange in Hk. exact Hk.
  - exact Hm.
Qed.

Lemma run_checks_finds_64 (s : state) (i : Z) :
  0 <= i < INODE_COUNT -> is_valid_inode (inode_at s i) = true ->
  znth 0 (direct_blocks (inode_at s i)) 0 = 64 ->
  In (EBadDirect i 0 64) (output (snd (run_checks s))) /\
  errors_found s < errors_found (snd (run_checks s)).
Proof.
  intros Hi Hv Hd. unfold run_checks.
  pose proof (check_superblock_checked s) as H1.
  destruct (check_superblock s) as [b1 s1]. cbn [snd] in H1.
  pose proof (check_inode_bitmap_checked s1) as H2.
  destruct (check_inode_bitmap_consistency s1) as [b2 s2]. cbn [snd] in H2.
  pose proof (check_data_bitmap_checked s2) as H3.
  destruct (check_data_bitmap_consistency s2) as [b3 s3]. cbn [snd] in H3.
  pose proof (check_duplicate_checked s3) as H4.
  destruct (check_duplicate_blocks s3) as [b4 s4]. cbn [snd] in H4.
  assert (H : checked s s4) by eauto using checked_trans.
  destruct (check_bad_blocks_finds_64 s4 i Hi);
    try (rewrite (checked_inode_at _ _ i H); assumption).
  destruct (check_bad_blocks s4) as [b5 s5]. cbn [snd] in *.
  apply checked_errors in H. split; [assumption|lia].
Qed.

(** The run of [main] when the first pass finds errors: it repairs, resets
    the counts, re-checks and prints three more lines. *)
Lemma check_and_repair_repairing (s : state) :
  let r1 := run_checks (emit MChecking s) in
  let s1 := emit (MTotalErrors (errors_found (snd r1))) (emit (MSummary (fst r1)) (snd r1)) in
  let s2 := fix_errors (emit MAttempting s1) in
  let s3 := emit MRechecking (set_counters (emit (MErrorsFixed (errors_fixed s2)) s2) 0 0) in
  0 < errors_found (snd r1) ->
  exists m1 m2 m3, check_and_repair s = emit m3 (emit m2 (emit m1 (snd (run_checks s3)))).
Proof.
  intros r1 s1 s2 s3 Hpos. unfold check_and_repair.
  subst r1 s1 s2 s3.
  destruct (run_checks (emit MChecking s)) as [oks s'].
  cbv beta iota zeta. cbn [fst snd] in Hpos |- *.
  replace (0 <? errors_found (emit (MTotalErrors (errors_found s')) (emit (MSummary oks) s')))
    with true by (symmetry; apply Z.ltb_lt; exact Hpos).
  destruct (run_checks (emit MRechecking (set_counters (emit (MErrorsFixed (errors_fixed
    (fix_errors (emit MAttempting (emit (MTotalErrors (errors_found s')) (emit (MSummary oks) s'))))))
    (fix_errors (emit MAttempting (emit (MTotalErrors (errors_found s')) (emit (MSummary oks) s')))))
    0 0))) as [oks2 s''].
  cbv beta iota zeta.
  destruct_ifs; eexists _, _, _; reflexivity.
Qed.

Lemma emit_output (s : state) (m : message) : output (emit m s) = output s ++ [m].
Proof. reflexivity. Qed.

Lemma emit_inodes (s : state) (m : message) : inodes (emit m s) = inodes s.
Proof. reflexivity. Qed.

Lemma emit_data_bitmap (s : state) (m : message) : data_bitmap (emit m s) = data_bitmap s.
Proof. reflexivity. Qed.

Lemma emit_errors_found (s : state) (m : message) : errors_found (emit m s) = errors_found s.
Proof. reflexivity. Qed.

Lemma set_counters_output (s : state) (f x : Z) : output (set_counters s f x) = output s.
Proof. reflexivity. Qed.

Lemma set_counters_inodes (s : state) (f x : Z) : inodes (set_counters s f x) = inodes s.
Proof. reflexivity. Qed.

Lemma set_counters_data_bitmap (s : state) (f x : Z) :
  data_bitmap (set_counters s f x) = data_bitmap s.
Proof. reflexivity. Qed.

Lemma inode_at_inodes (s s' : state) (i : Z) :
  inodes s = inodes s' -> inode_at s i = inode_at s' i.
Proof. intros H. unfold inode_at. rewrite H. reflexivity. Qed.

Lemma emit_output_in (s : state) (m m' : message) :
  In m (output s) -> In m (output (emit m' s)).
Proof. intros H. rewrite emit_output. apply in_or_app. auto. Qed.

(** What a run of [check_and_repair] that enters the repair engine leaves:
    the output keeps the first pass's findings, and the inodes and the data
    bitmap are those [fix_errors] wrote. *)
Lemma check_and_repair_after_fix (s : state) :
  let r1 := run_checks (emit MChecking s) in
  let s1 := emit (MTotalErrors (errors_found (snd r1))) (emit (MSummary (fst r1)) (snd r1)) in
  let s2 := fix_errors (emit MAttempting s1) in
  0 < errors_found (snd r1) ->
  (forall m, In m (output (snd r1)) -> In m (output (check_and_repair s))) /\
  inodes (check_and_repair s) = inodes s2 /\
  data_bitmap (check_and_repair s) = data_bitmap s2.
Proof.
  intros r1 s1 s2 Hpos.
  destruct (check_and_repair_repairing s Hpos) as (m1 & m2 & m3 & Heq).
  rewrite Heq. subst r1 s1 s2.
  set (s2 := fix_errors _).
  set (s3 := emit MRechecking (set_counters (emit (MErrorsFixed (errors_fixed s2)) s2) 0 0)).
  pose proof (run_checks_checked s3) as Hc.
  destruct Hc as (_ & _ & Hdb & Hin & _ & _ & _ & (l & Hout) & _).
  split; [|split].
  - intros m Hm. apply emit_output_in, emit_output_in, emit_output_in.
    rewrite Hout. apply in_or_app. left.
    unfold s3. apply emit_output_in. rewrite set_counters_output.
    apply emit_output_in. unfold s2. rewrite (proj1 (proj2 (fix_errors_frame _))).
    apply emit_output_in, emit_output_in, emit_output_in. exact Hm.
  - rewrite !emit_inodes, Hin. unfold s3. rewrite emit_inodes, set_counters_inodes, emit_inodes.
    reflexivity.
  - rewrite !emit_data_bitmap, Hdb. unfold s3.
    rewrite emit_data_bitmap, set_counters_data_bitmap, emit_data_bitmap. reflexivity.
Qed.

(** C1 (corrected): for a loaded image with a valid inode [i] whose first
    direct pointer is [TOTAL_BLOCKS] (64), the run of [check_and_repair]
    prints the bad-block finding for [(i, 0, 64)], leaves that slot at 0 in
    the inode table the re-check reads, and leaves every data-bitmap bit
    from 56 on (bit 56 is the one of block 64) as it was loaded: repair does
    not touch the bit of the invalid block number.  The image is one on which
    the validators stay inside the C arrays ([in_bounds]); the repair keeps
    the re-check inside them too ([repair_cycle_in_bounds]). *)
Theorem bad_direct_64_flagged_zeroed_bit_kept (ld : loaded_image) (i : Z) :
  in_bounds (initial_state ld) = true ->
  0 <= i < INODE_COUNT ->
  is_valid_inode (znth empty_inode (ld_inodes ld) i) = true ->
  znth 0 (direct_blocks (znth empty_inode (ld_inodes ld) i)) 0 = TOTAL_BLOCKS ->
  In (EBadDirect i 0 64) (output (check_and_repair (initial_state ld))) /\
  znth 0 (direct_blocks (inode_at (check_and_repair (initial_state ld)) i)) 0 = 0 /\
  (forall m, 56 <= m ->
     get_bit (data_bitmap (check_and_repair (initial_state ld))) m = get_bit (ld_data_bitmap ld) m).
Proof.
  intros _ Hi Hv Hd.
  destruct (run_checks_finds_64 (emit MChecking (initial_state ld)) i Hi Hv Hd) as [Hm He].
  assert (Hpos : 0 < errors_found (snd (run_checks (emit MChecking (initial_state ld))))).
  { rewrite emit_errors_found in He. exact He. }
  destruct (check_and_repair_after_fix (initial_state ld) Hpos) as (Hout & Hino & Hdb).
  pose proof (run_checks_checked (emit MChecking (initial_state ld))) as Hc.
  split; [|split].
  - apply Hout. exact Hm.
  - set (sA := emit MAttempting
      (emit (MTotalErrors (errors_found (snd (run_checks (emit MChecking (initial_state ld))))))
        (emit (MSummary (fst (run_checks (emit MChecking (initial_state ld)))))
           (snd (run_checks (emit MChecking (initial_state ld))))))) in *.
    assert (HA : inode_at sA i = znth empty_inode (ld_inodes ld) i).
    { unfold sA, inode_at. rewrite !emit_inodes.
      destruct Hc as (_ & _ & _ & Hi' & _). rewrite Hi', emit_inodes. reflexivity. }
    pose proof (fix_errors_zeroes_64 sA i Hi) as Hz. rewrite HA in Hz.
    specialize (Hz Hv Hd). rewrite (inode_at_inodes _ _ i Hino). exact Hz.
  - intros m Hm56. rewrite Hdb. rewrite (fix_errors_high_bits _ m Hm56).
    rewrite !emit_data_bitmap. destruct Hc as (_ & _ & Hd' & _).
    rewrite Hd', emit_data_bitmap. reflexivity.
Qed.

(** C1, counterexample: in [img_block64] the data-bitmap bit of block 64
    (bit 56) is set; repair zeroes the pointer but leaves the bit set. *)
Lemma block64_bit_left_set :
  get_bit (ld_data_bitmap img_block64) 56 = 1 /\
  znth 0 (direct_blocks (inode_at (check_and_repair (initial_state img_block64)) 0)) 0 = 0 /\
  get_bit (data_bitmap (check_and_repair (initial_state img_block64))) 56 = 1.
Proof. vm_compute. repeat split. Qed.

Lemma bad_direct_64_flagged_zeroed_bit_kept_witness :
  in_bounds (initial_state img_block64) = true /\
  is_valid_inode (znth empty_inode (ld_inodes img_block64) 0) = true /\
  znth 0 (direct_blocks (znth empty_inode (ld_inodes img_block64) 0)) 0 = TOTAL_BLOCKS /\
  In (EBadDirect 0 0 64) (output (check_and_repair (initial_state img_block64))) /\
  znth 0 (direct_blocks (inode_at (check_and_repair (initial_state img_block64)) 0)) 0 = 0 /\
  (forall m, 56 <= m ->
     get_bit (data_bitmap (check_and_repair (initial_state img_block64))) m =
     get_bit (ld_data_bitmap img_block64) m).
Proof.
  split; [vm_compute; reflexivity|].
  split; [vm_compute; reflexivity|]. split; [vm_compute; reflexivity|].
  apply (bad_direct_64_flagged_zeroed_bit_kept img_block64 0).
  - vm_compute. reflexivity.
  - unfold INODE_COUNT. lia.
  - vm_compute. reflexivity.
  - vm_compute. reflexivity.
Defined.

(** ** A block shared by two inodes *)

Lemma set_direct_block_valid (ino : inode_t) (j v : Z) :
  is_valid_inode (set_direct_block ino j v) = is_valid_inode ino.
Proof. reflexivity. Qed.

Lemma set_indirect_block_valid (ino : inode_t) (v : Z) :
  is_valid_inode (set_indirect_block ino v) = is_valid_inode ino.
Proof. reflexivity. Qed.

(** The direct-pointer step keeps a valid inode's first pointer when it is
    nonzero and in range. *)
Lemma fix_direct_step_keeps_block (k : Z) (s : state) (j i B : Z) :
  0 <= k -> 0 <= i -> 0 <= j -> B <> 0 -> out_of_range s B = false ->
  is_valid_inode (inode_at s i) = true -> znth 0 (direct_blocks (inode_at s i)) 0 = B ->
  is_valid_inode (inode_at (fix_direct_step k s j) i) = true /\
  znth 0 (direct_blocks (inode_at (fix_direct_step k s j) i)) 0 = B.
Proof.
  intros Hk Hi Hj HB Hr Hv Hd.
  destruct (Z.eq_dec k i) as [<-|Hne]; [|rewrite fix_direct_step_inode_other; auto].
  destruct (Z.eq_dec j 0) as [->|Hj0].
  - unfold fix_direct_step. rewrite Hd, Hr, andb_false_r. auto.
  - unfold fix_direct_step. destruct_ifs; [|auto].
    unfold count_fixed. rewrite !(inode_at_inodes (set_counters _ _ _) (set_inode s k (set_direct_block (inode_at s k) j 0)) k) by reflexivity.
    unfold inode_at at 1 3. cbn [inodes set_inode set_inodes].
    destruct (znth_zreplace_cases empty_inode k (set_direct_block (inode_at s k) j 0) (inodes s) k)
      as [E|E]; rewrite E; [|auto].
    rewrite set_direct_block_valid. split; [exact Hv|].
    cbn [direct_blocks set_direct_block]. rewrite znth_zreplace_other by lia. exact Hd.
Qed.

Lemma fix_indirect_keeps_valid (s : state) (k i : Z) :
  0 <= k -> 0 <= i ->
  is_valid_inode (inode_at (fix_indirect s k) i) = is_valid_inode (inode_at s i).
Proof.
  intros Hk Hi. destruct (Z.eq_dec k i) as [<-|Hne]; [|rewrite fix_indirect_inode_other; auto].
  unfold fix_indirect.
  destruct (negb (indirect_block (inode_at s k) =? 0)); [|reflexivity].
  destruct (out_of_range s (indirect_block (inode_at s k))).
  - unfold count_fixed, inode_at at 1. cbn [inodes set_counters set_inode set_inodes].
    destruct (znth_zreplace_cases empty_inode k (set_indirect_block (inode_at s k) 0) (inodes s) k)
      as [E|E]; rewrite E; [apply set_indirect_block_valid|reflexivity].
  - generalize (read_block (image s) (indirect_block (inode_at s k))) as es. intros es.
    generalize (indirect_block (inode_at s k)) as ind. intros ind.
    destruct (fix_entries_fold (zrange 0 ENTRIES_PER_BLOCK) es false s) as (H1 & _).
    destruct (fold_left fix_entry_step (zrange 0 ENTRIES_PER_BLOCK) (es, false, s))
      as [[es' m'] s'].
    cbn [fst snd] in H1. rewrite H1. destruct m'; reflexivity.
Qed.

Lemma fix_bad_step_keeps_block (s : state) (k i B : Z) :
  0 <= k -> 0 <= i -> B <> 0 -> out_of_range s B = false ->
  is_valid_inode (inode_at s i) = true -> znth 0 (direct_blocks (inode_at s i)) 0 = B ->
  superblock (fix_bad_step s k) = superblock s /\
  is_valid_inode (inode_at (fix_bad_step s k) i) = true /\
  znth 0 (direct_blocks (inode_at (fix_bad_step s k) i)) 0 = B.
Proof.
  intros Hk Hi HB Hr Hv Hd.
  split; [apply (fix_bad_step_frame s k)|].
  unfold fix_bad_step.
  destruct (is_valid_inode (inode_at s k)); [|auto].
  rewrite fix_indirect_keeps_valid, fix_indirect_keeps_direct by auto.
  apply (fold_inv (fix_direct_step k) (fun s' => superblock s' = superblock s /\
     is_valid_inode (inode_at s' i) = true /\ znth 0 (direct_blocks (inode_at s' i)) 0 = B));
    [|auto].
  intros s' j Hj (Hs & Hv' & Hd'). apply in_zrange in Hj.
  split; [rewrite (proj1 (proj1 (fix_direct_step_frame k s' j))); exact Hs|].
  apply fix_direct_step_keeps_block; auto; [lia|].
  unfold out_of_range in *. rewrite Hs. exact Hr.
Qed.

(** [fix_errors] keeps a valid inode's first direct pointer when it names a
    block of [8, 64), and keeps the inode valid. *)
Lemma fix_errors_keeps_block (s : state) (i B : Z) :
  0 <= i -> 8 <= B < TOTAL_BLOCKS ->
  is_valid_inode (inode_at s i) = true -> znth 0 (direct_blocks (inode_at s i)) 0 = B ->
  is_valid_inode (inode_at (fix_errors s) i) = true /\
  znth 0 (direct_blocks (inode_at (fix_errors s) i)) 0 = B.
Proof.
  intros Hi HB Hv Hd.
  pose proof (fix_loops_frame s) as H. cbv zeta in H.
  unfold fix_errors. cbv zeta.
  set (s1 := fix_superblock s) in *.
  set (s2 := fold_left fix_inode_bitmap_step (zrange 0 INODE_COUNT) s1) in *.
  set (s3 := fold_left fix_data_bitmap_step
               (zrange (to_int32 (data_block_start (superblock s2))) TOTAL_BLOCKS) s2) in *.
  destruct H as ((Hsb2 & _) & _ & Hn2 & _ & (Hsb3 & _) & _ & Hn3 & _).
  destruct (fix_errors_tail (fold_left fix_bad_step (zrange 0 INODE_COUNT) s3))
    as (_ & _ & _ & _ & Ht & _). cbv zeta in Ht.
  rewrite (inode_at_inodes _ _ i Ht).
  assert (Hs1 : superblock s1 = good_superblock)
    by (unfold s1; rewrite fix_superblock_eq; reflexivity).
  assert (E : inode_at s3 i = inode_at s i).
  { unfold inode_at. rewrite Hn3, Hn2. unfold s1. rewrite fix_superblock_eq. reflexivity. }
  apply (fold_inv fix_bad_step (fun s' => superblock s' = good_superblock /\
     is_valid_inode (inode_at s' i) = true /\ znth 0 (direct_blocks (inode_at s' i)) 0 = B)).
  - intros s' k Hk (Hs & Hv' & Hd'). apply in_zrange in Hk.
    assert (Hr : out_of_range s' B = false).
    { unfold out_of_range. rewrite Hs. cbn [data_block_start good_superblock].
      unfold TOTAL_BLOCKS in *.
      replace (B <? 8) with false by (symmetry; apply Z.ltb_ge; lia).
      replace (64 <=? B) with false by (symmetry; apply Z.leb_gt; lia). reflexivity. }
    destruct (fix_bad_step_keeps_block s' k i B) as (A & C & D); auto; try lia.
    split; [congruence|auto].
  - rewrite E. split; [congruence|auto].
Qed.

(** Two distinct inodes in the claimant list make it longer than one. *)
Lemma two_claimants (l : list Z) (i j : Z) :
  In i l -> In j l -> i <> j -> 1 < Z.of_nat (length l).
Proof.
  intros Hi Hj Hne.
  destruct l as [|a [|b l]]; cbn [In length] in *; [contradiction| |lia].
  destruct Hi as [<-|[]]; destruct Hj as [<-|[]]. contradiction.
Qed.

Lemma claimants_first_direct (s : state) (i B : Z) :
  0 <= i < INODE_COUNT -> B <> 0 -> B < TOTAL_BLOCKS ->
  is_valid_inode (inode_at s i) = true -> znth 0 (direct_blocks (inode_at s i)) 0 = B ->
  In i (claimants s B).
Proof.
  intros Hi HB HB' Hv Hd. unfold claimants. apply in_flat_map.
  exists i. split; [apply in_zrange; exact Hi|]. cbv zeta. rewrite Hv.
  assert (Hin : In B (claim_walk (image s) (inode_at s i))).
  { unfold claim_walk. apply in_or_app. left. apply filter_In. split.
    - apply in_map_iff. exists 0. split; [exact Hd|]. apply in_zrange. lia.
    - unfold recorded. apply andb_true_intro. split.
      + apply negb_true_iff, Z.eqb_neq. exact HB.
      + apply Z.ltb_lt. exact HB'. }
  apply (count_occ_In Z.eq_dec) in Hin.
  destruct (count_occ Z.eq_dec (claim_walk (image s) (inode_at s i)) B); [lia|].
  left. reflexivity.
Qed.

(** On a state whose superblock is the supported one, the validators report
    a block of [8, 64) that two valid inodes name in their first direct slot,
    listing both. *)
Lemma run_checks_reports_shared (s : state) (i j B : Z) :
  superblock s = good_superblock ->
  0 <= i < INODE_COUNT -> 0 <= j < INODE_COUNT -> i <> j -> 8 <= B < TOTAL_BLOCKS ->
  is_valid_inode (inode_at s i) = true -> is_valid_inode (inode_at s j) = true ->
  znth 0 (direct_blocks (inode_at s i)) 0 = B -> znth 0 (direct_blocks (inode_at s j)) 0 = B ->
  exists post l, output (snd (run_checks s)) = output s ++ post /\
    In (EDuplicate B l) post /\ In i l /\ In j l.
Proof.
  intros Hsb Hi Hj Hne HB Hvi Hvj Hdi Hdj. unfold run_checks.
  pose proof (check_superblock_checked s) as H1.
  destruct (check_superblock s) as [b1 s1]. cbn [snd] in H1.
  pose proof (check_inode_bitmap_checked s1) as H2.
  destruct (check_inode_bitmap_consistency s1) as [b2 s2]. cbn [snd] in H2.
  pose proof (check_data_bitmap_checked s2) as H3.
  destruct (check_data_bitmap_consistency s2) as [b3 s3]. cbn [snd] in H3.
  assert (H : checked s s3) by eauto using checked_trans.
  destruct (check_duplicate_blocks_spec s3) as (Hout & _).
  pose proof (check_duplicate_checked s3) as H4.
  destruct (check_duplicate_blocks s3) as [b4 s4]. cbn [snd] in H4, Hout.
  pose proof (check_bad_blocks_checked s4) as H5.
  destruct (check_bad_blocks s4) as [b5 s5]. cbn [snd] in H5 |- *.
  destruct H as (Hsb3 & _ & _ & Hin3 & _ & _ & _ & (l3 & Ho3) & _).
  destruct H5 as (_ & _ & _ & _ & _ & _ & _ & (l5 & Ho5) & _).
  assert (Ei : inode_at s3 i = inode_at s i) by (apply inode_at_inodes; exact Hin3).
  assert (Ej : inode_at s3 j = inode_at s j) by (apply inode_at_inodes; exact Hin3).
  exists (l3 ++ spec_duplicate_findings s3 ++ l5), (claimants s3 B).
  assert (Ci : In i (claimants s3 B))
    by (apply claimants_first_direct; rewrite ?Ei; auto; lia).
  assert (Cj : In j (claimants s3 B))
    by (apply claimants_first_direct; rewrite ?Ej; auto; lia).
  split; [rewrite Ho5, Hout, Ho3, <- !app_assoc; reflexivity|].
  split; [|split; assumption].
  apply in_or_app. right. apply in_or_app. left.
  unfold spec_duplicate_findings. apply in_flat_map. exists B. split.
  - rewrite Hsb3, Hsb. cbn [data_block_start good_superblock]. change (to_int32 8) with 8.
    apply in_zrange. exact HB.
  - replace (1 <? Z.of_nat (length (claimants s3 B))) with true
      by (symmetry; apply Z.ltb_lt; exact (two_claimants _ i j Ci Cj Hne)).
    left. reflexivity.
Qed.

Lemma emit_superblock (s : state) (m : message) : superblock (emit m s) = superblock s.
Proof. reflexivity. Qed.

Lemma set_counters_superblock (s : state) (f x : Z) :
  superblock (set_counters s f x) = superblock s.
Proof. reflexivity. Qed.

(** C8 (corrected): take two distinct valid inodes whose first direct
    pointers both name a block [B] of [8, 64), in a run that enters the
    repair engine.  After the run both pointers are still [B], and the
    re-check that follows [MRechecking] reports [B] as a duplicate, with both
    inode indices in its claimant list.  The image is one on which the
    validators stay inside the C arrays ([in_bounds]); the repair keeps the
    re-check inside them too ([repair_cycle_in_bounds]). *)
Theorem shared_block_kept_and_rereported (ld : loaded_image) (i j B : Z) :
  in_bounds (initial_state ld) = true ->
  0 <= i < INODE_COUNT -> 0 <= j < INODE_COUNT -> i <> j -> 8 <= B < TOTAL_BLOCKS ->
  is_valid_inode (znth empty_inode (ld_inodes ld) i) = true ->
  is_valid_inode (znth empty_inode (ld_inodes ld) j) = true ->
  znth 0 (direct_blocks (znth empty_inode (ld_inodes ld) i)) 0 = B ->
  znth 0 (direct_blocks (znth empty_inode (ld_inodes ld) j)) 0 = B ->
  0 < errors_found (snd (run_checks (emit MChecking (initial_state ld)))) ->
  znth 0 (direct_blocks (inode_at (check_and_repair (initial_state ld)) i)) 0 = B /\
  znth 0 (direct_blocks (inode_at (check_and_repair (initial_state ld)) j)) 0 = B /\
  exists pre post l, output (check_and_repair (initial_state ld)) = pre ++ MRechecking :: post /\
    In (EDuplicate B l) post /\ In i l /\ In j l.
Proof.
  intros _ Hi Hj Hne HB Hvi Hvj Hdi Hdj Hpos.
  destruct (check_and_repair_after_fix (initial_state ld) Hpos) as (_ & Hino & _).
  destruct (check_and_repair_repairing (initial_state ld) Hpos) as (m1 & m2 & m3 & Heq).
  pose proof (run_checks_checked (emit MChecking (initial_state ld))) as Hc.
  set (sA := emit MAttempting
      (emit (MTotalErrors (errors_found (snd (run_checks (emit MChecking (initial_state ld))))))
        (emit (MSummary (fst (run_checks (emit MChecking (initial_state ld)))))
           (snd (run_checks (emit MChecking (initial_state ld))))))) in *.
  assert (HA : forall k, inode_at sA k = znth empty_inode (ld_inodes ld) k).
  { intros k. unfold sA, inode_at. rewrite !emit_inodes.
    destruct Hc as (_ & _ & _ & Hi' & _). rewrite Hi', emit_inodes. reflexivity. }
  destruct (fix_errors_keeps_block sA i B) as [Hvi' Hdi']; rewrite ?HA; auto; try lia.
  destruct (fix_errors_keeps_block sA j B) as [Hvj' Hdj']; rewrite ?HA; auto; try lia.
  split; [rewrite (inode_at_inodes _ _ i Hino); exact Hdi'|].
  split; [rewrite (inode_at_inodes _ _ j Hino); exact Hdj'|].
  set (s2 := fix_errors sA) in *.
  set (s3' := set_counters (emit (MErrorsFixed (errors_fixed s2)) s2) 0 0) in *.
  assert (Hn3 : inodes (emit MRechecking s3') = inodes s2)
    by (unfold s3'; rewrite emit_inodes, set_counters_inodes, emit_inodes; reflexivity).
  destruct (run_checks_reports_shared (emit MRechecking s3') i j B) as (post & l & Ho & Hl & Hli & Hlj);
    try rewrite (inode_at_inodes _ _ _ Hn3); auto.
  { unfold s3'. rewrite emit_superblock, set_counters_superblock, emit_superblock.
    apply (fix_errors_frame sA). }
  exists (output s3'), (post ++ [m1; m2; m3]), l.
  split; [|split; [apply in_or_app; left; exact Hl|split; assumption]].
  rewrite Heq, !emit_output, Ho, emit_output, <- !app_assoc. reflexivity.
Qed.

(** C8, counterexample: in [img_shared10] the superblock's data region starts
    at 20, and inodes 0 and 1 both name block 10 first.  The pre-repair check
    does not report block 10 as a duplicate; it flags both pointers as bad.
    Repair resets the region start to 8 and keeps both pointers.  Only the
    re-check reports the duplicate. *)
Lemma shared_block_reported_only_after_repair :
  output (check_and_repair (initial_state img_shared10)) =
    [MChecking; EDataBlockStart 20; EBadDirect 0 0 10; EBadDirect 1 0 10;
     MSummary [false; true; true; true; false]; MTotalErrors 3; MAttempting;
     MErrorsFixed 1; MRechecking; EBlockReferencedUnmarked 10 0; EDuplicate 10 [0; 1];
     MRecheckSummary [true; true; false; false; true]; MOriginalRemaining 3 2; MSomeRemain] /\
  znth 0 (direct_blocks (inode_at (check_and_repair (initial_state img_shared10)) 0)) 0 = 10 /\
  znth 0 (direct_blocks (inode_at (check_and_repair (initial_state img_shared10)) 1)) 0 = 10.
Proof. vm_compute. repeat split. Qed.

Lemma shared_block_kept_and_rereported_witness :
  in_bounds (initial_state img_shared10) = true /\
  is_valid_inode (znth empty_inode (ld_inodes img_shared10) 0) = true /\
  is_valid_inode (znth empty_inode (ld_inodes img_shared10) 1) = true /\
  znth 0 (direct_blocks (znth empty_inode (ld_inodes img_shared10) 0)) 0 = 10 /\
  znth 0 (direct_blocks (znth empty_inode (ld_inodes img_shared10) 1)) 0 = 10 /\
  0 < errors_found (snd (run_checks (emit MChecking (initial_state img_shared10)))) /\
  (znth 0 (direct_blocks (inode_at (check_and_repair (initial_state img_shared10)) 0)) 0 = 10 /\
   znth 0 (direct_blocks (inode_at (check_and_repair (initial_state img_shared10)) 1)) 0 = 10 /\
   exists pre post l, output (check_and_repair (initial_state img_shared10)) =
       pre ++ MRechecking :: post /\ In (EDuplicate 10 l) post /\ In 0 l /\ In 1 l).
Proof.
  split; [vm_compute; reflexivity|].
  split; [vm_compute; reflexivity|]. split; [vm_compute; reflexivity|].
  split; [vm_compute; reflexivity|]. split; [vm_compute; reflexivity|].
  split; [vm_compute; reflexivity|].
  apply (shared_block_kept_and_rereported img_shared10 0 1 10);
    try (unfold INODE_COUNT, TOTAL_BLOCKS; lia); vm_compute; reflexivity.
Defined.

(** ** C3: a second repair cycle *)

Lemma ok_not_out (s : state) (v : Z) :
  superblock s = good_superblock ->
  (negb (v =? 0) && out_of_range s v = false <-> block_ok v).
Proof.
  intros Hsb. unfold out_of_range, block_ok. rewrite Hsb. cbn [data_block_start good_superblock].
  unfold TOTAL_BLOCKS.
  destruct (Z.eqb_spec v 0); destruct (Z.ltb_spec v 8); destruct (Z.leb_spec 64 v); cbn;
    split; intros Hx; try lia; try discriminate; try reflexivity.
Qed.

Lemma fold_id {A B} (f : A -> B -> A) (l : list B) (a : A) :
  (forall x, In x l -> f a x = a) -> fold_left f l a = a.
Proof.
  induction l as [|x l IH]; intros H; [reflexivity|].
  rewrite fold_left_cons, (H x (or_introl eq_refl)). apply IH. intros y Hy. apply H. right. exact Hy.
Qed.

Lemma znth_map_zrange {A} (d : A) (f : Z -> A) (n j : Z) :
  0 <= j < n -> znth d (map f (zrange 0 n)) j = f j.
Proof.
  intros Hj. unfold znth, zrange. rewrite map_map.
  rewrite nth_indep with (d' := f (0 + Z.of_nat 0)) by (rewrite length_map, length_seq; lia).
  rewrite (map_nth (fun k => f (0 + Z.of_nat k))). rewrite seq_nth by lia. f_equal. lia.
Qed.

Lemma znth_zreplace_default {A} (d : A) (k : Z) (l : list A) :
  0 <= k -> znth d (zreplace k d l) k = d.
Proof.
  intros Hk. destruct (Nat.lt_ge_cases (Z.to_nat k) (length l)).
  - apply znth_zreplace_same; auto.
  - unfold znth, zreplace. rewrite replace_nth_overflow by auto. apply nth_overflow. exact H.
Qed.

Lemma zrange_snoc (n : nat) :
  zrange 0 (Z.of_nat (S n)) = zrange 0 (Z.of_nat n) ++ [Z.of_nat n].
Proof.
  rewrite (zrange_app 0 (Z.of_nat n) (Z.of_nat (S n))) by lia.
  rewrite (zrange_cons (Z.of_nat n) (Z.of_nat (S n))) by lia.
  rewrite (zrange_nil (Z.of_nat n + 1) (Z.of_nat (S n))) by lia. reflexivity.
Qed.

Lemma inode_at_set_inode_same (s : state) (i : Z) (ino : inode_t) :
  0 <= i -> (Z.to_nat i < length (inodes s))%nat -> inode_at (set_inode s i ino) i = ino.
Proof. intros. unfold inode_at, set_inode. cbn [inodes set_inodes]. apply znth_zreplace_same; auto. Qed.

Lemma fix_direct_step_valid (k : Z) (s : state) (j i : Z) :
  0 <= k -> 0 <= i ->
  is_valid_inode (inode_at (fix_direct_step k s j) i) = is_valid_inode (inode_at s i).
Proof.
  intros Hk Hi. destruct (Z.eq_dec k i) as [<-|Hne]; [|rewrite fix_direct_step_inode_other; auto].
  unfold fix_direct_step. destruct_ifs; [|reflexivity].
  unfold count_fixed, inode_at at 1. cbn [inodes set_counters set_inode set_inodes].
  destruct (znth_zreplace_cases empty_inode k (set_direct_block (inode_at s k) j 0) (inodes s) k)
    as [E|E]; rewrite E; [apply set_direct_block_valid|reflexivity].
Qed.

Lemma fix_direct_step_keeps_ok (k : Z) (s : state) (j i j0 : Z) :
  0 <= k -> 0 <= i ->
  block_ok (znth 0 (direct_blocks (inode_at s i)) j0) ->
  block_ok (znth 0 (direct_blocks (inode_at (fix_direct_step k s j) i)) j0).
Proof.
  intros Hk Hi H. destruct (Z.eq_dec k i) as [<-|Hne]; [|rewrite fix_direct_step_inode_other; auto].
  unfold fix_direct_step. destruct_ifs; [|exact H].
  unfold count_fixed, inode_at at 1. cbn [inodes set_counters set_inode set_inodes].
  destruct (znth_zreplace_cases empty_inode k (set_direct_block (inode_at s k) j 0) (inodes s) k)
    as [E|E]; rewrite E; [|exact H].
  cbn [direct_blocks set_direct_block].
  destruct (znth_zreplace_cases 0 j 0 (direct_blocks (inode_at s k)) j0) as [E'|E']; rewrite E';
    [left; reflexivity|exact H].
Qed.

Lemma fix_direct_step_makes_ok (i : Z) (s : state) (j : Z) :
  superblock s = good_superblock -> 0 <= i -> 0 <= j ->
  is_valid_inode (inode_at s i) = true ->
  block_ok (znth 0 (direct_blocks (inode_at (fix_direct_step i s j) i)) j).
Proof.
  intros Hsb Hi Hj Hv. unfold fix_direct_step. cbv zeta.
  destruct (negb (znth 0 (direct_blocks (inode_at s i)) j =? 0) &&
            out_of_range s (znth 0 (direct_blocks (inode_at s i)) j)) eqn:Hc.
  - unfold count_fixed.
    rewrite (inode_at_inodes _ (set_inode s i (set_direct_block (inode_at s i) j 0)) i)
      by reflexivity.
    rewrite inode_at_set_inode_same by (auto; apply valid_inode_in_table; auto).
    cbn [direct_blocks set_direct_block]. left. apply znth_zreplace_default. exact Hj.
  - apply (proj1 (ok_not_out s _ Hsb)). exact Hc.
Qed.

Lemma fix_direct_fold_ok (s : state) (i : Z) :
  superblock s = good_superblock -> 0 <= i -> is_valid_inode (inode_at s i) = true ->
  forall j0, 0 <= j0 < 12 ->
    block_ok (znth 0 (direct_blocks (inode_at (fold_left (fix_direct_step i) (zrange 0 12) s) i)) j0).
Proof.
  intros Hsb Hi Hv j0 Hj0.
  rewrite (zrange_app 0 j0 12) by lia. rewrite (zrange_cons j0 12) by lia.
  rewrite fold_left_app, fold_left_cons.
  apply (fold_inv (fix_direct_step i)
           (fun s' => block_ok (znth 0 (direct_blocks (inode_at s' i)) j0))).
  { intros s' j _ H. apply fix_direct_step_keeps_ok; auto. }
  assert (HP : superblock (fold_left (fix_direct_step i) (zrange 0 j0) s) = good_superblock /\
               is_valid_inode (inode_at (fold_left (fix_direct_step i) (zrange 0 j0) s) i) = true).
  { apply (fold_inv (fix_direct_step i) (fun s' => superblock s' = good_superblock /\
             is_valid_inode (inode_at s' i) = true)); [|auto].
    intros s' j Hj (H1 & H2). apply in_zrange in Hj. split.
    - rewrite (proj1 (proj1 (fix_direct_step_frame i s' j))). exact H1.
    - rewrite fix_direct_step_valid by lia. exact H2. }
  destruct HP as [H1 H2]. apply fix_direct_step_makes_ok; auto; lia.
Qed.

Lemma fix_entries_flag (l es : list Z) (m : bool) (s : state) :
  let r := fold_left fix_entry_step l (es, m, s) in
  (m = true -> snd (fst r) = true) /\ (snd (fst r) = false -> fst (fst r) = es).
Proof.
  revert es m s; induction l as [|a l IH]; intros es m s; cbn zeta.
  - cbn [fold_left fst snd]. split; auto.
  - rewrite fold_left_cons.
    change (fix_entry_step (es, m, s) a) with
      (if negb (znth 0 es a =? 0) && out_of_range s (znth 0 es a)
       then (zreplace a 0 es, true, count_fixed s) else (es, m, s)).
    destruct (negb (znth 0 es a =? 0) && out_of_range s (znth 0 es a)).
    + destruct (IH (zreplace a 0 es) true (count_fixed s)) as [H1 _]. cbv zeta in H1.
      split; intros H; [apply H1; reflexivity|]. rewrite H1 in H by reflexivity. discriminate.
    + apply IH.
Qed.

Lemma write_block_same (img : Z -> Z -> Z) (ind : Z) (es : list Z) (j : Z) :
  write_block img ind es (block_offset ind / BLOCK_SIZE) j = znth 0 es j.
Proof. unfold write_block. rewrite Z.eqb_refl. reflexivity. Qed.

Lemma read_block_znth (img : Z -> Z -> Z) (ind j : Z) :
  0 <= j < ENTRIES_PER_BLOCK ->
  znth 0 (read_block img ind) j = img (block_offset ind / BLOCK_SIZE) j.
Proof. intros Hj. unfold read_block. apply znth_map_zrange. exact Hj. Qed.

(** What [fix_indirect] leaves of inode [i]: a clean inode if its direct
    pointers were clean. *)
Lemma fix_indirect_clean (s : state) (i : Z) :
  superblock s = good_superblock -> 0 <= i -> is_valid_inode (inode_at s i) = true ->
  (forall j, 0 <= j < 12 -> block_ok (znth 0 (direct_blocks (inode_at s i)) j)) ->
  inode_clean (image (fix_indirect s i)) (inode_at (fix_indirect s i) i).
Proof.
  intros Hsb Hi Hv Hd. pose proof (valid_inode_in_table s i Hi Hv) as Hlen.
  unfold fix_indirect. cbv zeta.
  destruct (Z.eqb_spec (indirect_block (inode_at s i)) 0) as [H0|H0]; cbn [negb].
  { split; [exact Hd|]. split; [left; exact H0|]. intros H; contradiction. }
  destruct (out_of_range s (indirect_block (inode_at s i))) eqn:Ho.
  { rewrite (inode_at_inodes (count_fixed (set_inode s i (set_indirect_block (inode_at s i) 0)))
      (set_inode s i (set_indirect_block (inode_at s i) 0)) i) by reflexivity.
    rewrite inode_at_set_inode_same by auto.
    cbn [direct_blocks indirect_block set_indirect_block].
    split; [exact Hd|]. split; [left; reflexivity|]. intros H; contradiction. }
  assert (Hind : block_ok (indirect_block (inode_at s i))).
  { apply (proj1 (ok_not_out s _ Hsb)). rewrite Ho, andb_false_r. reflexivity. }
  generalize (read_block_znth (image s) (indirect_block (inode_at s i))) as Hrd.
  generalize (read_block (image s) (indirect_block (inode_at s i))) as es. intros es Hrd.
  destruct (fix_entries_fold (zrange 0 ENTRIES_PER_BLOCK) es false s)
    as (Hs5 & _ & _ & _ & Hclean & _).
  destruct (fix_entries_flag (zrange 0 ENTRIES_PER_BLOCK) es false s) as [_ Hflag].
  cbv zeta in Hs5, Hclean, Hflag.
  destruct (fold_left fix_entry_step (zrange 0 ENTRIES_PER_BLOCK) (es, false, s))
    as [[es' m'] s5].
  cbn [fst snd] in Hs5, Hclean, Hflag.
  assert (Hi5 : inodes s5 = inodes s) by (rewrite Hs5; reflexivity).
  assert (Him5 : image s5 = image s) by (rewrite Hs5; reflexivity).
  assert (Hok : forall j, 0 <= j < ENTRIES_PER_BLOCK -> block_ok (znth 0 es' j)).
  { intros j Hj. apply (proj1 (ok_not_out s _ Hsb)). apply Hclean; [apply in_zrange|]; lia. }
  destruct m'.
  - rewrite (inode_at_inodes (log_write (WIndirect (block_offset (indirect_block (inode_at s i))))
      (set_image s5 (write_block (image s5) (indirect_block (inode_at s i)) es'))) s i)
      by exact Hi5.
    change (image (log_write ?w (set_image s5 ?img))) with img.
    split; [exact Hd|]. split; [exact Hind|].
    intros _ j Hj. rewrite write_block_same. apply Hok. exact Hj.
  - rewrite (inode_at_inodes s5 s i Hi5), Him5.
    split; [exact Hd|]. split; [exact Hind|].
    intros _ j Hj. rewrite <- (Hrd j Hj), <- (Hflag eq_refl). apply Hok. exact Hj.
Qed.

Lemma fix_direct_fold_frame (s : state) (k i : Z) :
  0 <= k -> 0 <= i ->
  superblock (fold_left (fix_direct_step k) (zrange 0 12) s) = superblock s /\
  is_valid_inode (inode_at (fold_left (fix_direct_step k) (zrange 0 12) s) i) =
    is_valid_inode (inode_at s i).
Proof.
  intros Hk Hi.
  apply (fold_inv (fix_direct_step k) (fun s' => superblock s' = superblock s /\
           is_valid_inode (inode_at s' i) = is_valid_inode (inode_at s i))); [|auto].
  intros s' j _ (H1 & H2). split.
  - rewrite (proj1 (proj1 (fix_direct_step_frame k s' j))). exact H1.
  - rewrite fix_direct_step_valid by auto. exact H2.
Qed.

Lemma fix_bad_step_valid (s : state) (k i : Z) :
  0 <= k -> 0 <= i ->
  is_valid_inode (inode_at (fix_bad_step s k) i) = is_valid_inode (inode_at s i).
Proof.
  intros Hk Hi. unfold fix_bad_step.
  destruct (is_valid_inode (inode_at s k)); [|reflexivity].
  rewrite fix_indirect_keeps_valid by auto.
  apply (fold_inv (fix_direct_step k)
           (fun s' => is_valid_inode (inode_at s' i) = is_valid_inode (inode_at s i)));
    [|reflexivity].
  intros s' j _ H. rewrite fix_direct_step_valid by auto. exact H.
Qed.

(** The bad-block step only zeroes words of the image. *)
Lemma fix_indirect_image (s : state) (k b j : Z) :
  0 <= j < ENTRIES_PER_BLOCK ->
  image (fix_indirect s k) b j = image s b j \/ image (fix_indirect s k) b j = 0.
Proof.
  intros Hj. unfold fix_indirect. cbv zeta.
  destruct (negb (indirect_block (inode_at s k) =? 0)); [|left; reflexivity].
  destruct (out_of_range s (indirect_block (inode_at s k))); [left; reflexivity|].
  generalize (read_block_znth (image s) (indirect_block (inode_at s k))) as Hrd.
  generalize (read_block (image s) (indirect_block (inode_at s k))) as es. intros es Hrd.
  destruct (fix_entries_fold (zrange 0 ENTRIES_PER_BLOCK) es false s)
    as (Hs5 & _ & _ & Hcases & _ & _).
  cbv zeta in Hs5, Hcases.
  destruct (fold_left fix_entry_step (zrange 0 ENTRIES_PER_BLOCK) (es, false, s))
    as [[es' m'] s5].
  cbn [fst snd] in Hs5, Hcases.
  assert (Him5 : image s5 = image s) by (rewrite Hs5; reflexivity).
  destruct m'; [|rewrite Him5; left; reflexivity].
  change (image (log_write ?w (set_image s5 ?img))) with img.
  unfold write_block. rewrite Him5.
  destruct (Z.eqb_spec b (block_offset (indirect_block (inode_at s k)) / BLOCK_SIZE)) as [->|_];
    [|left; reflexivity].
  rewrite <- (Hrd j Hj). apply Hcases.
Qed.

Lemma fix_bad_step_image (s : state) (k b j : Z) :
  0 <= j < ENTRIES_PER_BLOCK ->
  image (fix_bad_step s k) b j = image s b j \/ image (fix_bad_step s k) b j = 0.
Proof.
  intros Hj. unfold fix_bad_step.
  destruct (is_valid_inode (inode_at s k)); [|left; reflexivity].
  assert (E : image (fold_left (fix_direct_step k) (zrange 0 12) s) = image s).
  { apply (fold_inv (fix_direct_step k) (fun s' => image s' = image s)); [|reflexivity].
    intros s' j' _ H. rewrite (proj2 (proj2 (proj2 (fix_direct_step_frame k s' j')))). exact H. }
  rewrite <- E. apply fix_indirect_image. exact Hj.
Qed.

Lemma inode_clean_image (img img' : Z -> Z -> Z) (ino : inode_t) :
  (forall b j, 0 <= j < ENTRIES_PER_BLOCK -> img' b j = img b j \/ img' b j = 0) ->
  inode_clean img ino -> inode_clean img' ino.
Proof.
  intros Himg (Hd & Hi & He). split; [exact Hd|]. split; [exact Hi|].
  intros Hne j Hj. destruct (Himg (block_offset (indirect_block ino) / BLOCK_SIZE) j Hj) as [E|E];
    rewrite E; [apply He; auto|left; reflexivity].
Qed.

(** After the bad-block loop under the supported superblock, every valid
    inode is clean. *)
Lemma fix_bad_fold_repaired (s : state) :
  superblock s = good_superblock ->
  repaired (fold_left fix_bad_step (zrange 0 INODE_COUNT) s).
Proof.
  intros Hsb.
  assert (Hgen : forall n : nat, (n <= 80)%nat ->
    let s' := fold_left fix_bad_step (zrange 0 (Z.of_nat n)) s in
    superblock s' = good_superblock /\
    forall i, 0 <= i < Z.of_nat n -> is_valid_inode (inode_at s' i) = true ->
      inode_clean (image s') (inode_at s' i)).
  { induction n as [|n IH]; intros Hn; cbv zeta.
    - rewrite zrange_nil by lia. split; [exact Hsb|]. intros; lia.
    - rewrite zrange_snoc, fold_left_app. cbn [fold_left].
      destruct (IH ltac:(lia)) as [Hs' Hc']. cbv zeta in Hs', Hc'.
      set (s' := fold_left fix_bad_step (zrange 0 (Z.of_nat n)) s) in *.
      split; [rewrite (proj1 (proj1 (fix_bad_step_frame s' (Z.of_nat n)))); exact Hs'|].
      intros i Hi Hv.
      destruct (Z.eq_dec i (Z.of_nat n)) as [->|Hne].
      + rewrite fix_bad_step_valid in Hv by lia.
        unfold fix_bad_step. rewrite Hv.
        destruct (fix_direct_fold_frame s' (Z.of_nat n) (Z.of_nat n)) as [Hf1 Hf2]; try lia.
        apply fix_indirect_clean.
        * rewrite Hf1. exact Hs'.
        * lia.
        * rewrite Hf2. exact Hv.
        * apply fix_direct_fold_ok; auto; lia.
      + rewrite fix_bad_step_inode_other in Hv |- * by lia.
        apply (inode_clean_image (image s')).
        * intros b j Hj. apply fix_bad_step_image. exact Hj.
        * apply Hc'; [lia|exact Hv]. }
  destruct (Hgen 80%nat ltac:(lia)) as [H1 H2]. split; [exact H1|]. exact H2.
Qed.

(** On a repaired state the bad-block step of any inode does nothing. *)
Lemma fix_bad_step_repaired_id (s : state) (k : Z) :
  repaired s -> 0 <= k < INODE_COUNT -> fix_bad_step s k = s.
Proof.
  intros (Hsb & Hrep) Hk. unfold fix_bad_step.
  destruct (is_valid_inode (inode_at s k)) eqn:Hv; [|reflexivity].
  destruct (Hrep k Hk Hv) as (Hd & Hind & Hent).
  rewrite (fold_id (fix_direct_step k) (zrange 0 12) s).
  2:{ intros j Hj. apply in_zrange in Hj. unfold fix_direct_step. cbv zeta.
      rewrite (proj2 (ok_not_out s _ Hsb) (Hd j Hj)). reflexivity. }
  unfold fix_indirect. cbv zeta.
  destruct (Z.eqb_spec (indirect_block (inode_at s k)) 0) as [H0|H0]; cbn [negb]; [reflexivity|].
  assert (Ho : out_of_range s (indirect_block (inode_at s k)) = false).
  { pose proof (proj2 (ok_not_out s _ Hsb) Hind) as H.
    destruct (Z.eqb_spec (indirect_block (inode_at s k)) 0); [contradiction|exact H]. }
  rewrite Ho.
  destruct (fix_entries_fold (zrange 0 ENTRIES_PER_BLOCK)
              (read_block (image s) (indirect_block (inode_at s k))) false s)
    as (_ & _ & _ & _ & _ & Hid).
  cbv zeta in Hid. rewrite Hid; [reflexivity|].
  apply forallb_forall. intros j Hj. apply in_zrange in Hj.
  rewrite read_block_znth by exact Hj.
  rewrite (proj2 (ok_not_out s _ Hsb) (Hent H0 j Hj)). reflexivity.
Qed.

Lemma repaired_transport (s s' : state) :
  superblock s' = superblock s -> inodes s' = inodes s -> image s' = image s ->
  repaired s -> repaired s'.
Proof.
  intros Hsb Hin Him (H1 & H2). split; [rewrite Hsb; exact H1|].
  intros i Hi Hv. rewrite (inode_at_inodes s' s i Hin), Him.
  rewrite (inode_at_inodes s' s i Hin) in Hv. apply H2; auto.
Qed.

Lemma bitmap_matches_transport (s s' : state) :
  inode_bitmap s' = inode_bitmap s -> inodes s' = inodes s ->
  bitmap_matches s -> bitmap_matches s'.
Proof.
  intros Hb Hin H i Hi. rewrite Hb, (inode_at_inodes s' s i Hin). apply H. exact Hi.
Qed.

(** After the inode-bitmap loop, bit [i] is the validity of inode [i], when
    the bitmap holds the 80 bits. *)
Lemma fix_inode_bitmap_fold_matches (s : state) :
  (10 <= length (inode_bitmap s))%nat ->
  bitmap_matches (fold_left fix_inode_bitmap_step (zrange 0 INODE_COUNT) s).
Proof.
  intros Hlen.
  assert (Hgen : forall n : nat, (n <= 80)%nat ->
    let s' := fold_left fix_inode_bitmap_step (zrange 0 (Z.of_nat n)) s in
    inodes s' = inodes s /\ length (inode_bitmap s') = length (inode_bitmap s) /\
    forall i, 0 <= i < Z.of_nat n ->
      get_bit (inode_bitmap s') i = Z.b2z (is_valid_inode (inode_at s' i))).
  { induction n as [|n IH]; intros Hn; cbv zeta.
    - rewrite zrange_nil by lia. split; [reflexivity|]. split; [reflexivity|]. intros; lia.
    - rewrite zrange_snoc, fold_left_app. cbn [fold_left].
      destruct (IH ltac:(lia)) as (Hin & Hl & Hb). cbv zeta in Hin, Hl, Hb.
      set (s' := fold_left fix_inode_bitmap_step (zrange 0 (Z.of_nat n)) s) in *.
      assert (Hbyte : (Z.to_nat (Z.of_nat n / 8) < length (inode_bitmap s'))%nat).
      { rewrite Hl. assert (Z.of_nat n / 8 < 10) by (apply Z.div_lt_upper_bound; lia). lia. }
      unfold fix_inode_bitmap_step. cbv zeta.
      destruct (Z.eqb_spec (get_bit (inode_bitmap s') (Z.of_nat n)) 0) as [Hz|Hz];
        destruct (is_valid_inode (inode_at s' (Z.of_nat n))) eqn:Hv; cbn [negb andb].
      + cbn [inodes inode_bitmap count_fixed set_counters set_inode_bitmap].
        split; [exact Hin|]. split; [rewrite set_bit_length; exact Hl|].
        intros i Hi.
        rewrite (inode_at_inodes (count_fixed (set_inode_bitmap s' (set_bit (inode_bitmap s') (Z.of_nat n))))
          s' i) by reflexivity.
        rewrite get_bit_set_bit by (auto; lia).
        destruct (Z.eqb_spec (Z.of_nat n) i) as [<-|Hne]; [rewrite Hv; reflexivity|].
        apply Hb. lia.
      + split; [exact Hin|]. split; [exact Hl|]. intros i Hi.
        destruct (Z.eq_dec i (Z.of_nat n)) as [->|Hne]; [rewrite Hv, Hz; reflexivity|].
        apply Hb. lia.
      + split; [exact Hin|]. split; [exact Hl|]. intros i Hi.
        destruct (Z.eq_dec i (Z.of_nat n)) as [->|Hne]; [|apply Hb; lia].
        rewrite Hv. destruct (get_bit_01 (inode_bitmap s') (Z.of_nat n)) as [E|E];
          try lia; exact E.
      + cbn [inodes inode_bitmap count_fixed set_counters set_inode_bitmap].
        split; [exact Hin|]. split; [rewrite clear_bit_length; exact Hl|].
        intros i Hi.
        rewrite (inode_at_inodes (count_fixed (set_inode_bitmap s' (clear_bit (inode_bitmap s') (Z.of_nat n))))
          s' i) by reflexivity.
        rewrite get_bit_clear_bit by (auto; lia).
        destruct (Z.eqb_spec (Z.of_nat n) i) as [<-|Hne]; [rewrite Hv; reflexivity|].
        apply Hb. lia. }
  destruct (Hgen 80%nat ltac:(lia)) as (_ & _ & H). intros i Hi. apply H. exact Hi.
Qed.

Lemma fix_inode_bitmap_step_matches_id (s : state) (i : Z) :
  bitmap_matches s -> 0 <= i < INODE_COUNT -> fix_inode_bitmap_step s i = s.
Proof.
  intros H Hi. unfold fix_inode_bitmap_step. cbv zeta. rewrite (H i Hi).
  destruct (is_valid_inode (inode_at s i)); reflexivity.
Qed.

(** One run of [fix_errors] leaves a repaired state whose inode bitmap matches
    the inodes. *)
Lemma fix_errors_repaired (x : state) :
  (10 <= length (inode_bitmap x))%nat ->
  repaired (fix_errors x) /\ bitmap_matches (fix_errors x).
Proof.
  intros Hlen.
  pose proof (fix_loops_frame x) as H. cbv zeta in H.
  unfold fix_errors. cbv zeta.
  set (s1 := fix_superblock x) in *.
  set (s2 := fold_left fix_inode_bitmap_step (zrange 0 INODE_COUNT) s1) in *.
  set (s3 := fold_left fix_data_bitmap_step
               (zrange (to_int32 (data_block_start (superblock s2))) TOTAL_BLOCKS) s2) in *.
  set (s4 := fold_left fix_bad_step (zrange 0 INODE_COUNT) s3) in *.
  destruct H as ((Hsb2 & _) & _ & _ & _ & (Hsb3 & _) & Hb3 & Hn3 & _ & _ & Hb4 & _).
  destruct (fix_errors_tail s4) as (_ & Ts & Tb & _ & Tn & Tim & _).
  assert (Hs1 : superblock s1 = good_superblock)
    by (unfold s1; rewrite fix_superblock_eq; reflexivity).
  assert (Hm2 : bitmap_matches s2).
  { apply fix_inode_bitmap_fold_matches. unfold s1. rewrite fix_superblock_eq. exact Hlen. }
  assert (Hr4 : repaired s4).
  { apply fix_bad_fold_repaired. rewrite Hsb3, Hsb2. exact Hs1. }
  assert (Hm4 : bitmap_matches s4).
  { intros i Hi. rewrite Hb4, Hb3, (Hm2 i Hi).
    rewrite <- (inode_at_inodes s3 s2 i Hn3). f_equal.
    apply (fold_inv fix_bad_step
             (fun s' => is_valid_inode (inode_at s3 i) = is_valid_inode (inode_at s' i)));
      [|reflexivity].
    intros s' k Hk H. apply in_zrange in Hk. rewrite fix_bad_step_valid by lia. exact H. }
  split.
  - apply (repaired_transport s4); auto.
  - apply (bitmap_matches_transport s4); auto.
Qed.

(** [fix_errors] on a repaired state whose inode bitmap matches the inodes
    changes neither the superblock, the inode bitmap, the inodes nor the
    image. *)
Lemma fix_errors_keeps_repaired (y : state) :
  repaired y -> bitmap_matches y ->
  superblock (fix_errors y) = superblock y /\ inode_bitmap (fix_errors y) = inode_bitmap y /\
  inodes (fix_errors y) = inodes y /\ image (fix_errors y) = image y.
Proof.
  intros Hr Hm.
  pose proof (fix_loops_frame y) as H. cbv zeta in H.
  unfold fix_errors. cbv zeta.
  set (s1 := fix_superblock y) in *.
  set (s2 := fold_left fix_inode_bitmap_step (zrange 0 INODE_COUNT) s1) in *.
  set (s3 := fold_left fix_data_bitmap_step
               (zrange (to_int32 (data_block_start (superblock s2))) TOTAL_BLOCKS) s2) in *.
  set (s4 := fold_left fix_bad_step (zrange 0 INODE_COUNT) s3) in *.
  destruct H as ((Hsb2 & _) & _ & Hn2 & Him2 & (Hsb3 & _) & Hb3 & Hn3 & Him3 & _ & Hb4 & _).
  destruct (fix_errors_tail s4) as (_ & Ts & Tb & _ & Tn & Tim & _).
  assert (Hs1 : superblock s1 = superblock y).
  { unfold s1. rewrite fix_superblock_eq. symmetry. apply Hr. }
  assert (Hb1 : inode_bitmap s1 = inode_bitmap y) by (unfold s1; rewrite fix_superblock_eq; reflexivity).
  assert (Hn1 : inodes s1 = inodes y) by (unfold s1; rewrite fix_superblock_eq; reflexivity).
  assert (Him1 : image s1 = image y) by (unfold s1; rewrite fix_superblock_eq; reflexivity).
  assert (E2 : s2 = s1).
  { unfold s2. apply fold_id. intros i Hi. apply in_zrange in Hi.
    apply fix_inode_bitmap_step_matches_id; [|exact Hi].
    apply (bitmap_matches_transport y); auto. }
  assert (E4 : s4 = s3).
  { unfold s4. apply fold_id. intros k Hk. apply in_zrange in Hk.
    apply fix_bad_step_repaired_id; [|exact Hk].
    apply (repaired_transport y); [| | |exact Hr].
    - rewrite Hsb3, E2. exact Hs1.
    - rewrite Hn3, E2. exact Hn1.
    - rewrite Him3, E2. exact Him1. }
  rewrite Ts, Tb, Tn, Tim, E4, Hsb3, Hb3, Hn3, Him3, E2.
  split; [exact Hs1|]. split; [exact Hb1|]. split; [exact Hn1|exact Him1].
Qed.

Lemma reset_counters_fields (s : state) :
  superblock (reset_counters s) = superblock s /\ inode_bitmap (reset_counters s) = inode_bitmap s /\
  inodes (reset_counters s) = inodes s /\ image (reset_counters s) = image s.
Proof. repeat split. Qed.

(** C3 (corrected): a second validate-then-repair cycle, run on the repaired
    state with the counters reset, leaves the superblock, the inode bitmap,
    the inodes and the image exactly as the first cycle left them (when the
    inode bitmap holds the 80 bits).  The data bitmap is not covered: the
    second cycle can still change it. *)
Theorem second_repair_cycle_keeps_structure (s : state) :
  (10 <= length (inode_bitmap s))%nat ->
  superblock (repair_cycle (reset_counters (repair_cycle s))) = superblock (repair_cycle s) /\
  inode_bitmap (repair_cycle (reset_counters (repair_cycle s))) = inode_bitmap (repair_cycle s) /\
  inodes (repair_cycle (reset_counters (repair_cycle s))) = inodes (repair_cycle s) /\
  image (repair_cycle (reset_counters (repair_cycle s))) = image (repair_cycle s).
Proof.
  intros Hlen.
  set (s1 := repair_cycle s).
  assert (H1 : repaired s1 /\ bitmap_matches s1).
  { unfold s1, repair_cycle. apply fix_errors_repaired.
    destruct (run_checks_checked s) as (_ & Hb & _). rewrite Hb. exact Hlen. }
  destruct H1 as [Hr1 Hm1].
  change (repair_cycle (reset_counters s1)) with (fix_errors (snd (run_checks (reset_counters s1)))).
  destruct (run_checks_checked (reset_counters s1)) as (Hsb & Hb & _ & Hin & Him & _).
  destruct (reset_counters_fields s1) as (Rsb & Rb & Rin & Rim).
  set (y := snd (run_checks (reset_counters s1))) in *.
  destruct (fix_errors_keeps_repaired y) as (A & B & C & D).
  - apply (repaired_transport s1); [congruence|congruence|congruence|exact Hr1].
  - apply (bitmap_matches_transport s1); [congruence|congruence|exact Hm1].
  - rewrite A, B, C, D. repeat split; congruence.
Qed.

(** C3, counterexample: on [img_start9] the first cycle resets the region
    start to 8 and clears data-bitmap bit 0 from the stale reference map;
    the second cycle finds block 8 referenced but unmarked and sets the bit
    again, counting one more fix. *)
Lemma second_cycle_changes_data_bitmap :
  let c1 := repair_cycle (initial_state img_start9) in
  let c2 := repair_cycle (reset_counters c1) in
  get_bit (data_bitmap c1) 0 = 0 /\ get_bit (data_bitmap c2) 0 = 1 /\
  errors_found c2 = 1 /\ errors_fixed c2 = 1.
Proof. vm_compute. repeat split. Qed.

Lemma second_repair_cycle_keeps_structure_witness :
  (10 <= length (inode_bitmap (initial_state img_start9)))%nat /\
  superblock (repair_cycle (reset_counters (repair_cycle (initial_state img_start9)))) =
    superblock (repair_cycle (initial_state img_start9)) /\
  inode_bitmap (repair_cycle (reset_counters (repair_cycle (initial_state img_start9)))) =
    inode_bitmap (repair_cycle (initial_state img_start9)) /\
  inodes (repair_cycle (reset_counters (repair_cycle (initial_state img_start9)))) =
    inodes (repair_cycle (initial_state img_start9)) /\
  image (repair_cycle (reset_counters (repair_cycle (initial_state img_start9)))) =
    image (repair_cycle (initial_state img_start9)).
Proof.
  split; [apply Nat.leb_le; vm_compute; reflexivity|].
  apply (second_repair_cycle_keeps_structure (initial_state img_start9)).
  apply Nat.leb_le. vm_compute. reflexivity.
Defined.

(** ** C5: order of the writes *)

Lemma fix_direct_step_writes (i : Z) (s : state) (j : Z) :
  writes (fix_direct_step i s j) = writes s.
Proof. unfold fix_direct_step. destruct_ifs; reflexivity. Qed.

Lemma fix_direct_step_indirect (k : Z) (s : state) (j i : Z) :
  0 <= k -> 0 <= i ->
  indirect_block (inode_at (fix_direct_step k s j) i) = indirect_block (inode_at s i).
Proof.
  intros Hk Hi. destruct (Z.eq_dec k i) as [<-|Hne]; [|rewrite fix_direct_step_inode_other; auto].
  unfold fix_direct_step. destruct_ifs; [|reflexivity].
  unfold count_fixed, inode_at at 1. cbn [inodes set_counters set_inode set_inodes].
  destruct (znth_zreplace_cases empty_inode k (set_direct_block (inode_at s k) j 0) (inodes s) k)
    as [E|E]; rewrite E; reflexivity.
Qed.

Lemma fix_direct_fold_keeps (s : state) (k : Z) :
  0 <= k ->
  let t := fold_left (fix_direct_step k) (zrange 0 12) s in
  superblock t = superblock s /\ image t = image s /\ writes t = writes s /\
  (forall i, 0 <= i -> indirect_block (inode_at t i) = indirect_block (inode_at s i)) /\
  (forall i, 0 <= i -> i <> k -> inode_at t i = inode_at s i).
Proof.
  intros Hk. cbv zeta.
  apply (fold_inv (fix_direct_step k) (fun t => superblock t = superblock s /\ image t = image s /\
    writes t = writes s /\
    (forall i, 0 <= i -> indirect_block (inode_at t i) = indirect_block (inode_at s i)) /\
    (forall i, 0 <= i -> i <> k -> inode_at t i = inode_at s i))).
  - intros t j _ (H1 & H2 & H3 & H4 & H5).
    destruct (fix_direct_step_frame k t j) as ((F1 & _) & _ & _ & F4).
    split; [congruence|]. split; [congruence|]. split; [rewrite fix_direct_step_writes; exact H3|].
    split; [intros i Hi; rewrite fix_direct_step_indirect by auto; auto|].
    intros i Hi Hne. rewrite fix_direct_step_inode_other by auto. auto.
  - repeat split; auto.
Qed.

Lemma in_read_block (img : Z -> Z -> Z) (ind v : Z) :
  In v (read_block img ind) <->
  exists j, 0 <= j < ENTRIES_PER_BLOCK /\ img (block_offset ind / BLOCK_SIZE) j = v.
Proof.
  unfold read_block. rewrite in_map_iff. split.
  - intros (j & E & Hj). apply in_zrange in Hj. exists j. auto.
  - intros (j & Hj & E). exists j. split; [exact E|]. apply in_zrange. exact Hj.
Qed.

Lemma block_offset_index (ind : Z) :
  0 <= ind < TOTAL_BLOCKS -> block_offset ind / BLOCK_SIZE = ind.
Proof.
  intros H. unfold block_offset, BLOCK_SIZE. unfold TOTAL_BLOCKS in H.
  rewrite Z.mod_small by lia. apply Z.div_mul. lia.
Qed.

Lemma forallb_false_exists {A} (f : A -> bool) (l : list A) :
  forallb f l = false -> exists x, In x l /\ f x = false.
Proof.
  induction l as [|x l IH]; cbn; [discriminate|].
  destruct (f x) eqn:E; cbn; intros H; [destruct (IH H) as (y & Hy & Hf); eauto|eauto].
Qed.

Lemma count_fixed_fields (x : state) :
  superblock (count_fixed x) = superblock x /\ inodes (count_fixed x) = inodes x /\
  image (count_fixed x) = image x /\ writes (count_fixed x) = writes x.
Proof. repeat split. Qed.

Lemma set_inode_fields (x : state) (i : Z) (ino : inode_t) :
  superblock (set_inode x i ino) = superblock x /\ image (set_inode x i ino) = image x /\
  writes (set_inode x i ino) = writes x.
Proof. repeat split. Qed.

Section BadFold.

Variable s : state.

Lemma bad_fold_inv_step (n : Z) (t : state) :
  0 <= n < INODE_COUNT -> bad_fold_inv s n t -> bad_fold_inv s (n + 1) (fix_bad_step t n).
Proof.
  intros Hn (Hsb & Hino & ws & Hw & Hsound & Hcomp & Himg).
  assert (Htn : inode_at t n = inode_at s n) by (apply Hino; lia).
  unfold fix_bad_step. rewrite Htn.
  destruct (is_valid_inode (inode_at s n)) eqn:Hv.
  2:{ split; [exact Hsb|]. split; [intros k Hk; apply Hino; lia|].
      exists ws. split; [exact Hw|]. split; [exact Hsound|]. split; [|exact Himg].
      intros i Hi Hd. destruct (Z.eq_dec i n) as [->|Hne]; [destruct Hd as (Hvi & _); congruence|].
      apply Hcomp; auto; lia. }
  pose proof (fix_direct_fold_keeps t n ltac:(lia)) as Hkeep. cbv zeta in Hkeep.
  revert Hkeep. generalize (fold_left (fix_direct_step n) (zrange 0 12) t) as t1.
  intros t1 (H1sb & H1img & H1w & H1ind & H1oth).
  assert (Hind : indirect_block (inode_at t1 n) = indirect_block (inode_at s n))
    by (rewrite H1ind by lia; rewrite Htn; reflexivity).
  assert (Hsb1 : superblock t1 = good_superblock) by congruence.
  assert (Hoth : forall k, n + 1 <= k < INODE_COUNT -> inode_at t1 k = inode_at s k).
  { intros k Hk. rewrite H1oth by lia. apply Hino. lia. }
  unfold fix_indirect. rewrite Hind.
  set (ind := indirect_block (inode_at s n)) in *.
  (* an inode whose indirect block is dirty has it in [8, 64) *)
  destruct (Z.eqb_spec ind 0) as [H0|H0]; cbn [negb].
  { split; [exact Hsb1|]. split; [exact Hoth|].
    exists ws. split; [congruence|]. split; [exact Hsound|]. split.
    - intros i Hi Hd. destruct (Z.eq_dec i n) as [->|Hne].
      + destruct Hd as (_ & Hr & _). fold ind in Hr. lia.
      + apply Hcomp; auto; lia.
    - rewrite H1img. exact Himg. }
  destruct (out_of_range t1 ind) eqn:Ho.
  { destruct (count_fixed_fields (set_inode t1 n (set_indirect_block (inode_at t1 n) 0)))
      as (C1 & C2 & C3 & C4).
    destruct (set_inode_fields t1 n (set_indirect_block (inode_at t1 n) 0)) as (D1 & D2 & D3).
    split; [rewrite C1, D1; exact Hsb1|]. split.
    { intros k Hk. rewrite (inode_at_inodes _ _ k C2).
      rewrite inode_at_set_inode_other by lia. apply Hoth. exact Hk. }
    exists ws. split; [rewrite C4, D3; congruence|]. split; [exact Hsound|]. split.
    - intros i Hi Hd. destruct (Z.eq_dec i n) as [->|Hne].
      + destruct Hd as (_ & Hr & _). fold ind in Hr.
        assert (Hok : block_ok ind) by (right; exact Hr).
        apply (proj2 (ok_not_out t1 ind Hsb1)) in Hok. rewrite Ho, andb_true_r in Hok.
        apply negb_false_iff, Z.eqb_eq in Hok. contradiction.
      + apply Hcomp; auto; lia.
    - rewrite C3, D2, H1img. exact Himg. }
  assert (Hr : 8 <= ind < TOTAL_BLOCKS).
  { assert (Hok : block_ok ind).
    { apply (proj1 (ok_not_out t1 ind Hsb1)). rewrite Ho, andb_false_r. reflexivity. }
    destruct Hok; [contradiction|exact H]. }
  assert (Hidx : block_offset ind / BLOCK_SIZE = ind) by (apply block_offset_index; lia).
  remember (read_block (image t1) ind) as es eqn:Hes.
  destruct (fix_entries_fold (zrange 0 ENTRIES_PER_BLOCK) es false t1)
    as (Hs5 & _ & _ & _ & Hclean & Hnone).
  destruct (fix_entries_flag (zrange 0 ENTRIES_PER_BLOCK) es false t1) as [_ Hflag].
  cbv zeta in Hs5, Hclean, Hnone, Hflag.
  destruct (fold_left fix_entry_step (zrange 0 ENTRIES_PER_BLOCK) (es, false, t1))
    as [[es' m'] s5].
  cbn [fst snd] in Hs5, Hclean, Hnone, Hflag.
  assert (Hes_j : forall j, 0 <= j < ENTRIES_PER_BLOCK -> znth 0 es j = image t ind j).
  { intros j Hj. rewrite Hes, read_block_znth by exact Hj. rewrite Hidx, H1img. reflexivity. }
  assert (Hbad : forall v, negb (v =? 0) && out_of_range t1 v = true <-> ~ block_ok v).
  { intros v. rewrite <- (ok_not_out t1 v Hsb1). destruct (negb (v =? 0) && out_of_range t1 v);
      split; intros H; auto; try discriminate; congruence. }
  assert (Hin : forall v, In v (read_block (image s) ind) <->
                  exists j, 0 <= j < ENTRIES_PER_BLOCK /\ image s ind j = v).
  { intros v. rewrite in_read_block, Hidx. reflexivity. }
  assert (Hs5i : inodes s5 = inodes t1) by (rewrite Hs5; reflexivity).
  assert (Hs5m : image s5 = image t) by (rewrite Hs5; exact H1img).
  assert (Hs5w : writes s5 = writes t) by (rewrite Hs5; exact H1w).
  assert (Hs5s : superblock s5 = good_superblock) by (rewrite Hs5; exact Hsb1).
  destruct m'.
  - (* the block is written *)
    assert (Hdn : indirect_dirty s n).
    { split; [exact Hv|]. split; [exact Hr|].
      destruct (forallb (fun j => negb (negb (znth 0 es j =? 0) && out_of_range t1 (znth 0 es j)))
                  (zrange 0 ENTRIES_PER_BLOCK)) eqn:Hall.
      { specialize (Hnone eq_refl). discriminate. }
      destruct (forallb_false_exists _ _ Hall) as (j & Hj & Hfj).
      apply in_zrange in Hj. apply negb_false_iff, Hbad in Hfj.
      rewrite Hes_j in Hfj by exact Hj.
      destruct (Himg ind) as [E|(_ & Hok)].
      - exists (image s ind j). split; [apply Hin; exists j; split; auto|].
        rewrite <- E. exact Hfj.
      - exfalso. apply Hfj. apply Hok. exact Hj. }
    split; [exact Hs5s|]. split.
    { intros k Hk. unfold inode_at at 1. cbn [inodes log_write set_image].
      rewrite Hs5i. apply Hoth. exact Hk. }
    exists (ws ++ [WIndirect (block_offset ind)]).
    split; [cbn [writes log_write set_image]; rewrite Hs5w, Hw, app_assoc; reflexivity|].
    split.
    { intros w Hw'. apply in_app_or in Hw'. destruct Hw' as [Hw'|[<-|[]]]; [apply Hsound; exact Hw'|].
      exists n. split; [exact Hn|]. split; [exact Hdn|reflexivity]. }
    split.
    { intros i Hi Hd. apply in_or_app. destruct (Z.eq_dec i n) as [->|Hne].
      - right. left. reflexivity.
      - left. apply Hcomp; auto; lia. }
    intros b. cbn [image log_write set_image]. rewrite Hs5m. unfold write_block. rewrite Hidx.
    destruct (Z.eqb_spec b ind) as [->|Hne].
    + right. split; [apply in_or_app; right; left; reflexivity|].
      intros j Hj. apply (proj1 (ok_not_out t1 _ Hsb1)). apply Hclean; [apply in_zrange|]; lia.
    + destruct (Himg b) as [E|(Hb & Hok)]; [left; exact E|right].
      split; [apply in_or_app; left; exact Hb|exact Hok].
  - (* nothing written *)
    specialize (Hflag eq_refl). subst es'.
    split; [exact Hs5s|]. split.
    { intros k Hk. rewrite (inode_at_inodes s5 t1 k Hs5i). apply Hoth. exact Hk. }
    exists ws. split; [rewrite Hs5w; exact Hw|]. split; [exact Hsound|]. split.
    + intros i Hi Hd. destruct (Z.eq_dec i n) as [->|Hne]; [|apply Hcomp; auto; lia].
      destruct (Himg ind) as [E|(Hb & _)]; [|exact Hb].
      exfalso. destruct Hd as (_ & _ & v & Hv1 & Hv2). apply Hin in Hv1.
      destruct Hv1 as (j & Hj & Ej).
      specialize (Hclean j ltac:(apply in_zrange; lia) ltac:(lia)).
      rewrite Hes_j, E, Ej in Hclean by exact Hj. apply Hbad in Hv2. congruence.
    + rewrite Hs5m. exact Himg.
Qed.

Lemma bad_fold_inv_fold (n : nat) (t : state) :
  (n <= 80)%nat -> bad_fold_inv s 0 t ->
  bad_fold_inv s (Z.of_nat n) (fold_left fix_bad_step (zrange 0 (Z.of_nat n)) t).
Proof.
  intros Hn Ht. induction n as [|n IH]; [exact Ht|].
  rewrite zrange_snoc, fold_left_app. cbn [fold_left].
  rewrite Nat2Z.inj_succ, <- Z.add_1_r.
  apply bad_fold_inv_step; [unfold INODE_COUNT; lia|]. apply IH. lia.
Qed.

End BadFold.

Lemma fix_inode_bitmap_step_writes (s : state) (i : Z) :
  writes (fix_inode_bitmap_step s i) = writes s.
Proof. unfold fix_inode_bitmap_step. destruct_ifs; reflexivity. Qed.

Lemma fix_data_bitmap_step_writes (s : state) (i : Z) :
  writes (fix_data_bitmap_step s i) = writes s.
Proof. unfold fix_data_bitmap_step. destruct_ifs; reflexivity. Qed.

(** C5 (as the code does it): the writes [fix_errors] adds are, first, one
    write of the single-indirect block (offset [4096 * ind]) of each valid
    inode whose indirect pointer [ind] lies in [8, 64) and whose block holds
    an entry that is neither 0 nor in [8, 64), and no other write; then the
    superblock at offset 0, the inode bitmap at 4096, the data bitmap at 8192
    and the inode records [0 .. 79] at [12288 + 256 * i], in that order. *)
Theorem fix_errors_write_order (s : state) :
  exists ws,
    writes (fix_errors s) = writes s ++ ws ++
      [WSuperblock 0; WInodeBitmap 4096; WDataBitmap 8192] ++
      map (fun i => WInode i (12288 + 256 * i)) (zrange 0 INODE_COUNT) /\
    (forall w, In w ws -> exists i, 0 <= i < INODE_COUNT /\ indirect_dirty s i /\
       w = WIndirect (block_offset (indirect_block (inode_at s i)))) /\
    (forall i, 0 <= i < INODE_COUNT -> indirect_dirty s i ->
       In (WIndirect (block_offset (indirect_block (inode_at s i)))) ws).
Proof.
  pose proof (fix_loops_frame s) as H. cbv zeta in H.
  unfold fix_errors. cbv zeta.
  set (s1 := fix_superblock s) in *.
  set (s2 := fold_left fix_inode_bitmap_step (zrange 0 INODE_COUNT) s1) in *.
  set (s3 := fold_left fix_data_bitmap_step
               (zrange (to_int32 (data_block_start (superblock s2))) TOTAL_BLOCKS) s2) in *.
  set (s4 := fold_left fix_bad_step (zrange 0 INODE_COUNT) s3) in *.
  destruct H as ((Hsb2 & _) & _ & Hn2 & Hm2 & (Hsb3 & _) & _ & Hn3 & Hm3 & (Hsb4 & _) & _).
  assert (Hs1 : superblock s1 = good_superblock /\ writes s1 = writes s /\
                inodes s1 = inodes s /\ image s1 = image s)
    by (unfold s1; rewrite fix_superblock_eq; repeat split).
  destruct Hs1 as (Hsb1 & Hw1 & Hn1 & Hm1).
  assert (Hw2 : writes s2 = writes s1).
  { apply (fold_inv fix_inode_bitmap_step (fun t => writes t = writes s1)); [|reflexivity].
    intros t i _ Ht. rewrite fix_inode_bitmap_step_writes. exact Ht. }
  assert (Hw3 : writes s3 = writes s2).
  { apply (fold_inv fix_data_bitmap_step (fun t => writes t = writes s2)); [|reflexivity].
    intros t i _ Ht. rewrite fix_data_bitmap_step_writes. exact Ht. }
  assert (Hinv : bad_fold_inv s 0 s3).
  { split; [congruence|]. split.
    { intros k _. apply inode_at_inodes. congruence. }
    exists []. rewrite app_nil_r. split; [congruence|]. split; [intros w []|].
    split; [intros i Hi; lia|]. intros b. left. congruence. }
  destruct (bad_fold_inv_fold s 80 s3 (le_n _) Hinv) as (_ & _ & ws & Hw & Hsound & Hcomp & _).
  change (Z.of_nat 80) with INODE_COUNT in Hw, Hsound, Hcomp. fold s4 in Hw.
  destruct (fix_errors_tail s4) as (Ht & _). cbv zeta in Ht.
  exists ws. split; [|split; [exact Hsound|exact Hcomp]].
  rewrite Ht, Hw, Hsb4, Hsb3, Hsb2, Hsb1.
  rewrite <- !app_assoc. f_equal. f_equal. cbn [app]. f_equal. f_equal. f_equal.
  apply map_ext_in. intros i Hi. apply in_zrange in Hi.
  unfold inode_offset. rewrite Hsb4, Hsb3, Hsb2, Hsb1. cbn [inode_table_start good_superblock].
  f_equal. unfold BLOCK_SIZE, INODE_SIZE. unfold INODE_COUNT in Hi.
  change (2 ^ 32) with 4294967296. rewrite Z.mod_small; lia.
Qed.

(** C5 (counterexample): inode 0's single-indirect block 8 holds the bad
    entry 100; the repair writes that block (offset 32768) before the
    superblock. *)
Lemma indirect_block_written_first :
  firstn 2 (writes (repair_cycle (initial_state img_bad_entry))) = [WIndirect 32768; WSuperblock 0].
Proof. vm_compute. reflexivity. Qed.

(** ** Further properties of the code *)


(** [set_bit] on a bit inside the bitmap makes it read 1, leaves every other
    bit and the bitmap length unchanged. *)
Theorem set_bit_sets_only_that_bit (bm : list Z) (k : Z) :
  0 <= k -> (Z.to_nat (k / 8) < length bm)%nat ->
  get_bit (set_bit bm k) k = 1 /\
  (forall m, 0 <= m -> m <> k -> get_bit (set_bit bm k) m = get_bit bm m) /\
  length (set_bit bm k) = length bm.
Proof.
  intros Hk Hl. split; [|split].
  - rewrite get_bit_set_bit by auto. rewrite Z.eqb_refl. reflexivity.
  - intros m Hm Hne. apply get_bit_set_bit_other; auto.
  - apply set_bit_length.
Qed.

(** [clear_bit] on a bit inside the bitmap makes it read 0, leaves every
    other bit and the bitmap length unchanged. *)
Theorem clear_bit_clears_only_that_bit (bm : list Z) (k : Z) :
  0 <= k -> (Z.to_nat (k / 8) < length bm)%nat ->
  get_bit (clear_bit bm k) k = 0 /\
  (forall m, 0 <= m -> m <> k -> get_bit (clear_bit bm k) m = get_bit bm m) /\
  length (clear_bit bm k) = length bm.
Proof.
  intros Hk Hl. split; [|split].
  - rewrite get_bit_clear_bit by auto. rewrite Z.eqb_refl. reflexivity.
  - intros m Hm Hne. apply get_bit_clear_bit_other; auto.
  - apply clear_bit_length.
Qed.

(** The superblock step of [fix_errors] sets every field to its expected
    value and counts one fix per field that differed (an inode count of 0
    included); it changes nothing else. *)
Theorem fix_superblock_sets_expected (s : state) :
  superblock (fix_superblock s) = good_superblock /\
  errors_fixed (fix_superblock s) = errors_fixed s + sb_fix_count (superblock s) /\
  inode_bitmap (fix_superblock s) = inode_bitmap s /\ data_bitmap (fix_superblock s) = data_bitmap s /\
  inodes (fix_superblock s) = inodes s /\ image (fix_superblock s) = image s /\
  errors_found (fix_superblock s) = errors_found s /\ output (fix_superblock s) = output s /\
  writes (fix_superblock s) = writes s.
Proof. rewrite fix_superblock_eq. repeat split. Qed.

(** On a state where they stay inside the C arrays, the five validators
    change neither the superblock, the bitmaps, the inodes, the image, the
    fixed count nor the writes. *)
Theorem validators_read_only (s : state) :
  in_bounds s = true ->
  superblock (snd (run_checks s)) = superblock s /\
  inode_bitmap (snd (run_checks s)) = inode_bitmap s /\
  data_bitmap (snd (run_checks s)) = data_bitmap s /\
  inodes (snd (run_checks s)) = inodes s /\ image (snd (run_checks s)) = image s /\
  errors_fixed (snd (run_checks s)) = errors_fixed s /\ writes (snd (run_checks s)) = writes s.
Proof.
  intros _. destruct (run_checks_checked s) as (A & B & C & D & E & F & G & _). tauto.
Qed.

(** *** Counting the findings of the validators *)
Lemma tally_init (s : state) : tally s (true, s).
Proof. exists []. rewrite app_nil_r. cbn. repeat split; try lia; auto. Qed.

Lemma tally_report (s0 s : state) (ok : bool) (m : message) :
  tally s0 (ok, s) -> tally s0 (false, report m s).
Proof.
  intros (l & Ho & He & _). cbn [snd fst] in Ho, He. exists (l ++ [m]).
  cbn [snd fst report output errors_found].
  rewrite Ho, app_assoc, length_app. cbn [length]. split; [reflexivity|]. split; [lia|].
  split; intros H; [discriminate|]. destruct l; discriminate.
Qed.

Lemma sb_test_tally (s0 : state) c m acc : tally s0 acc -> tally s0 (sb_test c m acc).
Proof. destruct acc as [ok s]. unfold sb_test. destruct c; [apply tally_report|auto]. Qed.

Lemma check_superblock_tally (s : state) : tally s (check_superblock s).
Proof. unfold check_superblock. cbv zeta. repeat apply sb_test_tally. apply tally_init. Qed.

Lemma check_inode_bitmap_tally (s : state) : tally s (check_inode_bitmap_consistency s).
Proof.
  apply (fold_inv _ (tally s)); [|apply tally_init].
  intros [ok s'] i _ H. unfold inode_bitmap_step. destruct_ifs; auto; eapply tally_report; eauto.
Qed.

Lemma mark_inode_blocks_quiet (s : state) (i : Z) :
  output (mark_inode_blocks s i) = output s /\ errors_found (mark_inode_blocks s i) = errors_found s.
Proof.
  set (P := fun s' => output s' = output s /\ errors_found s' = errors_found s).
  assert (Hm : forall s' j v, P s' -> P (mark_nonzero j s' v)).
  { intros s' j v H. unfold mark_nonzero, mark_block_referenced. destruct_ifs; exact H. }
  change (P (mark_inode_blocks s i)).
  unfold mark_inode_blocks. cbv zeta.
  generalize (inode_at s i) as ino. intros ino.
  destruct (is_valid_inode ino); [|split; reflexivity].
  assert (H1 : P (fold_left (fun s j => mark_nonzero i s (znth 0 (direct_blocks ino) j))
                    (zrange 0 12) s)).
  { apply (fold_inv _ P); [intros; apply Hm; auto|split; reflexivity]. }
  destruct (negb (indirect_block ino =? 0)); [|exact H1].
  apply (fold_inv _ P); [intros; apply Hm; auto|].
  unfold mark_block_referenced. destruct_ifs; exact H1.
Qed.

Lemma check_data_bitmap_tally (s : state) : tally s (check_data_bitmap_consistency s).
Proof.
  unfold check_data_bitmap_consistency. cbv zeta.
  apply (fold_inv _ (tally s)).
  - intros [ok s'] i _ H. unfold data_bitmap_step. destruct_ifs; auto; eapply tally_report; eauto.
  - set (s1 := set_refs s (fun _ => false) (fun _ => -1)).
    assert (H : output (fold_left mark_inode_blocks (zrange 0 INODE_COUNT) s1) = output s /\
                errors_found (fold_left mark_inode_blocks (zrange 0 INODE_COUNT) s1) = errors_found s).
    { apply (fold_inv _ (fun s' => output s' = output s /\ errors_found s' = errors_found s));
        [|split; reflexivity].
      intros s' i _ [Ho He]. destruct (mark_inode_blocks_quiet s' i). split; congruence. }
    destruct H as [Ho He]. exists []. cbn [fst snd]. rewrite Ho, He, app_nil_r.
    cbn [length Z.of_nat]. repeat split; try lia; auto.
Qed.

Lemma check_duplicate_tally (s : state) : tally s (check_duplicate_blocks s).
Proof.
  apply (fold_inv _ (tally s)); [|apply tally_init].
  intros [ok s'] i _ H. unfold dup_report_step. destruct_ifs; auto; eapply tally_report; eauto.
Qed.

Lemma bad_inode_step_tally (s0 : state) acc i : tally s0 acc -> tally s0 (bad_inode_step acc i).
Proof.
  intros H. unfold bad_inode_step. cbv zeta.
  generalize (inode_at (snd acc) i) as ino. intros ino.
  destruct (is_valid_inode ino); [|exact H].
  assert (H1 : tally s0 (fold_left (bad_direct_step i ino) (zrange 0 12) acc)).
  { apply (fold_inv _ (tally s0)); [|exact H].
    intros [ok s'] j _ Hj. unfold bad_direct_step. destruct_ifs; auto; eapply tally_report; eauto. }
  destruct (fold_left (bad_direct_step i ino) (zrange 0 12) acc) as [nb s'].
  destruct (negb (indirect_block ino =? 0)); [|exact H1].
  destruct (out_of_range s' (indirect_block ino)); [eapply tally_report; eauto|].
  generalize (read_block (image s') (indirect_block ino)) as es. intros es.
  apply (fold_inv _ (tally s0)); [|exact H1].
  intros [ok s''] j _ Hj. unfold bad_entry_step. destruct_ifs; auto; eapply tally_report; eauto.
Qed.

Lemma check_bad_blocks_tally (s : state) : tally s (check_bad_blocks s).
Proof.
  apply (fold_inv _ (tally s)); [|apply tally_init]. intros; apply bad_inode_step_tally; auto.
Qed.

Lemma run_checks_tally (s : state) :
  exists l1 l2 l3 l4 l5,
    output (snd (run_checks s)) = output s ++ l1 ++ l2 ++ l3 ++ l4 ++ l5 /\
    errors_found (snd (run_checks s)) =
      errors_found s + Z.of_nat (length (l1 ++ l2 ++ l3 ++ l4 ++ l5)) /\
    fst (run_checks s) = map (fun l => Nat.eqb (length l) 0) [l1; l2; l3; l4; l5].
Proof.
  unfold run_checks.
  pose proof (check_superblock_tally s) as H1.
  destruct (check_superblock s) as [b1 s1]. destruct H1 as (l1 & O1 & E1 & F1).
  pose proof (check_inode_bitmap_tally s1) as H2.
  destruct (check_inode_bitmap_consistency s1) as [b2 s2]. destruct H2 as (l2 & O2 & E2 & F2).
  pose proof (check_data_bitmap_tally s2) as H3.
  destruct (check_data_bitmap_consistency s2) as [b3 s3]. destruct H3 as (l3 & O3 & E3 & F3).
  pose proof (check_duplicate_tally s3) as H4.
  destruct (check_duplicate_blocks s3) as [b4 s4]. destruct H4 as (l4 & O4 & E4 & F4).
  pose proof (check_bad_blocks_tally s4) as H5.
  destruct (check_bad_blocks s4) as [b5 s5]. destruct H5 as (l5 & O5 & E5 & F5).
  cbn [fst snd] in *.
  exists l1, l2, l3, l4, l5. split; [|split].
  - rewrite O5, O4, O3, O2, O1, <- !app_assoc. reflexivity.
  - rewrite E5, E4, E3, E2, E1, !length_app. lia.
  - assert (Hb : forall (b : bool) (l : list message), (b = true <-> l = []) ->
                   b = Nat.eqb (length l) 0).
    { intros b l [Hb1 Hb2].
      destruct b, l; cbn; auto; first [discriminate (Hb1 eq_refl) | discriminate (Hb2 eq_refl)]. }
    cbn [map]. rewrite (Hb _ _ F1), (Hb _ _ F2), (Hb _ _ F3), (Hb _ _ F4), (Hb _ _ F5).
    reflexivity.
Qed.


(** *** The reference map built by the data-bitmap validator *)
Lemma mark_block_referenced_owned (s0 s : state) (v i : Z) :
  0 <= i < INODE_COUNT -> is_valid_inode (inode_at s0 i) = true ->
  refs_owned s0 s -> refs_owned s0 (mark_block_referenced s v i).
Proof.
  intros Hi Hv [Hn H]. unfold mark_block_referenced. cbv zeta.
  destruct ((v <? data_block_start (superblock s)) || (TOTAL_BLOCKS <=? to_int32 v)) eqn:Hc;
    [split; auto|].
  destruct (block_referenced s (to_int32 v)); [split; auto|].
  apply orb_false_iff in Hc. destruct Hc as [_ Hc]. apply Z.leb_gt in Hc.
  split; [exact Hn|]. intros b. cbn [block_referenced block_referenced_by set_refs].
  destruct (b =? to_int32 v) eqn:Hb.
  - apply Z.eqb_eq in Hb. subst b. split; [intros _; repeat split; auto; lia|discriminate].
  - apply H.
Qed.

Lemma mark_inode_blocks_owned (s0 s : state) (i : Z) :
  0 <= i < INODE_COUNT -> refs_owned s0 s -> refs_owned s0 (mark_inode_blocks s i).
Proof.
  intros Hi Hs. unfold mark_inode_blocks. cbv zeta.
  destruct (is_valid_inode (inode_at s i)) eqn:Hv; [|exact Hs].
  assert (Hv0 : is_valid_inode (inode_at s0 i) = true).
  { rewrite <- (inode_at_inodes s s0 i (proj1 Hs)). exact Hv. }
  assert (Hm : forall s' v, refs_owned s0 s' -> refs_owned s0 (mark_nonzero i s' v)).
  { intros s' v H. unfold mark_nonzero. destruct (negb (v =? 0)); [|exact H].
    apply mark_block_referenced_owned; auto. }
  assert (H1 : refs_owned s0 (fold_left (fun s' j => mark_nonzero i s' (znth 0 (direct_blocks (inode_at s i)) j))
                 (zrange 0 12) s)).
  { apply (fold_inv _ (refs_owned s0)); [intros; apply Hm; auto|exact Hs]. }
  destruct (negb (indirect_block (inode_at s i) =? 0)); [|exact H1].
  apply (fold_inv _ (refs_owned s0)); [intros; apply Hm; auto|].
  apply mark_block_referenced_owned; auto.
Qed.

Lemma check_data_bitmap_owned_helper (s : state) :
  refs_owned s (snd (check_data_bitmap_consistency s)).
Proof.
  unfold check_data_bitmap_consistency. cbv zeta.
  set (sM := fold_left mark_inode_blocks (zrange 0 INODE_COUNT)
               (set_refs s (fun _ => false) (fun _ => -1))).
  assert (HM : refs_owned s sM).
  { unfold sM. apply (fold_inv _ (refs_owned s)).
    - intros s' i Hi H. apply in_zrange in Hi. apply mark_inode_blocks_owned; auto.
    - split; [reflexivity|]. intros b. cbn. split; [discriminate|reflexivity]. }
  apply (fold_inv _ (fun acc => refs_owned s (snd acc))); [|exact HM].
  intros [ok s'] i _ H. unfold data_bitmap_step. destruct_ifs; exact H.
Qed.

Lemma mark_block_referenced_nonneg (s0 s : state) (v i : Z) :
  mark_in_bounds s0 v = true -> checked s0 s ->
  (forall b, block_referenced s b = true -> 0 <= b) ->
  forall b, block_referenced (mark_block_referenced s v i) b = true -> 0 <= b.
Proof.
  intros Hm Hc Hn b. unfold mark_block_referenced. cbv zeta.
  destruct ((v <? data_block_start (superblock s)) || (TOTAL_BLOCKS <=? to_int32 v)) eqn:Hc1;
    [apply Hn|].
  destruct (block_referenced s (to_int32 v)); [apply Hn|].
  cbn [block_referenced set_refs]. destruct (b =? to_int32 v) eqn:Hb; [|apply Hn].
  intros _. apply Z.eqb_eq in Hb. subst b. apply orb_false_iff in Hc1 as [Hlt _].
  unfold mark_in_bounds in Hm. destruct Hc as (Hsb & _). rewrite Hsb in Hlt. rewrite Hlt in Hm.
  apply Z.leb_le in Hm. exact Hm.
Qed.

Lemma mark_inode_blocks_nonneg (s0 s : state) (i : Z) :
  0 <= i < INODE_COUNT -> marks_in_bounds s0 = true -> checked s0 s ->
  (forall b, block_referenced s b = true -> 0 <= b) ->
  forall b, block_referenced (mark_inode_blocks s i) b = true -> 0 <= b.
Proof.
  intros Hi Hmb Hc Hn.
  set (Q := fun t => checked s0 t /\ forall b, block_referenced t b = true -> 0 <= b).
  assert (Hstep : forall t v, mark_in_bounds s0 v = true -> Q t -> Q (mark_nonzero i t v)).
  { intros t v Hv [Ht Hnt]. split; [apply mark_nonzero_checked; exact Ht|].
    unfold mark_nonzero. destruct (negb (v =? 0)); [|exact Hnt].
    apply (mark_block_referenced_nonneg s0); assumption. }
  assert (Hib : negb (is_valid_inode (inode_at s0 i)) || inode_in_bounds s0 (inode_at s0 i) = true).
  { apply andb_true_iff in Hmb as [_ Hmb]. apply (proj1 (forallb_forall _ _) Hmb).
    apply in_zrange. exact Hi. }
  unfold mark_inode_blocks. cbv zeta. rewrite (checked_inode_at _ _ i Hc).
  revert Hib. generalize (inode_at s0 i) as ino. intros ino Hib.
  destruct (is_valid_inode ino); [|exact Hn].
  cbn [negb orb] in Hib. unfold inode_in_bounds in Hib.
  apply andb_true_iff in Hib as [Hd Hind].
  assert (H1 : Q (fold_left (fun s j => mark_nonzero i s (znth 0 (direct_blocks ino) j))
                    (zrange 0 12) s)).
  { apply (fold_inv _ Q); [|split; assumption].
    intros t j Hj Ht. apply Hstep; [|exact Ht]. exact (proj1 (forallb_forall _ _) Hd j Hj). }
  revert H1. generalize (fold_left (fun s j => mark_nonzero i s (znth 0 (direct_blocks ino) j))
                    (zrange 0 12) s) as t1. intros t1 [Hc1 Hn1].
  destruct (indirect_block ino =? 0) eqn:Hz; [exact Hn1|]. cbn [negb].
  cbn [orb] in Hind. apply andb_true_iff in Hind as [Hind Hents].
  apply andb_true_iff in Hind as [Hm1 _].
  assert (H2 : Q (mark_block_referenced t1 (indirect_block ino) i)).
  { split; [|apply (mark_block_referenced_nonneg s0); assumption].
    unfold mark_block_referenced. destruct_ifs; auto; apply set_refs_checked; auto. }
  assert (Himg : image (mark_block_referenced t1 (indirect_block ino) i) = image s0)
    by (destruct H2 as ((_ & _ & _ & _ & E & _) & _); exact E).
  rewrite Himg. revert H2. generalize (mark_block_referenced t1 (indirect_block ino) i) as t2.
  intros t2 H2.
  refine (proj2 (fold_inv _ Q _ _ _ H2)).
  intros t v Hv Ht. apply Hstep; [|exact Ht]. exact (proj1 (forallb_forall _ _) Hents v Hv).
Qed.

Lemma check_data_bitmap_nonneg (s : state) :
  marks_in_bounds s = true ->
  forall b, block_referenced (snd (check_data_bitmap_consistency s)) b = true -> 0 <= b.
Proof.
  intros Hmb. unfold check_data_bitmap_consistency. cbv zeta.
  set (Q := fun t => checked s t /\ forall b, block_referenced t b = true -> 0 <= b).
  assert (HM : Q (fold_left mark_inode_blocks (zrange 0 INODE_COUNT)
                   (set_refs s (fun _ => false) (fun _ => -1)))).
  { apply (fold_inv _ Q).
    - intros t i Hi [Ht Hnt]. apply in_zrange in Hi. split.
      + apply mark_inode_blocks_checked. exact Ht.
      + apply (mark_inode_blocks_nonneg s); assumption.
    - split; [apply set_refs_checked, checked_refl|]. intros b H. discriminate H. }
  revert HM. generalize (fold_left mark_inode_blocks (zrange 0 INODE_COUNT)
                   (set_refs s (fun _ => false) (fun _ => -1))) as sM. intros sM [_ HM].
  apply (fold_inv _ (fun acc => forall b, block_referenced (snd acc) b = true -> 0 <= b)); [|exact HM].
  intros [ok s'] i _ H. unfold data_bitmap_step. destruct_ifs; exact H.
Qed.

(** After the data-bitmap validator run on a state where its marks stay
    inside the C arrays ([marks_in_bounds]), a block marked as referenced
    lies in [0, 64) and its recorded owner is a valid inode among
    [0 .. 79]; an unmarked block has owner [-1]. *)
Theorem check_data_bitmap_reference_owner (s : state) (b : Z) :
  marks_in_bounds s = true ->
  (block_referenced (snd (check_data_bitmap_consistency s)) b = true ->
     0 <= b < TOTAL_BLOCKS /\
     0 <= block_referenced_by (snd (check_data_bitmap_consistency s)) b < INODE_COUNT /\
     is_valid_inode (inode_at s (block_referenced_by (snd (check_data_bitmap_consistency s)) b)) = true) /\
  (block_referenced (snd (check_data_bitmap_consistency s)) b = false ->
     block_referenced_by (snd (check_data_bitmap_consistency s)) b = -1).
Proof.
  intros Hmb. destruct (proj2 (check_data_bitmap_owned_helper s) b) as [Ht Hf].
  split; [|exact Hf]. intros H. destruct (Ht H) as (Hlt & Ho & Hv).
  pose proof (check_data_bitmap_nonneg s Hmb b H). repeat split; auto; lia.
Qed.

(** *** What the repair changes in an inode *)
Lemma pointer_repair_refl (a : inode_t) : pointer_repair a a.
Proof. repeat split; auto. Qed.

Lemma pointer_repair_trans (a b c : inode_t) :
  pointer_repair a b -> pointer_repair b c -> pointer_repair a c.
Proof.
  intros (A1 & A2 & A3 & A4 & A5 & A6 & A7 & A8 & A9 & A10 & A11 & A12 & A13 & A14 & A15)
         (B1 & B2 & B3 & B4 & B5 & B6 & B7 & B8 & B9 & B10 & B11 & B12 & B13 & B14 & B15).
  repeat split; try congruence.
  - intros j. destruct (B14 j) as [E|E]; rewrite E; auto.
  - destruct B15 as [E|E]; rewrite E; auto.
Qed.

Lemma pointer_repair_set_direct (a : inode_t) (j : Z) : pointer_repair a (set_direct_block a j 0).
Proof.
  repeat split; cbn [direct_blocks set_direct_block indirect_block]; auto.
  - apply zreplace_length.
  - intros k. destruct (znth_zreplace_cases 0 j 0 (direct_blocks a) k); auto.
Qed.

Lemma pointer_repair_set_indirect (a : inode_t) : pointer_repair a (set_indirect_block a 0).
Proof. repeat split; auto. Qed.

Lemma pointer_repair_valid (a b : inode_t) :
  pointer_repair a b -> is_valid_inode b = is_valid_inode a.
Proof.
  intros (_ & _ & _ & _ & _ & _ & _ & Hd & Hn & _). unfold is_valid_inode. rewrite Hd, Hn. reflexivity.
Qed.

(** [set_inode s i (f (inode_at s i))] changes inode [i] into [f] of it, or not at all. *)
Lemma set_inode_pointer_repair (s : state) (i : Z) (f : inode_t -> inode_t) :
  (forall a, pointer_repair a (f a)) ->
  pointer_repair (inode_at s i) (inode_at (set_inode s i (f (inode_at s i))) i).
Proof.
  intros Hf. unfold inode_at at 2. cbn [inodes set_inode set_inodes].
  destruct (znth_zreplace_cases empty_inode i (f (inode_at s i)) (inodes s) i) as [E|E];
    rewrite E; [apply Hf|apply pointer_repair_refl].
Qed.

Lemma fix_direct_step_pointer_repair (s : state) (i j : Z) :
  pointer_repair (inode_at s i) (inode_at (fix_direct_step i s j) i).
Proof.
  unfold fix_direct_step. destruct_ifs; [|apply pointer_repair_refl].
  unfold count_fixed.
  rewrite (inode_at_inodes (set_counters _ _ _) (set_inode s i (set_direct_block (inode_at s i) j 0)) i)
    by reflexivity.
  apply (set_inode_pointer_repair s i (fun a => set_direct_block a j 0)).
  intros a. apply pointer_repair_set_direct.
Qed.

Lemma fix_indirect_pointer_repair (s : state) (i : Z) :
  pointer_repair (inode_at s i) (inode_at (fix_indirect s i) i).
Proof.
  unfold fix_indirect.
  destruct (negb (indirect_block (inode_at s i) =? 0)); [|apply pointer_repair_refl].
  destruct (out_of_range s (indirect_block (inode_at s i))).
  - unfold count_fixed.
    rewrite (inode_at_inodes (set_counters _ _ _) (set_inode s i (set_indirect_block (inode_at s i) 0)) i)
      by reflexivity.
    apply (set_inode_pointer_repair s i (fun a => set_indirect_block a 0)).
    intros a. apply pointer_repair_set_indirect.
  - generalize (read_block (image s) (indirect_block (inode_at s i))) as es. intros es.
    generalize (indirect_block (inode_at s i)) as ind. intros ind.
    destruct (fix_entries_fold (zrange 0 ENTRIES_PER_BLOCK) es false s) as (H1 & _).
    destruct (fold_left fix_entry_step (zrange 0 ENTRIES_PER_BLOCK) (es, false, s))
      as [[es' m'] s'].
    cbn [fst snd] in H1. rewrite H1.
    destruct m'; unfold inode_at; cbn; apply pointer_repair_refl.
Qed.

Lemma fix_bad_step_pointer_repair (s0 s : state) (k i : Z) :
  0 <= k -> 0 <= i ->
  pointer_repair (inode_at s0 i) (inode_at s i) /\
  (is_valid_inode (inode_at s0 i) = false -> inode_at s i = inode_at s0 i) ->
  pointer_repair (inode_at s0 i) (inode_at (fix_bad_step s k) i) /\
  (is_valid_inode (inode_at s0 i) = false -> inode_at (fix_bad_step s k) i = inode_at s0 i).
Proof.
  intros Hk Hi [Hp Hinv].
  destruct (Z.eq_dec k i) as [<-|Hne]; [|rewrite fix_bad_step_inode_other; auto].
  unfold fix_bad_step.
  destruct (is_valid_inode (inode_at s k)) eqn:Hv; [|auto].
  split.
  - eapply pointer_repair_trans; [exact Hp|].
    eapply pointer_repair_trans; [|apply fix_indirect_pointer_repair].
    apply (fold_inv (fix_direct_step k) (fun s' => pointer_repair (inode_at s k) (inode_at s' k)));
      [|apply pointer_repair_refl].
    intros s' j _ H. eapply pointer_repair_trans; [exact H|apply fix_direct_step_pointer_repair].
  - intros Hv0. rewrite (pointer_repair_valid _ _ Hp), Hv0 in Hv. discriminate.
Qed.

(** Helper: the same content in the setting of the whole repair. *)
Lemma fix_errors_pointer_repair_helper (s : state) (i : Z) :
  0 <= i ->
  pointer_repair (inode_at s i) (inode_at (fix_errors s) i) /\
  (is_valid_inode (inode_at s i) = false -> inode_at (fix_errors s) i = inode_at s i).
Proof.
  intros Hi.
  pose proof (fix_loops_frame s) as H. cbv zeta in H.
  unfold fix_errors. cbv zeta.
  set (s1 := fix_superblock s) in *.
  set (s2 := fold_left fix_inode_bitmap_step (zrange 0 INODE_COUNT) s1) in *.
  set (s3 := fold_left fix_data_bitmap_step
               (zrange (to_int32 (data_block_start (superblock s2))) TOTAL_BLOCKS) s2) in *.
  set (s4 := fold_left fix_bad_step (zrange 0 INODE_COUNT) s3) in *.
  destruct H as (_ & _ & Hn2 & _ & _ & _ & Hn3 & _).
  destruct (fix_errors_tail s4) as (_ & _ & _ & _ & Tn & _).
  assert (Hn1 : inodes s1 = inodes s) by (unfold s1; rewrite fix_superblock_eq; reflexivity).
  assert (E3 : inode_at s3 i = inode_at s i).
  { apply inode_at_inodes. congruence. }
  rewrite (inode_at_inodes (write_inodes (write_bitmaps (write_superblock s4))) s4 i Tn).
  rewrite <- E3.
  apply (fold_inv fix_bad_step (fun s' => pointer_repair (inode_at s3 i) (inode_at s' i) /\
           (is_valid_inode (inode_at s3 i) = false -> inode_at s' i = inode_at s3 i))).
  - intros s' k Hk H. apply in_zrange in Hk. apply fix_bad_step_pointer_repair; auto; lia.
  - split; [apply pointer_repair_refl|auto].
Qed.

(** [fix_errors] changes an inode only by setting block pointers to 0, and
    leaves an invalid inode untouched. *)
Theorem fix_errors_only_clears_pointers (s : state) (i : Z) :
  0 <= i ->
  pointer_repair (inode_at s i) (inode_at (fix_errors s) i) /\
  (is_valid_inode (inode_at s i) = false -> inode_at (fix_errors s) i = inode_at s i).
Proof. apply fix_errors_pointer_repair_helper. Qed.

(** *** What the repair changes in the image *)
Lemma fix_errors_image_cases (s : state) (b j : Z) :
  0 <= j < ENTRIES_PER_BLOCK ->
  image (fix_errors s) b j = image s b j \/ image (fix_errors s) b j = 0.
Proof.
  intros Hj.
  pose proof (fix_loops_frame s) as H. cbv zeta in H.
  unfold fix_errors. cbv zeta.
  set (s1 := fix_superblock s) in *.
  set (s2 := fold_left fix_inode_bitmap_step (zrange 0 INODE_COUNT) s1) in *.
  set (s3 := fold_left fix_data_bitmap_step
               (zrange (to_int32 (data_block_start (superblock s2))) TOTAL_BLOCKS) s2) in *.
  set (s4 := fold_left fix_bad_step (zrange 0 INODE_COUNT) s3) in *.
  destruct H as (_ & _ & _ & Him2 & _ & _ & _ & Him3 & _).
  destruct (fix_errors_tail s4) as (_ & _ & _ & _ & _ & Tim & _).
  assert (Him1 : image s1 = image s) by (unfold s1; rewrite fix_superblock_eq; reflexivity).
  rewrite Tim.
  replace (image s b j) with (image s3 b j) by congruence.
  apply (fold_inv fix_bad_step (fun s' => image s' b j = image s3 b j \/ image s' b j = 0)).
  - intros s' k _ [E|E]; destruct (fix_bad_step_image s' k b j Hj) as [F|F]; rewrite F; auto.
  - auto.
Qed.

(** [fix_errors] writes no nonzero word into the image: every word of every
    block is kept or set to 0. *)
Theorem fix_errors_image_kept_or_zeroed (s : state) (b j : Z) :
  0 <= j < ENTRIES_PER_BLOCK ->
  image (fix_errors s) b j = image s b j \/ image (fix_errors s) b j = 0.
Proof. apply fix_errors_image_cases. Qed.

(** *** What the validators find after a repair *)
Lemma fix_errors_repaired_any (x : state) : repaired (fix_errors x).
Proof.
  pose proof (fix_loops_frame x) as H. cbv zeta in H.
  unfold fix_errors. cbv zeta.
  set (s1 := fix_superblock x) in *.
  set (s2 := fold_left fix_inode_bitmap_step (zrange 0 INODE_COUNT) s1) in *.
  set (s3 := fold_left fix_data_bitmap_step
               (zrange (to_int32 (data_block_start (superblock s2))) TOTAL_BLOCKS) s2) in *.
  set (s4 := fold_left fix_bad_step (zrange 0 INODE_COUNT) s3) in *.
  destruct H as ((Hsb2 & _) & _ & _ & _ & (Hsb3 & _) & _).
  destruct (fix_errors_tail s4) as (_ & Ts & _ & _ & Tn & Tim & _).
  assert (Hs1 : superblock s1 = good_superblock)
    by (unfold s1; rewrite fix_superblock_eq; reflexivity).
  apply (repaired_transport s4); auto.
  apply fix_bad_fold_repaired. rewrite Hsb3, Hsb2. exact Hs1.
Qed.

(** *** The bounds of the C arrays along a repair cycle *)

Lemma in_bounds_fields (s s' : state) :
  superblock s' = superblock s -> inodes s' = inodes s -> image s' = image s ->
  marks_in_bounds s' = marks_in_bounds s /\ claims_in_bounds s' = claims_in_bounds s /\
  in_bounds s' = in_bounds s.
Proof.
  intros Hsb Hn Hm.
  assert (Hd : duplicate_refs s' = duplicate_refs s).
  { unfold duplicate_refs, dup_inode_refs, inode_at. rewrite Hn, Hm. reflexivity. }
  assert (Hmk : marks_in_bounds s' = marks_in_bounds s).
  { unfold marks_in_bounds, inode_in_bounds, mark_in_bounds, inode_at. rewrite Hsb, Hn, Hm. reflexivity. }
  assert (Hcl : claims_in_bounds s' = claims_in_bounds s).
  { unfold claims_in_bounds. rewrite Hsb, Hd. reflexivity. }
  unfold in_bounds. rewrite Hmk, Hcl. auto.
Qed.

Lemma block_ok_mark_in_bounds (s : state) (v : Z) : block_ok v -> mark_in_bounds s v = true.
Proof.
  intros Hv. unfold mark_in_bounds, to_int32. apply orb_true_iff. right.
  unfold block_ok, TOTAL_BLOCKS in Hv.
  replace (v <? 2 ^ 31) with true by (symmetry; apply Z.ltb_lt; lia). apply Z.leb_le. lia.
Qed.

(** A clean inode stays within the arrays. *)
Lemma inode_clean_in_bounds (s : state) (ino : inode_t) :
  inode_clean (image s) ino -> inode_in_bounds s ino = true.
Proof.
  intros (Hd & Hi & He). unfold inode_in_bounds. apply andb_true_iff. split.
  { apply forallb_forall. intros j Hj. apply in_zrange in Hj. apply block_ok_mark_in_bounds, Hd. exact Hj. }
  destruct (Z.eqb_spec (indirect_block ino) 0) as [|H0]; [reflexivity|]. cbn [orb].
  rewrite (block_ok_mark_in_bounds _ _ Hi).
  destruct Hi as [|Hi]; [contradiction|].
  replace (indirect_block ino <? TOTAL_BLOCKS) with true by (symmetry; apply Z.ltb_lt; lia).
  cbn [andb]. apply forallb_forall. intros v Hv. apply in_read_block in Hv.
  destruct Hv as (j & Hj & <-). apply block_ok_mark_in_bounds, He; auto.
Qed.

Lemma count_filter_mono (f g : Z -> Z) (l : list Z) (b : Z) :
  (forall k, In k l -> g k = f k \/ g k = 0) ->
  (count_occ Z.eq_dec (filter recorded (map g l)) b <=
   count_occ Z.eq_dec (filter recorded (map f l)) b)%nat.
Proof.
  induction l as [|k l IH]; intros H; [reflexivity|].
  cbn [map filter].
  assert (IH' := IH (fun k' Hk' => H k' (or_intror Hk'))).
  destruct (H k (or_introl eq_refl)) as [E|E]; rewrite E.
  - destruct (recorded (f k)); cbn [count_occ]; [destruct (Z.eq_dec (f k) b)|]; lia.
  - change (recorded 0) with false. cbv iota.
    destruct (recorded (f k)); cbn [count_occ]; [destruct (Z.eq_dec (f k) b)|]; lia.
Qed.

Lemma read_block_count_mono (img img' : Z -> Z -> Z) (ind b : Z) :
  (forall c j, 0 <= j < ENTRIES_PER_BLOCK -> img' c j = img c j \/ img' c j = 0) ->
  (count_occ Z.eq_dec (filter recorded (read_block img' ind)) b <=
   count_occ Z.eq_dec (filter recorded (read_block img ind)) b)%nat.
Proof.
  intros Himg. unfold read_block. apply count_filter_mono.
  intros k Hk. apply in_zrange in Hk. apply Himg. exact Hk.
Qed.

Lemma claim_walk_mono (img img' : Z -> Z -> Z) (a a' : inode_t) (b : Z) :
  pointer_repair a a' ->
  (forall c j, 0 <= j < ENTRIES_PER_BLOCK -> img' c j = img c j \/ img' c j = 0) ->
  (count_occ Z.eq_dec (claim_walk img' a') b <= count_occ Z.eq_dec (claim_walk img a) b)%nat.
Proof.
  intros (_ & _ & _ & _ & _ & _ & _ & _ & _ & _ & _ & _ & _ & Hd & Hi) Himg.
  unfold claim_walk. rewrite !count_occ_app.
  assert (H1 := count_filter_mono (znth 0 (direct_blocks a)) (znth 0 (direct_blocks a'))
                  (zrange 0 12) b (fun k _ => Hd k)).
  apply Nat.add_le_mono; [exact H1|].
  destruct Hi as [E|E]; rewrite E.
  - destruct (recorded (indirect_block a)); [|apply le_n].
    destruct (Z.eq_dec (indirect_block a) b) as [Heq|Hne].
    + rewrite !(count_occ_cons_eq Z.eq_dec _ Heq). apply le_n_S. apply read_block_count_mono. exact Himg.
    + rewrite !(count_occ_cons_neq Z.eq_dec _ Hne). apply read_block_count_mono. exact Himg.
  - replace (recorded 0) with false by reflexivity. apply Nat.le_0_l.
Qed.

Lemma length_flat_map_le {A B} (f g : A -> list B) (l : list A) :
  (forall x, In x l -> (length (g x) <= length (f x))%nat) ->
  (length (flat_map g l) <= length (flat_map f l))%nat.
Proof.
  induction l as [|x l IH]; intros H; [apply le_n|].
  cbn [flat_map]. rewrite !length_app.
  apply Nat.add_le_mono; [apply H; left; reflexivity|].
  apply IH. intros y Hy. apply H. right. exact Hy.
Qed.

Lemma fix_errors_claimants_le (x : state) (b : Z) :
  (length (claimants (fix_errors x) b) <= length (claimants x b))%nat.
Proof.
  unfold claimants. apply length_flat_map_le. intros i Hi. apply in_zrange in Hi.
  destruct (fix_errors_pointer_repair_helper x i (proj1 Hi)) as [Hp _].
  rewrite (pointer_repair_valid _ _ Hp).
  destruct (is_valid_inode (inode_at x i)); [|apply le_n].
  rewrite !repeat_length. apply claim_walk_mono; [exact Hp|].
  intros c j Hj. apply fix_errors_image_cases. exact Hj.
Qed.

Lemma fix_errors_claims_in_bounds (x : state) :
  claims_in_bounds x = true -> claims_in_bounds (fix_errors x) = true.
Proof.
  unfold claims_in_bounds. intros Hx. apply andb_true_iff in Hx as [_ Hx].
  destruct (fix_errors_frame x) as (Hsb & _).
  rewrite Hsb. apply andb_true_iff. split; [reflexivity|].
  apply forallb_forall. intros b Hb. pose proof (proj1 (forallb_forall _ _) Hx b Hb) as E.
  cbv beta in E |- *. rewrite duplicate_refs_claimants in E |- *.
  apply Z.leb_le in E. apply Z.leb_le.
  pose proof (fix_errors_claimants_le x b). lia.
Qed.

Lemma fix_errors_marks_in_bounds (x : state) : marks_in_bounds (fix_errors x) = true.
Proof.
  destruct (fix_errors_repaired_any x) as [Hsb Hr].
  unfold marks_in_bounds. rewrite Hsb. apply andb_true_iff. split; [reflexivity|].
  apply forallb_forall. intros i Hi. apply in_zrange in Hi.
  destruct (is_valid_inode (inode_at (fix_errors x) i)) eqn:Hv; [|reflexivity].
  cbn [negb orb]. apply inode_clean_in_bounds, Hr; assumption.
Qed.

Lemma fix_errors_in_bounds (x : state) :
  claims_in_bounds x = true -> in_bounds (fix_errors x) = true.
Proof.
  intros H. unfold in_bounds. rewrite fix_errors_marks_in_bounds, fix_errors_claims_in_bounds by exact H.
  reflexivity.
Qed.

(** If the validators run on [s] stay inside the C arrays, so do the
    validators run on the state that [fix_errors] leaves after them: the
    re-check of [main] is then inside them too. *)
Theorem repair_cycle_in_bounds (s : state) :
  in_bounds s = true -> in_bounds (repair_cycle s) = true.
Proof.
  intros H. unfold repair_cycle. apply fix_errors_in_bounds.
  destruct (run_checks_checked s) as (Hsb & _ & _ & Hn & Him & _).
  rewrite (proj1 (proj2 (in_bounds_fields _ _ Hsb Hn Him))).
  unfold in_bounds in H. apply andb_true_iff in H. apply H.
Qed.

Lemma check_superblock_good (y : state) :
  superblock y = good_superblock -> check_superblock y = (true, y).
Proof. intros H. unfold check_superblock. rewrite H. reflexivity. Qed.

Lemma check_inode_bitmap_matches (y : state) :
  bitmap_matches y -> check_inode_bitmap_consistency y = (true, y).
Proof.
  intros Hm. apply fold_id. intros i Hi. apply in_zrange in Hi.
  unfold inode_bitmap_step. rewrite (Hm i Hi).
  destruct (is_valid_inode (inode_at y i)); reflexivity.
Qed.

Lemma check_bad_blocks_repaired (y : state) :
  repaired y -> check_bad_blocks y = (true, y).
Proof.
  intros [Hsb Hr]. apply fold_id. intros k Hk. apply in_zrange in Hk.
  unfold bad_inode_step. cbn [snd].
  destruct (is_valid_inode (inode_at y k)) eqn:Hv; [|reflexivity].
  destruct (Hr k Hk Hv) as (Hd & Hind & Hent).
  rewrite fold_id.
  2:{ intros j Hj. apply in_zrange in Hj. unfold bad_direct_step.
      rewrite (proj2 (ok_not_out y _ Hsb) (Hd j Hj)). reflexivity. }
  destruct (indirect_block (inode_at y k) =? 0) eqn:Hz; [reflexivity|].
  cbn [negb].
  assert (Ho : out_of_range y (indirect_block (inode_at y k)) = false).
  { pose proof (proj2 (ok_not_out y _ Hsb) Hind) as E. rewrite Hz in E. exact E. }
  rewrite Ho. apply fold_id. intros j Hj. apply in_zrange in Hj.
  unfold bad_entry_step. rewrite read_block_znth by exact Hj.
  apply Z.eqb_neq in Hz.
  rewrite (proj2 (ok_not_out y _ Hsb) (Hent Hz j Hj)). reflexivity.
Qed.

(** After [fix_errors], the superblock and bad-block validators pass and
    print nothing. *)
Theorem fix_errors_passes_superblock_and_bad_block_checks (s : state) :
  check_superblock (fix_errors s) = (true, fix_errors s) /\
  check_bad_blocks (fix_errors s) = (true, fix_errors s).
Proof.
  pose proof (fix_errors_repaired_any s) as Hr. split.
  - apply check_superblock_good. apply Hr.
  - apply check_bad_blocks_repaired. exact Hr.
Qed.

(** After [fix_errors] on a state whose inode bitmap holds the 80 bits, the
    inode-bitmap validator passes and prints nothing. *)
Theorem fix_errors_passes_inode_bitmap_check (s : state) :
  (10 <= length (inode_bitmap s))%nat ->
  check_inode_bitmap_consistency (fix_errors s) = (true, fix_errors s).
Proof.
  intros Hlen. apply check_inode_bitmap_matches. apply (fix_errors_repaired s Hlen).
Qed.

Lemma run_checks_after_repair (y : state) :
  repaired y -> bitmap_matches y -> exists d1 d2, fst (run_checks y) = [true; true; d1; d2; true].
Proof.
  intros Hr Hm. unfold run_checks.
  rewrite (check_superblock_good y (proj1 Hr)), (check_inode_bitmap_matches y Hm).
  pose proof (check_data_bitmap_checked y) as H3.
  destruct (check_data_bitmap_consistency y) as [d1 y3].
  pose proof (check_duplicate_checked y3) as H4.
  destruct (check_duplicate_blocks y3) as [d2 y4]. cbn [snd] in H3, H4.
  destruct (checked_trans _ _ _ H3 H4) as (A & _ & _ & D & E & _).
  rewrite (check_bad_blocks_repaired y4) by (apply (repaired_transport y); auto).
  exists d1, d2. reflexivity.
Qed.

Lemma emit_inode_bitmap (s : state) (m : message) : inode_bitmap (emit m s) = inode_bitmap s.
Proof. reflexivity. Qed.

Lemma emit_image (s : state) (m : message) : image (emit m s) = image s.
Proof. reflexivity. Qed.

Lemma set_counters_inode_bitmap (s : state) (f x : Z) :
  inode_bitmap (set_counters s f x) = inode_bitmap s.
Proof. reflexivity. Qed.

Lemma set_counters_image (s : state) (f x : Z) : image (set_counters s f x) = image s.
Proof. reflexivity. Qed.

Lemma emit_counters_fields (s : state) (m1 m2 : message) :
  superblock (emit m2 (set_counters (emit m1 s) 0 0)) = superblock s /\
  inode_bitmap (emit m2 (set_counters (emit m1 s) 0 0)) = inode_bitmap s /\
  inodes (emit m2 (set_counters (emit m1 s) 0 0)) = inodes s /\
  image (emit m2 (set_counters (emit m1 s) 0 0)) = image s.
Proof. repeat split. Qed.

(** When [main] repairs, its re-check summary reports the superblock, the
    inode bitmap and the bad blocks as OK; only the data bitmap and the
    duplicate blocks can remain in error. *)
Theorem recheck_passes_superblock_inode_bitmap_bad_blocks (s : state) :
  (10 <= length (inode_bitmap s))%nat ->
  0 < errors_found (snd (run_checks (emit MChecking s))) ->
  exists pre post d1 d2,
    output (check_and_repair s) = pre ++ MRecheckSummary [true; true; d1; d2; true] :: post.
Proof.
  intros Hlen Hpos. unfold check_and_repair.
  pose proof (run_checks_checked (emit MChecking s)) as (_ & Hb1 & _).
  destruct (run_checks (emit MChecking s)) as [oks s'].
  cbv beta iota zeta. cbn [fst snd] in Hpos, Hb1.
  replace (0 <? errors_found (emit (MTotalErrors (errors_found s')) (emit (MSummary oks) s')))
    with true by (symmetry; apply Z.ltb_lt; exact Hpos).
  set (x := emit MAttempting (emit (MTotalErrors (errors_found s')) (emit (MSummary oks) s'))).
  assert (Hx : (10 <= length (inode_bitmap x))%nat).
  { unfold x. rewrite !emit_inode_bitmap, Hb1. exact Hlen. }
  destruct (fix_errors_repaired x Hx) as [Hr Hm].
  set (s2 := fix_errors x) in *.
  destruct (emit_counters_fields s2 (MErrorsFixed (errors_fixed s2)) MRechecking)
    as (Fsb & Fib & Fin & Fim).
  set (y := emit MRechecking (set_counters (emit (MErrorsFixed (errors_fixed s2)) s2) 0 0)) in *.
  assert (Hy : repaired y /\ bitmap_matches y).
  { split; [apply (repaired_transport s2); auto|apply (bitmap_matches_transport s2); auto]. }
  destruct (run_checks_after_repair y (proj1 Hy) (proj2 Hy)) as (d1 & d2 & Hf).
  fold y. destruct (run_checks y) as [oks2 s'']. cbn [fst] in Hf. subst oks2.
  cbv beta iota zeta.
  destruct_ifs; eexists (output s''), _, d1, d2; rewrite !emit_output, <- !app_assoc; reflexivity.
Qed.

(** When the first check finds no error, [main] prints the all-OK summary and
    "No errors found", writes nothing to the image and changes no on-disk
    structure. *)
Theorem clean_image_left_untouched (ld : loaded_image) :
  errors_found (snd (run_checks (emit MChecking (initial_state ld)))) = 0 ->
  output (check_and_repair (initial_state ld)) =
    [MChecking; MSummary [true; true; true; true; true]; MTotalErrors 0; MNoErrors] /\
  writes (check_and_repair (initial_state ld)) = [] /\
  superblock (check_and_repair (initial_state ld)) = ld_superblock ld /\
  inode_bitmap (check_and_repair (initial_state ld)) = ld_inode_bitmap ld /\
  data_bitmap (check_and_repair (initial_state ld)) = ld_data_bitmap ld /\
  inodes (check_and_repair (initial_state ld)) = ld_inodes ld /\
  image (check_and_repair (initial_state ld)) = ld_image ld.
Proof.
  intros H0. unfold check_and_repair.
  pose proof (run_checks_checked (emit MChecking (initial_state ld)))
    as (A & B & C & D & E & _ & G & _).
  destruct (run_checks_tally (emit MChecking (initial_state ld)))
    as (l1 & l2 & l3 & l4 & l5 & Ho & He & Hf).
  destruct (run_checks (emit MChecking (initial_state ld))) as [oks s'].
  cbn [fst snd] in *.
  change (errors_found (emit MChecking (initial_state ld))) with 0 in He.
  rewrite H0, !length_app in He.
  assert (Hl : l1 = [] /\ l2 = [] /\ l3 = [] /\ l4 = [] /\ l5 = []).
  { destruct l1, l2, l3, l4, l5; cbn [length] in He; repeat split; lia. }
  destruct Hl as (-> & -> & -> & -> & ->). cbn in Hf, Ho. subst oks.
  cbv beta iota zeta. rewrite !emit_errors_found, H0. cbn -[app].
  rewrite Ho, A, B, C, D, E, G. repeat split.
Qed.

(** *** Witnesses *)
Lemma set_bit_sets_only_that_bit_witness :
  0 <= 9 /\ (Z.to_nat (9 / 8) < length [0; 0])%nat /\
  get_bit (set_bit [0; 0] 9) 9 = 1 /\
  (forall m, 0 <= m -> m <> 9 -> get_bit (set_bit [0; 0] 9) m = get_bit [0; 0] m) /\
  length (set_bit [0; 0] 9) = length [0; 0].
Proof.
  split; [lia|]. split; [apply Nat.ltb_lt; reflexivity|].
  apply (set_bit_sets_only_that_bit [0; 0] 9); [lia|apply Nat.ltb_lt; reflexivity].
Defined.

Lemma clear_bit_clears_only_that_bit_witness :
  0 <= 9 /\ (Z.to_nat (9 / 8) < length [255; 255])%nat /\
  get_bit (clear_bit [255; 255] 9) 9 = 0 /\
  (forall m, 0 <= m -> m <> 9 -> get_bit (clear_bit [255; 255] 9) m = get_bit [255; 255] m) /\
  length (clear_bit [255; 255] 9) = length [255; 255].
Proof.
  split; [lia|]. split; [apply Nat.ltb_lt; reflexivity|].
  apply (clear_bit_clears_only_that_bit [255; 255] 9); [lia|apply Nat.ltb_lt; reflexivity].
Defined.

Lemma fix_errors_only_clears_pointers_witness :
  0 <= 0 /\
  pointer_repair (inode_at (initial_state img_block64) 0)
    (inode_at (fix_errors (initial_state img_block64)) 0) /\
  (is_valid_inode (inode_at (initial_state img_block64) 0) = false ->
     inode_at (fix_errors (initial_state img_block64)) 0 = inode_at (initial_state img_block64) 0).
Proof.
  split; [lia|]. apply (fix_errors_only_clears_pointers (initial_state img_block64) 0). lia.
Defined.

Lemma fix_errors_image_kept_or_zeroed_witness :
  0 <= 0 < ENTRIES_PER_BLOCK /\
  (image (fix_errors (initial_state img_bad_entry)) 8 0 = image (initial_state img_bad_entry) 8 0 \/
   image (fix_errors (initial_state img_bad_entry)) 8 0 = 0).
Proof.
  split; [unfold ENTRIES_PER_BLOCK, BLOCK_SIZE; cbn; lia|].
  apply (fix_errors_image_kept_or_zeroed (initial_state img_bad_entry) 8 0).
  unfold ENTRIES_PER_BLOCK, BLOCK_SIZE; cbn; lia.
Defined.

Lemma fix_errors_passes_inode_bitmap_check_witness :
  (10 <= length (inode_bitmap (initial_state img_start9)))%nat /\
  check_inode_bitmap_consistency (fix_errors (initial_state img_start9)) =
    (true, fix_errors (initial_state img_start9)).
Proof.
  split; [apply Nat.leb_le; vm_compute; reflexivity|].
  apply (fix_errors_passes_inode_bitmap_check (initial_state img_start9)).
  apply Nat.leb_le. vm_compute. reflexivity.
Defined.

Lemma clean_image_left_untouched_witness :
  errors_found (snd (run_checks (emit MChecking (initial_state img_one_file)))) = 0 /\
  output (check_and_repair (initial_state img_one_file)) =
    [MChecking; MSummary [true; true; true; true; true]; MTotalErrors 0; MNoErrors] /\
  writes (check_and_repair (initial_state img_one_file)) = [] /\
  superblock (check_and_repair (initial_state img_one_file)) = ld_superblock img_one_file /\
  inode_bitmap (check_and_repair (initial_state img_one_file)) = ld_inode_bitmap img_one_file /\
  data_bitmap (check_and_repair (initial_state img_one_file)) = ld_data_bitmap img_one_file /\
  inodes (check_and_repair (initial_state img_one_file)) = ld_inodes img_one_file /\
  image (check_and_repair (initial_state img_one_file)) = ld_image img_one_file.
Proof.
  split; [vm_compute; reflexivity|].
  apply (clean_image_left_untouched img_one_file). vm_compute. reflexivity.
Defined.

Lemma recheck_passes_superblock_inode_bitmap_bad_blocks_witness :
  (10 <= length (inode_bitmap (initial_state img_block64)))%nat /\
  0 < errors_found (snd (run_checks (emit MChecking (initial_state img_block64)))) /\
  exists pre post d1 d2,
    output (check_and_repair (initial_state img_block64)) =
      pre ++ MRecheckSummary [true; true; d1; d2; true] :: post.
Proof.
  split; [apply Nat.leb_le; vm_compute; reflexivity|].
  split; [apply Z.ltb_lt; vm_compute; reflexivity|].
  apply (recheck_passes_superblock_inode_bitmap_bad_blocks (initial_state img_block64)).
  - apply Nat.leb_le. vm_compute. reflexivity.
  - apply Z.ltb_lt. vm_compute. reflexivity.
Defined.

Lemma check_duplicate_blocks_reports_multiclaimed_witness :
  claims_in_bounds (initial_state img_twice10) = true /\
  output (snd (check_duplicate_blocks (initial_state img_twice10))) =
    output (initial_state img_twice10) ++ spec_duplicate_findings (initial_state img_twice10) /\
  errors_found (snd (check_duplicate_blocks (initial_state img_twice10))) =
    errors_found (initial_state img_twice10) +
    Z.of_nat (length (spec_duplicate_findings (initial_state img_twice10))) /\
  fst (check_duplicate_blocks (initial_state img_twice10)) =
    Nat.eqb (length (spec_duplicate_findings (initial_state img_twice10))) 0.
Proof.
  split; [vm_compute; reflexivity|].
  apply (check_duplicate_blocks_reports_multiclaimed (initial_state img_twice10)).
  vm_compute. reflexivity.
Defined.

Lemma validators_read_only_witness :
  in_bounds (initial_state img_block64) = true /\
  superblock (snd (run_checks (initial_state img_block64))) = superblock (initial_state img_block64) /\
  inode_bitmap (snd (run_checks (initial_state img_block64))) = inode_bitmap (initial_state img_block64) /\
  data_bitmap (snd (run_checks (initial_state img_block64))) = data_bitmap (initial_state img_block64) /\
  inodes (snd (run_checks (initial_state img_block64))) = inodes (initial_state img_block64) /\
  image (snd (run_checks (initial_state img_block64))) = image (initial_state img_block64) /\
  errors_fixed (snd (run_checks (initial_state img_block64))) = errors_fixed (initial_state img_block64) /\
  writes (snd (run_checks (initial_state img_block64))) = writes (initial_state img_block64).
Proof.
  split; [vm_compute; reflexivity|].
  apply (validators_read_only (initial_state img_block64)). vm_compute. reflexivity.
Defined.

Lemma check_data_bitmap_reference_owner_witness :
  marks_in_bounds (initial_state img_one_file) = true /\
  (block_referenced (snd (check_data_bitmap_consistency (initial_state img_one_file))) 10 = true ->
     0 <= 10 < TOTAL_BLOCKS /\
     0 <= block_referenced_by (snd (check_data_bitmap_consistency (initial_state img_one_file))) 10 < INODE_COUNT /\
     is_valid_inode (inode_at (initial_state img_one_file)
       (block_referenced_by (snd (check_data_bitmap_consistency (initial_state img_one_file))) 10)) = true) /\
  (block_referenced (snd (check_data_bitmap_consistency (initial_state img_one_file))) 10 = false ->
     block_referenced_by (snd (check_data_bitmap_consistency (initial_state img_one_file))) 10 = -1).
Proof.
  split; [vm_compute; reflexivity|].
  apply (check_data_bitmap_reference_owner (initial_state img_one_file) 10).
  vm_compute. reflexivity.
Defined.

Lemma repair_cycle_in_bounds_witness :
  in_bounds (initial_state img_block64) = true /\
  in_bounds (repair_cycle (initial_state img_block64)) = true.
Proof.
  split; [vm_compute; reflexivity|].
  apply (repair_cycle_in_bounds (initial_state img_block64)). vm_compute. reflexivity.
Defined.
